(** * The lending model of [src/biblioteca.py]

    A shallow embedding of the classes [Publicacion] (with its subclasses
    [Libro], [Revista], [DVD]), [Usuario], [Prestamo] and [Biblioteca].

    Python objects are mutable and shared: a [Prestamo] keeps references to
    its [Usuario] and its [Publicacion], a [Usuario] keeps a list of
    references to its active loans, and a [Biblioteca] keeps lists of
    references to everything registered in it.  The embedding therefore has
    an explicit object store ([Heap]) indexed by object identities ([loc]),
    and every method is a computation in a state-and-exception monad [M]
    whose state survives a raised exception, as in Python.

    Conventions.
    - [datetime] values are integers: microseconds since 0001-01-01T00:00:00.
      Every call of [datetime.now()] in the source is an explicit argument
      [now] of the embedded method.
    - Monetary amounts are Python floats, that is IEEE 754 binary64
      numbers.  They are embedded as the primitive type [float], and the
      source's [+=], [-=], [*] and [>] on them are the binary64 operations
      [+], [-], [*] and [<?] of [float_scope], with their rounding.  Where
      the source multiplies an [int] by a float, the [int] is first
      converted to the nearest double ([float_of_Z]). *)

From Stdlib Require Import ZArith String Floats.
From stdpp Require Import gmap strings list fin_maps.

Open Scope Z_scope.

(** ** Data model *)

(** Object identity (what Python's [is] and the default [==] compare). *)
Abbreviation loc := nat (only parsing).

Abbreviation datetime := Z (only parsing).

Definition us_per_day : Z := 86400000000.

(** [datetime.max] is 9999-12-31T23:59:59.999999, ordinal day 3652059. *)
Definition datetime_max : Z := 3652059 * us_per_day - 1.

(** [timedelta(days=d)] accepts [|d| <= 999999999]. *)
Definition timedelta_max_days : Z := 999999999.

(** The conversion of an [int] operand of a float operation: the nearest
    double, ties to even.  (Python raises [OverflowError] instead of
    yielding an infinity, from about 1.8e308 on; a number of days between
    two [datetime] values stays below 3652059, where the conversion is
    exact.) *)
Definition float_of_Z (z : Z) : float :=
  SF2Prim (binary_normalize prec emax z 0 false).

(** The subclass of a publication with the attributes it adds. *)
Inductive Clase : Type :=
| Libro (_autor _isbn : string)
| Revista (_numero_edicion : Z)
| DVD (_duracion_minutos : Z).

Record Publicacion : Type := mkPublicacion {
  pub_id : Z;
  pub_titulo : string;
  pub_anio : Z;
  pub_disponible : bool;
  pub_clase : Clase
}.

Record Usuario : Type := mkUsuario {
  usr_id : Z;
  usr_nombre : string;
  usr_email : string;
  usr_prestamos_activos : list loc;
  usr_penalizacion_acumulada : float
}.

Record Prestamo : Type := mkPrestamo {
  pre_id : Z;
  pre_usuario : loc;
  pre_publicacion : loc;
  pre_fecha_prestamo : datetime;
  pre_fecha_devolucion_esperada : datetime;
  pre_fecha_devolucion_real : option datetime;
  pre_penalizacion : float
}.

Record Biblioteca : Type := mkBiblioteca {
  bib_publicaciones : list loc;
  bib_usuarios : list loc;
  bib_prestamos : list loc;
  bib_next_prestamo_id : Z
}.

(** The object store: one finite map per class. *)
Record Heap : Type := mkHeap {
  publicaciones : gmap loc Publicacion;
  usuarios : gmap loc Usuario;
  prestamos : gmap loc Prestamo;
  bibliotecas : gmap loc Biblioteca
}.

Definition heap_vacio : Heap := mkHeap ∅ ∅ ∅ ∅.

(** ** Exceptions and the monad *)

(** [InvalidRef] is not a Python exception: it is the outcome of following
    a reference to no object, which a Python program cannot hold. *)
Inductive exn : Type :=
| ValueError (msg : string)
| OverflowError
| InvalidRef.

Definition msg_ya_prestada : string := "La publicación ya está prestada".
Definition msg_no_prestada : string := "La publicación no está prestada".
Definition msg_excede : string := "El monto excede la penalización acumulada".
Definition msg_ya_devuelto : string := "El préstamo ya fue devuelto".
Definition msg_usuario_no_encontrado : string := "Usuario no encontrado".
Definition msg_publicacion_no_encontrada : string := "Publicación no encontrada".
Definition msg_no_puede_pedir : string :=
  "El usuario no puede pedir préstamos en este momento".
Definition msg_no_disponible : string := "La publicación no está disponible".

(** A computation returns the store it leaves behind together with either
    the raised exception or its result. *)
Definition M (A : Type) : Type := Heap → Heap * (exn + A).

#[export] Instance M_ret : MRet M := λ A (a : A) h, (h, inr a).

#[export] Instance M_bind : MBind M := λ A B (f : A → M B) (m : M A) h,
  match m h with
  | (h', inl e) => (h', inl e)
  | (h', inr a) => f a h'
  end.

Definition raise {A : Type} (e : exn) : M A := λ h, (h, inl e).

Definition lift_result {A : Type} (r : exn + A) : M A := λ h, (h, r).

(** Dereferencing and writing back an object of each class. *)
Definition get_publicacion (l : loc) : M Publicacion := λ h,
  match publicaciones h !! l with
  | Some p => (h, inr p)
  | None => (h, inl InvalidRef)
  end.

Definition put_publicacion (l : loc) (p : Publicacion) : M unit := λ h,
  (mkHeap (<[l := p]> (publicaciones h)) (usuarios h) (prestamos h) (bibliotecas h),
   inr tt).

Definition get_usuario (l : loc) : M Usuario := λ h,
  match usuarios h !! l with
  | Some u => (h, inr u)
  | None => (h, inl InvalidRef)
  end.

Definition put_usuario (l : loc) (u : Usuario) : M unit := λ h,
  (mkHeap (publicaciones h) (<[l := u]> (usuarios h)) (prestamos h) (bibliotecas h),
   inr tt).

Definition get_prestamo (l : loc) : M Prestamo := λ h,
  match prestamos h !! l with
  | Some p => (h, inr p)
  | None => (h, inl InvalidRef)
  end.

Definition put_prestamo (l : loc) (p : Prestamo) : M unit := λ h,
  (mkHeap (publicaciones h) (usuarios h) (<[l := p]> (prestamos h)) (bibliotecas h),
   inr tt).

Definition get_biblioteca (l : loc) : M Biblioteca := λ h,
  match bibliotecas h !! l with
  | Some b => (h, inr b)
  | None => (h, inl InvalidRef)
  end.

Definition put_biblioteca (l : loc) (b : Biblioteca) : M unit := λ h,
  (mkHeap (publicaciones h) (usuarios h) (prestamos h) (<[l := b]> (bibliotecas h)),
   inr tt).

(** Object creation: the new object gets an identity no object has. *)
Definition alloc_publicacion (p : Publicacion) : M loc := λ h,
  let l := fresh (dom (publicaciones h)) in
  (mkHeap (<[l := p]> (publicaciones h)) (usuarios h) (prestamos h) (bibliotecas h),
   inr l).

Definition alloc_usuario (u : Usuario) : M loc := λ h,
  let l := fresh (dom (usuarios h)) in
  (mkHeap (publicaciones h) (<[l := u]> (usuarios h)) (prestamos h) (bibliotecas h),
   inr l).

Definition alloc_prestamo (p : Prestamo) : M loc := λ h,
  let l := fresh (dom (prestamos h)) in
  (mkHeap (publicaciones h) (usuarios h) (<[l := p]> (prestamos h)) (bibliotecas h),
   inr l).

Definition alloc_biblioteca (b : Biblioteca) : M loc := λ h,
  let l := fresh (dom (bibliotecas h)) in
  (mkHeap (publicaciones h) (usuarios h) (prestamos h) (<[l := b]> (bibliotecas h)),
   inr l).

(** ** class Publicacion *)

Definition set_disponible (d : bool) (p : Publicacion) : Publicacion :=
  mkPublicacion (pub_id p) (pub_titulo p) (pub_anio p) d (pub_clase p).

(** The state change of [marcar_prestado] on the object itself. *)
Definition marcar_prestado_obj (p : Publicacion) : exn + Publicacion :=
  if negb (pub_disponible p) then inl (ValueError msg_ya_prestada)
  else inr (set_disponible false p).

Definition marcar_devuelto_obj (p : Publicacion) : exn + Publicacion :=
  if pub_disponible p then inl (ValueError msg_no_prestada)
  else inr (set_disponible true p).

Definition marcar_prestado (self : loc) : M unit :=
  p ← get_publicacion self;
  p' ← lift_result (marcar_prestado_obj p);
  put_publicacion self p'.

Definition marcar_devuelto (self : loc) : M unit :=
  p ← get_publicacion self;
  p' ← lift_result (marcar_devuelto_obj p);
  put_publicacion self p'.

Definition obtener_tipo (p : Publicacion) : string :=
  match pub_clase p with
  | Libro _ _ => "Libro"
  | Revista _ => "Revista"
  | DVD _ => "DVD"
  end.

Definition calcular_penalizacion_retraso (p : Publicacion) (dias_retraso : Z) : float :=
  match pub_clase p with
  | Libro _ _ => (float_of_Z dias_retraso * 1.0)%float
  | Revista _ => (float_of_Z dias_retraso * 0.5)%float
  | DVD _ => (float_of_Z dias_retraso * 2.0)%float
  end.

(** The constructors of the three concrete subclasses. *)
Definition new_Libro (id : Z) (titulo : string) (anio : Z) (autor isbn : string) : M loc :=
  alloc_publicacion (mkPublicacion id titulo anio true (Libro autor isbn)).

Definition new_Revista (id : Z) (titulo : string) (anio : Z) (numero_edicion : Z) : M loc :=
  alloc_publicacion (mkPublicacion id titulo anio true (Revista numero_edicion)).

Definition new_DVD (id : Z) (titulo : string) (anio : Z) (duracion_minutos : Z) : M loc :=
  alloc_publicacion (mkPublicacion id titulo anio true (DVD duracion_minutos)).

(** ** class Usuario *)

Definition set_prestamos_activos (ls : list loc) (u : Usuario) : Usuario :=
  mkUsuario (usr_id u) (usr_nombre u) (usr_email u) ls (usr_penalizacion_acumulada u).

Definition set_penalizacion_acumulada (q : float) (u : Usuario) : Usuario :=
  mkUsuario (usr_id u) (usr_nombre u) (usr_email u) (usr_prestamos_activos u) q.

Definition new_Usuario (id : Z) (nombre email : string) : M loc :=
  alloc_usuario (mkUsuario id nombre email [] 0.0%float).

(** [list.remove(x)]: drops the first element equal to [x]. *)
Fixpoint list_remove (x : loc) (l : list loc) : list loc :=
  match l with
  | [] => []
  | y :: l' => if decide (x = y) then l' else y :: list_remove x l'
  end.

Definition agregar_prestamo_obj (prestamo : loc) (u : Usuario) : Usuario :=
  set_prestamos_activos (usr_prestamos_activos u ++ [prestamo]) u.

Definition remover_prestamo_obj (prestamo : loc) (u : Usuario) : Usuario :=
  if bool_decide (prestamo ∈ usr_prestamos_activos u)
  then set_prestamos_activos (list_remove prestamo (usr_prestamos_activos u)) u
  else u.

Definition obtener_prestamos_activos_obj (u : Usuario) : list loc :=
  usr_prestamos_activos u.

Definition puede_pedir_prestamo_obj (u : Usuario) : bool :=
  if (3 <=? Z.of_nat (length (usr_prestamos_activos u))) then false
  else if (0 <? usr_penalizacion_acumulada u)%float then false
  else true.

Definition agregar_penalizacion_obj (monto : float) (u : Usuario) : Usuario :=
  set_penalizacion_acumulada (usr_penalizacion_acumulada u + monto)%float u.

(** [monto > self._penalizacion_acumulada] is [acumulada < monto]. *)
Definition pagar_penalizacion_obj (monto : float) (u : Usuario) : exn + Usuario :=
  if (usr_penalizacion_acumulada u <? monto)%float then inl (ValueError msg_excede)
  else inr (set_penalizacion_acumulada (usr_penalizacion_acumulada u - monto)%float u).

Definition agregar_prestamo (self prestamo : loc) : M unit :=
  u ← get_usuario self;
  put_usuario self (agregar_prestamo_obj prestamo u).

Definition remover_prestamo (self prestamo : loc) : M unit :=
  u ← get_usuario self;
  put_usuario self (remover_prestamo_obj prestamo u).

Definition obtener_prestamos_activos (self : loc) : M (list loc) :=
  u ← get_usuario self;
  mret (obtener_prestamos_activos_obj u).

Definition puede_pedir_prestamo (self : loc) : M bool :=
  u ← get_usuario self;
  mret (puede_pedir_prestamo_obj u).

Definition agregar_penalizacion (self : loc) (monto : float) : M unit :=
  u ← get_usuario self;
  put_usuario self (agregar_penalizacion_obj monto u).

Definition pagar_penalizacion (self : loc) (monto : float) : M unit :=
  u ← get_usuario self;
  u' ← lift_result (pagar_penalizacion_obj monto u);
  put_usuario self u'.

(** ** class Prestamo *)

Definition set_fecha_devolucion_real (t : option datetime) (p : Prestamo) : Prestamo :=
  mkPrestamo (pre_id p) (pre_usuario p) (pre_publicacion p) (pre_fecha_prestamo p)
    (pre_fecha_devolucion_esperada p) t (pre_penalizacion p).

Definition set_penalizacion (q : float) (p : Prestamo) : Prestamo :=
  mkPrestamo (pre_id p) (pre_usuario p) (pre_publicacion p) (pre_fecha_prestamo p)
    (pre_fecha_devolucion_esperada p) (pre_fecha_devolucion_real p) q.

(** [timedelta(days=d)], in microseconds. *)
Definition timedelta_days (d : Z) : exn + Z :=
  if (timedelta_max_days <? Z.abs d) then inl OverflowError
  else inr (d * us_per_day).

(** [datetime + timedelta]. *)
Definition datetime_add (t delta : Z) : exn + datetime :=
  let r := t + delta in
  if (r <? 0) || (datetime_max <? r) then inl OverflowError else inr r.

(** [(a - b).days]: timedelta normalises to a floored number of days. *)
Definition dias_entre (a b : datetime) : Z := (a - b) / us_per_day.

(** [Prestamo(id, usuario, publicacion, dias_prestamo)] at clock reading
    [now]; the source's default for [dias_prestamo] is 7. *)
Definition new_Prestamo (id : Z) (usuario publicacion : loc) (dias_prestamo : Z)
    (now : datetime) : M loc :=
  delta ← lift_result (timedelta_days dias_prestamo);
  esperada ← lift_result (datetime_add now delta);
  alloc_prestamo (mkPrestamo id usuario publicacion now esperada None 0.0%float).

Definition dias_prestamo_por_defecto : Z := 7.

Definition esta_vencido_obj (p : Prestamo) (now : datetime) : bool :=
  match pre_fecha_devolucion_real p with
  | Some _ => false
  | None => pre_fecha_devolucion_esperada p <? now
  end.

Definition esta_vencido (self : loc) (now : datetime) : M bool :=
  p ← get_prestamo self;
  mret (esta_vencido_obj p now).

(** [calcular_dias_retraso] reads the clock twice: once inside
    [esta_vencido] ([now1]) and once for the difference ([now2]). *)
Definition calcular_dias_retraso (self : loc) (now1 now2 : datetime) : M Z :=
  vencido ← esta_vencido self now1;
  if negb vencido then mret 0
  else
    p ← get_prestamo self;
    mret (Z.max 0 (dias_entre now2 (pre_fecha_devolucion_esperada p))).

Definition devolver (self : loc) (now : datetime) : M unit :=
  p ← get_prestamo self;
  match pre_fecha_devolucion_real p with
  | Some _ => raise (ValueError msg_ya_devuelto)
  | None =>
      put_prestamo self (set_fecha_devolucion_real (Some now) p);;
      (if pre_fecha_devolucion_esperada p <? now then
         let dias_retraso := dias_entre now (pre_fecha_devolucion_esperada p) in
         pub ← get_publicacion (pre_publicacion p);
         let penalizacion := calcular_penalizacion_retraso pub dias_retraso in
         p1 ← get_prestamo self;
         put_prestamo self (set_penalizacion penalizacion p1);;
         agregar_penalizacion (pre_usuario p) penalizacion
       else mret tt);;
      marcar_devuelto (pre_publicacion p);;
      remover_prestamo (pre_usuario p) self
  end.

(** ** class Biblioteca *)

Definition new_Biblioteca : M loc :=
  alloc_biblioteca (mkBiblioteca [] [] [] 1).

Definition agregar_publicacion (self publicacion : loc) : M unit :=
  b ← get_biblioteca self;
  put_biblioteca self
    (mkBiblioteca (bib_publicaciones b ++ [publicacion]) (bib_usuarios b)
       (bib_prestamos b) (bib_next_prestamo_id b)).

Definition agregar_usuario (self usuario : loc) : M unit :=
  b ← get_biblioteca self;
  put_biblioteca self
    (mkBiblioteca (bib_publicaciones b) (bib_usuarios b ++ [usuario])
       (bib_prestamos b) (bib_next_prestamo_id b)).

(** The [for ... in ...: if x.id == id: return x] loops. *)
Fixpoint buscar_publicacion_en (ls : list loc) (id : Z) : M (option loc) :=
  match ls with
  | [] => mret None
  | l :: ls' =>
      pub ← get_publicacion l;
      if pub_id pub =? id then mret (Some l) else buscar_publicacion_en ls' id
  end.

Fixpoint buscar_usuario_en (ls : list loc) (id : Z) : M (option loc) :=
  match ls with
  | [] => mret None
  | l :: ls' =>
      usr ← get_usuario l;
      if usr_id usr =? id then mret (Some l) else buscar_usuario_en ls' id
  end.

Definition buscar_publicacion (self : loc) (id : Z) : M (option loc) :=
  b ← get_biblioteca self;
  buscar_publicacion_en (bib_publicaciones b) id.

Definition buscar_usuario (self : loc) (id : Z) : M (option loc) :=
  b ← get_biblioteca self;
  buscar_usuario_en (bib_usuarios b) id.

Definition crear_prestamo (self : loc) (usuario_id publicacion_id : Z)
    (now : datetime) : M loc :=
  o_usuario ← buscar_usuario self usuario_id;
  match o_usuario with
  | None => raise (ValueError msg_usuario_no_encontrado)
  | Some usuario =>
      o_publicacion ← buscar_publicacion self publicacion_id;
      match o_publicacion with
      | None => raise (ValueError msg_publicacion_no_encontrada)
      | Some publicacion =>
          puede ← puede_pedir_prestamo usuario;
          if negb puede then raise (ValueError msg_no_puede_pedir)
          else
            pub ← get_publicacion publicacion;
            if negb (pub_disponible pub) then raise (ValueError msg_no_disponible)
            else
              b ← get_biblioteca self;
              prestamo ← new_Prestamo (bib_next_prestamo_id b) usuario publicacion
                           dias_prestamo_por_defecto now;
              put_biblioteca self
                (mkBiblioteca (bib_publicaciones b) (bib_usuarios b)
                   (bib_prestamos b) (bib_next_prestamo_id b + 1));;
              marcar_prestado publicacion;;
              agregar_prestamo usuario prestamo;;
              b' ← get_biblioteca self;
              put_biblioteca self
                (mkBiblioteca (bib_publicaciones b') (bib_usuarios b')
                   (bib_prestamos b' ++ [prestamo]) (bib_next_prestamo_id b'));;
              mret prestamo
      end
  end.

(** [obtener_prestamos_vencidos] reads the clock once per loan: [reloj i]
    is the reading for the loan at position [i]. *)
Fixpoint filtrar_vencidos (ls : list loc) (reloj : nat → datetime) : M (list loc) :=
  match ls with
  | [] => mret []
  | l :: ls' =>
      v ← esta_vencido l (reloj O);
      rest ← filtrar_vencidos ls' (λ i, reloj (S i));
      mret (if (v : bool) then l :: rest else rest)
  end.

Definition obtener_prestamos_vencidos (self : loc) (reloj : nat → datetime)
    : M (list loc) :=
  b ← get_biblioteca self;
  filtrar_vencidos (bib_prestamos b) reloj.

(** ** Programs over the public interface

    A client program is a sequence of constructor and method calls.  The
    queries ([buscar_*], [puede_pedir_prestamo], [esta_vencido], ...) leave
    the store as it is and are not listed. *)

Inductive Cmd : Type :=
| CLibro (id : Z) (titulo : string) (anio : Z) (autor isbn : string)
| CRevista (id : Z) (titulo : string) (anio : Z) (numero_edicion : Z)
| CDVD (id : Z) (titulo : string) (anio : Z) (duracion_minutos : Z)
| CUsuario (id : Z) (nombre email : string)
| CPrestamo (id : Z) (usuario publicacion : loc) (dias_prestamo : Z) (now : datetime)
| CBiblioteca
| CMarcarPrestado (publicacion : loc)
| CMarcarDevuelto (publicacion : loc)
| CAgregarPrestamo (usuario prestamo : loc)
| CRemoverPrestamo (usuario prestamo : loc)
| CAgregarPenalizacion (usuario : loc) (monto : float)
| CPagarPenalizacion (usuario : loc) (monto : float)
| CDevolver (prestamo : loc) (now : datetime)
| CAgregarPublicacion (biblioteca publicacion : loc)
| CAgregarUsuario (biblioteca usuario : loc)
| CCrearPrestamo (biblioteca : loc) (usuario_id publicacion_id : Z) (now : datetime).

Definition descartar {A : Type} (m : M A) : M unit := _ ← m; mret tt.

Definition ejecutar (c : Cmd) : M unit :=
  match c with
  | CLibro id titulo anio autor isbn => descartar (new_Libro id titulo anio autor isbn)
  | CRevista id titulo anio n => descartar (new_Revista id titulo anio n)
  | CDVD id titulo anio d => descartar (new_DVD id titulo anio d)
  | CUsuario id nombre email => descartar (new_Usuario id nombre email)
  | CPrestamo id u p dias now => descartar (new_Prestamo id u p dias now)
  | CBiblioteca => descartar new_Biblioteca
  | CMarcarPrestado p => marcar_prestado p
  | CMarcarDevuelto p => marcar_devuelto p
  | CAgregarPrestamo u l => agregar_prestamo u l
  | CRemoverPrestamo u l => remover_prestamo u l
  | CAgregarPenalizacion u m => agregar_penalizacion u m
  | CPagarPenalizacion u m => pagar_penalizacion u m
  | CDevolver l now => devolver l now
  | CAgregarPublicacion b p => agregar_publicacion b p
  | CAgregarUsuario b u => agregar_usuario b u
  | CCrearPrestamo b uid pid now => descartar (crear_prestamo b uid pid now)
  end.

(** The store a call leaves behind, whether it returns or raises. *)
Definition paso (c : Cmd) (h : Heap) : Heap := (ejecutar c h).1.

Definition correr (cs : list Cmd) (h : Heap) : Heap := foldl (λ h c, paso c h) h cs.

Definition existe_publicacion (h : Heap) (l : loc) : bool :=
  bool_decide (is_Some (publicaciones h !! l)).
Definition existe_usuario (h : Heap) (l : loc) : bool :=
  bool_decide (is_Some (usuarios h !! l)).
Definition existe_prestamo (h : Heap) (l : loc) : bool :=
  bool_decide (is_Some (prestamos h !! l)).
Definition existe_biblioteca (h : Heap) (l : loc) : bool :=
  bool_decide (is_Some (bibliotecas h !! l)).

(** A Python program can only pass references to objects that exist. *)
Definition refs_validas (h : Heap) (c : Cmd) : bool :=
  match c with
  | CLibro _ _ _ _ _ | CRevista _ _ _ _ | CDVD _ _ _ _ | CUsuario _ _ _
  | CBiblioteca => true
  | CPrestamo _ u p _ _ => existe_usuario h u && existe_publicacion h p
  | CMarcarPrestado p | CMarcarDevuelto p => existe_publicacion h p
  | CAgregarPrestamo u l | CRemoverPrestamo u l =>
      existe_usuario h u && existe_prestamo h l
  | CAgregarPenalizacion u _ | CPagarPenalizacion u _ => existe_usuario h u
  | CDevolver l _ => existe_prestamo h l
  | CAgregarPublicacion b p => existe_biblioteca h b && existe_publicacion h p
  | CAgregarUsuario b u => existe_biblioteca h b && existe_usuario h u
  | CCrearPrestamo b _ _ _ => existe_biblioteca h b
  end.

(** The stores a client program can produce, starting with no object. *)
Inductive alcanzable : Heap → Prop :=
| alcanzable_vacio : alcanzable heap_vacio
| alcanzable_paso (h : Heap) (c : Cmd) :
    alcanzable h → refs_validas h c = true → alcanzable (paso c h).

(** The operations a client performs through the catalog once the objects
    exist: creating a loan and returning one. *)
Inductive OpCatalogo : Type :=
| OpCrearPrestamo (biblioteca : loc) (usuario_id publicacion_id : Z) (now : datetime)
| OpDevolver (prestamo : loc) (now : datetime).

Definition cmd_de_op (o : OpCatalogo) : Cmd :=
  match o with
  | OpCrearPrestamo b uid pid now => CCrearPrestamo b uid pid now
  | OpDevolver l now => CDevolver l now
  end.

(** The calls of the methods that class [Biblioteca] defines. *)
Inductive LlamadaBiblioteca : Type :=
| LlAgregarPublicacion (publicacion : loc)
| LlAgregarUsuario (usuario : loc)
| LlBuscarPublicacion (id : Z)
| LlBuscarUsuario (id : Z)
| LlCrearPrestamo (usuario_id publicacion_id : Z) (now : datetime)
| LlObtenerPrestamosVencidos (reloj : nat → datetime).

Definition llamar (self : loc) (ll : LlamadaBiblioteca) : M unit :=
  match ll with
  | LlAgregarPublicacion p => agregar_publicacion self p
  | LlAgregarUsuario u => agregar_usuario self u
  | LlBuscarPublicacion id => descartar (buscar_publicacion self id)
  | LlBuscarUsuario id => descartar (buscar_usuario self id)
  | LlCrearPrestamo uid pid now => descartar (crear_prestamo self uid pid now)
  | LlObtenerPrestamosVencidos reloj => descartar (obtener_prestamos_vencidos self reloj)
  end.


(** ** Specification-level definitions *)

(** The store after a successful [crear_prestamo]. *)
Definition heap_tras_crear (h : Heap) (self : loc) (b : Biblioteca)
    (usuario : loc) (u : Usuario) (publicacion : loc) (pub : Publicacion)
    (now : datetime) : Heap :=
  let prestamo := fresh (dom (prestamos h)) in
  mkHeap
    (<[publicacion := set_disponible false pub]> (publicaciones h))
    (<[usuario := agregar_prestamo_obj prestamo u]> (usuarios h))
    (<[prestamo := mkPrestamo (bib_next_prestamo_id b) usuario publicacion now
                     (now + dias_prestamo_por_defecto * us_per_day) None 0.0%float]>
       (prestamos h))
    (<[self := mkBiblioteca (bib_publicaciones b) (bib_usuarios b)
                 (bib_prestamos b ++ [prestamo]) (bib_next_prestamo_id b + 1)]>
       (bibliotecas h)).

(** Why [crear_prestamo] raises, with the exception it raises. *)
Inductive causa_fallo_crear (self : loc) (uid pid : Z) (now : datetime) (h : Heap)
  : exn → Prop :=
| cf_sin_biblioteca :
    bibliotecas h !! self = None →
    causa_fallo_crear self uid pid now h InvalidRef
| cf_ref_usuario b :
    bibliotecas h !! self = Some b →
    (buscar_usuario_en (bib_usuarios b) uid h).2 = inl InvalidRef →
    causa_fallo_crear self uid pid now h InvalidRef
| cf_usuario_ausente b :
    bibliotecas h !! self = Some b →
    (buscar_usuario_en (bib_usuarios b) uid h).2 = inr None →
    causa_fallo_crear self uid pid now h (ValueError msg_usuario_no_encontrado)
| cf_ref_publicacion b :
    bibliotecas h !! self = Some b →
    (buscar_publicacion_en (bib_publicaciones b) pid h).2 = inl InvalidRef →
    causa_fallo_crear self uid pid now h InvalidRef
| cf_publicacion_ausente b :
    bibliotecas h !! self = Some b →
    (buscar_publicacion_en (bib_publicaciones b) pid h).2 = inr None →
    causa_fallo_crear self uid pid now h (ValueError msg_publicacion_no_encontrada)
| cf_no_puede b usuario u :
    bibliotecas h !! self = Some b →
    (buscar_usuario_en (bib_usuarios b) uid h).2 = inr (Some usuario) →
    usuarios h !! usuario = Some u →
    puede_pedir_prestamo_obj u = false →
    causa_fallo_crear self uid pid now h (ValueError msg_no_puede_pedir)
| cf_no_disponible b publicacion pub :
    bibliotecas h !! self = Some b →
    (buscar_publicacion_en (bib_publicaciones b) pid h).2 = inr (Some publicacion) →
    publicaciones h !! publicacion = Some pub →
    pub_disponible pub = false →
    causa_fallo_crear self uid pid now h (ValueError msg_no_disponible)
| cf_desborde :
    ¬ (0 ≤ now + dias_prestamo_por_defecto * us_per_day ≤ datetime_max) →
    causa_fallo_crear self uid pid now h OverflowError.

(** The two kinds of outcome of [crear_prestamo]: a new loan in an updated
    store, or an exception in the store as it was. *)
Inductive resultado_crear (self : loc) (uid pid : Z) (now : datetime) (h : Heap)
  : Heap → exn + loc → Prop :=
| rc_exito b usuario u publicacion pub :
    bibliotecas h !! self = Some b →
    (buscar_usuario_en (bib_usuarios b) uid h).2 = inr (Some usuario) →
    usuarios h !! usuario = Some u →
    (buscar_publicacion_en (bib_publicaciones b) pid h).2 = inr (Some publicacion) →
    publicaciones h !! publicacion = Some pub →
    puede_pedir_prestamo_obj u = true →
    pub_disponible pub = true →
    0 ≤ now + dias_prestamo_por_defecto * us_per_day ≤ datetime_max →
    resultado_crear self uid pid now h
      (heap_tras_crear h self b usuario u publicacion pub now)
      (inr (fresh (dom (prestamos h))))
| rc_fallo e :
    causa_fallo_crear self uid pid now h e →
    resultado_crear self uid pid now h h (inl e).

(** The first failing check of [crear_prestamo] on store [h], with the
    exception that reports it. *)
Inductive verificacion_fallida (self : loc) (uid pid : Z) (h : Heap) : exn → Prop :=
| vf_usuario_ausente :
    buscar_usuario self uid h = (h, inr None) →
    verificacion_fallida self uid pid h (ValueError msg_usuario_no_encontrado)
| vf_publicacion_ausente usuario :
    buscar_usuario self uid h = (h, inr (Some usuario)) →
    buscar_publicacion self pid h = (h, inr None) →
    verificacion_fallida self uid pid h (ValueError msg_publicacion_no_encontrada)
| vf_usuario_no_puede usuario publicacion :
    buscar_usuario self uid h = (h, inr (Some usuario)) →
    buscar_publicacion self pid h = (h, inr (Some publicacion)) →
    puede_pedir_prestamo usuario h = (h, inr false) →
    verificacion_fallida self uid pid h (ValueError msg_no_puede_pedir)
| vf_publicacion_no_disponible usuario publicacion pub :
    buscar_usuario self uid h = (h, inr (Some usuario)) →
    buscar_publicacion self pid h = (h, inr (Some publicacion)) →
    puede_pedir_prestamo usuario h = (h, inr true) →
    publicaciones h !! publicacion = Some pub →
    pub_disponible pub = false →
    verificacion_fallida self uid pid h (ValueError msg_no_disponible).

(** The store after a successful [devolver]. *)
Definition heap_tras_devolver (h : Heap) (l : loc) (p : Prestamo) (pub : Publicacion)
    (u : Usuario) (now : datetime) : Heap :=
  let tarde := pre_fecha_devolucion_esperada p <? now in
  let penalizacion :=
    calcular_penalizacion_retraso pub (dias_entre now (pre_fecha_devolucion_esperada p)) in
  mkHeap
    (<[pre_publicacion p := set_disponible true pub]> (publicaciones h))
    (<[pre_usuario p :=
         remover_prestamo_obj l
           (if tarde then agregar_penalizacion_obj penalizacion u else u)]> (usuarios h))
    (<[l := if tarde
            then set_penalizacion penalizacion (set_fecha_devolucion_real (Some now) p)
            else set_fecha_devolucion_real (Some now) p]> (prestamos h))
    (bibliotecas h).

(** The store [h] with the publication at [l] replaced. *)
Definition con_publicacion (l : loc) (p : Publicacion) (h : Heap) : Heap :=
  mkHeap (<[l := p]> (publicaciones h)) (usuarios h) (prestamos h) (bibliotecas h).

(** *** Invariants of the store *)


(** No user has more than three active loans. *)
Definition limite_prestamos (h : Heap) : Prop :=
  ∀ l u, usuarios h !! l = Some u → (length (usr_prestamos_activos u) ≤ 3)%nat.

(** No user has a negative accumulated penalty. *)
Definition penalizaciones_no_negativas (h : Heap) : Prop :=
  ∀ l u, usuarios h !! l = Some u → (usr_penalizacion_acumulada u <? 0)%float = false.

(** Commands that post a penalty do not post a negative amount. *)
Definition monto_no_negativo (c : Cmd) : Prop :=
  match c with
  | CAgregarPenalizacion _ monto => (monto <? 0)%float = false
  | _ => True
  end.

(** Every accumulated penalty is a number that is not below zero (so it
    is not NaN; it may be the infinity a sum overflows to). *)
Definition penalizaciones_son_numeros (h : Heap) : Prop :=
  ∀ l u, usuarios h !! l = Some u → (0 <=? usr_penalizacion_acumulada u)%float = true.

(** Commands that post a penalty post a number that is not below zero, and
    commands that pay pay a number below infinity (so neither is NaN). *)
Definition monto_es_numero (c : Cmd) : Prop :=
  match c with
  | CAgregarPenalizacion _ monto => (0 <=? monto)%float = true
  | CPagarPenalizacion _ monto => (monto <? infinity)%float = true
  | _ => True
  end.

(** Every reference held by an object points to an object. *)
Record bien_formado (h : Heap) : Prop := {
  bf_prestamo_usuario :
    ∀ l p, prestamos h !! l = Some p → is_Some (usuarios h !! pre_usuario p);
  bf_prestamo_publicacion :
    ∀ l p, prestamos h !! l = Some p → is_Some (publicaciones h !! pre_publicacion p);
  bf_usuario_prestamos :
    ∀ l u k, usuarios h !! l = Some u → k ∈ usr_prestamos_activos u →
      is_Some (prestamos h !! k);
  bf_biblioteca_publicaciones :
    ∀ l b k, bibliotecas h !! l = Some b → k ∈ bib_publicaciones b →
      is_Some (publicaciones h !! k);
  bf_biblioteca_usuarios :
    ∀ l b k, bibliotecas h !! l = Some b → k ∈ bib_usuarios b →
      is_Some (usuarios h !! k);
  bf_biblioteca_prestamos :
    ∀ l b k, bibliotecas h !! l = Some b → k ∈ bib_prestamos b →
      is_Some (prestamos h !! k)
}.

(** The reason a user may not borrow. *)
Inductive SubCausa : Type :=
| LimiteDePrestamos
| PenalizacionPendiente.

(** [diagnosticar] tells the sub-cause from the exception alone: whenever
    [crear_prestamo] stops at the eligibility check for user [u], the
    sub-cause it names is one that holds of [u]. *)
Definition distingue_subcausa (diagnosticar : exn → SubCausa) : Prop :=
  ∀ self uid pid now h usuario publicacion u e,
    buscar_usuario self uid h = (h, inr (Some usuario)) →
    buscar_publicacion self pid h = (h, inr (Some publicacion)) →
    usuarios h !! usuario = Some u →
    puede_pedir_prestamo_obj u = false →
    crear_prestamo self uid pid now h = (h, inl e) →
    match diagnosticar e with
    | LimiteDePrestamos => (3 ≤ length (usr_prestamos_activos u))%nat
    | PenalizacionPendiente => (0 <? usr_penalizacion_acumulada u)%float = true
    end.

(** *** Example stores *)

(** 2024-01-01T00:00:00. *)
Definition t0 : datetime := 738885 * us_per_day.

(** A catalog (object 0) with two users (objects 0 and 1, ids 1 and 2) and
    four publications (objects 0 to 3, ids 1 to 4). *)
Definition programa_catalogo : list Cmd :=
  [ CBiblioteca;
    CUsuario 1 "Ana" "ana@example.com";
    CUsuario 2 "Carlos" "carlos@example.com";
    CLibro 1 "Python Crash Course" 2019 "Eric Matthes" "123";
    CLibro 2 "Clean Code" 2008 "Robert Martin" "456";
    CRevista 3 "National Geographic" 2023 202;
    CDVD 4 "Test DVD" 2020 120;
    CAgregarUsuario 0%nat 0%nat;
    CAgregarUsuario 0%nat 1%nat;
    CAgregarPublicacion 0%nat 0%nat;
    CAgregarPublicacion 0%nat 1%nat;
    CAgregarPublicacion 0%nat 2%nat;
    CAgregarPublicacion 0%nat 3%nat ].

Definition ejemplo_catalogo : Heap := correr programa_catalogo heap_vacio.

(** User 1 borrows publication 1 at [t0]: loan object 0. *)
Definition ejemplo_prestado : Heap :=
  paso (CCrearPrestamo 0%nat 1 1 t0) ejemplo_catalogo.

(** The loan is returned ten days and one hour after it was due. *)
Definition ejemplo_devuelto_tarde : Heap :=
  paso (CDevolver 0%nat (t0 + 17 * us_per_day + 3600000000)) ejemplo_prestado.

(** User 1 holds three loans and owes nothing. *)
Definition ejemplo_limite : Heap :=
  correr [CCrearPrestamo 0%nat 1 2 t0; CCrearPrestamo 0%nat 1 3 t0] ejemplo_prestado.

(** User 2 holds no loan and owes 5.00. *)
Definition ejemplo_penalizado : Heap :=
  paso (CAgregarPenalizacion 1%nat 5.0%float) ejemplo_catalogo.

(** User 2 holds no loan and has the balance -5.00. *)
Definition ejemplo_saldo_negativo : Heap :=
  paso (CAgregarPenalizacion 1%nat (-5.0)%float) ejemplo_catalogo.

(** A program that only passes references to existing objects. *)
Fixpoint programa_valido (cs : list Cmd) (h : Heap) : bool :=
  match cs with
  | [] => true
  | c :: cs' => refs_validas h c && programa_valido cs' (paso c h)
  end.

(** *** Stores produced through catalogs *)

(** The commands of a client that lends only through catalogs: it creates
    publications, users and catalogs, registers them, pays penalties, and
    creates and returns loans.  It does not call [marcar_prestado],
    [marcar_devuelto], [agregar_prestamo], [remover_prestamo] or
    [agregar_penalizacion] itself, nor the constructor of [Prestamo]. *)
Definition por_catalogo (c : Cmd) : bool :=
  match c with
  | CLibro _ _ _ _ _ | CRevista _ _ _ _ | CDVD _ _ _ _ | CUsuario _ _ _ | CBiblioteca
  | CAgregarPublicacion _ _ | CAgregarUsuario _ _ | CPagarPenalizacion _ _
  | CCrearPrestamo _ _ _ _ | CDevolver _ _ => true
  | CPrestamo _ _ _ _ _ | CMarcarPrestado _ | CMarcarDevuelto _
  | CAgregarPrestamo _ _ | CRemoverPrestamo _ _ | CAgregarPenalizacion _ _ => false
  end.

(** The stores such a client can produce. *)
Inductive alcanzable_por_catalogo : Heap → Prop :=
| apc_vacio : alcanzable_por_catalogo heap_vacio
| apc_paso (h : Heap) (c : Cmd) :
    alcanzable_por_catalogo h → por_catalogo c = true → refs_validas h c = true →
    alcanzable_por_catalogo (paso c h).

(** Loans, availability and active-loan lists agree. *)
Record coherente (h : Heap) : Prop := {
  co_publicacion_prestada :
    ∀ l p, prestamos h !! l = Some p → pre_fecha_devolucion_real p = None →
      ∃ pub, publicaciones h !! pre_publicacion p = Some pub ∧ pub_disponible pub = false;
  co_un_prestamo_por_publicacion :
    ∀ l1 l2 p1 p2, prestamos h !! l1 = Some p1 → prestamos h !! l2 = Some p2 →
      pre_fecha_devolucion_real p1 = None → pre_fecha_devolucion_real p2 = None →
      pre_publicacion p1 = pre_publicacion p2 → l1 = l2;
  co_no_disponible_prestada :
    ∀ k pub, publicaciones h !! k = Some pub → pub_disponible pub = false →
      ∃ l p, prestamos h !! l = Some p ∧ pre_fecha_devolucion_real p = None ∧
        pre_publicacion p = k;
  co_activos :
    ∀ k u l, usuarios h !! k = Some u →
      (l ∈ usr_prestamos_activos u ↔
       ∃ p, prestamos h !! l = Some p ∧ pre_usuario p = k ∧
         pre_fecha_devolucion_real p = None);
  co_activos_sin_repetir :
    ∀ k u, usuarios h !! k = Some u → NoDup (usr_prestamos_activos u);
  co_usuario :
    ∀ l p, prestamos h !! l = Some p → is_Some (usuarios h !! pre_usuario p)
}.

(** A program of such a client that only passes existing objects. *)
Fixpoint programa_de_catalogo (cs : list Cmd) (h : Heap) : bool :=
  match cs with
  | [] => true
  | c :: cs' => por_catalogo c && refs_validas h c && programa_de_catalogo cs' (paso c h)
  end.

(** *** Further specification-level definitions *)

(** The loans of catalog [b] carry the ids 1, 2, ... in order, and its
    counter holds the next id. *)
Definition ids_en_orden (h : Heap) (b : Biblioteca) : Prop :=
  bib_next_prestamo_id b = 1 + Z.of_nat (length (bib_prestamos b)) ∧
  ∀ (i : nat) l, bib_prestamos b !! i = Some l →
    ∃ p, prestamos h !! l = Some p ∧ pre_id p = 1 + Z.of_nat i.

(** [h] with the user at [l] replaced. *)
Definition con_usuario (l : loc) (u : Usuario) (h : Heap) : Heap :=
  mkHeap (publicaciones h) (<[l := u]> (usuarios h)) (prestamos h) (bibliotecas h).

(** The registered object [k] exists and has the id [id]. *)
Definition usuario_con_id (h : Heap) (id : Z) (k : loc) : bool :=
  match usuarios h !! k with
  | Some u => usr_id u =? id
  | None => false
  end.

Definition publicacion_con_id (h : Heap) (id : Z) (k : loc) : bool :=
  match publicaciones h !! k with
  | Some p => pub_id p =? id
  | None => false
  end.

(** A loan built with the constructor alone, on an available publication. *)
Definition ejemplo_prestamo_directo : Heap :=
  paso (CPrestamo 7 1%nat 3%nat 7 t0) ejemplo_catalogo.

(** The read-only attributes of an object are the same in two states of it. *)
Definition mismos_atributos_usuario (u u' : Usuario) : Prop :=
  usr_id u' = usr_id u ∧ usr_nombre u' = usr_nombre u ∧ usr_email u' = usr_email u.

Definition mismos_atributos_publicacion (p p' : Publicacion) : Prop :=
  pub_id p' = pub_id p ∧ pub_titulo p' = pub_titulo p ∧ pub_anio p' = pub_anio p ∧
  pub_clase p' = pub_clase p.

Definition mismos_atributos_prestamo (p p' : Prestamo) : Prop :=
  pre_id p' = pre_id p ∧ pre_usuario p' = pre_usuario p ∧
  pre_publicacion p' = pre_publicacion p ∧
  pre_fecha_prestamo p' = pre_fecha_prestamo p ∧
  pre_fecha_devolucion_esperada p' = pre_fecha_devolucion_esperada p.

(** *** Signs of doubles

    The sign of a double, read off its decoding [Prim2SF]: zeros of both
    signs, NaN and the infinities included. *)

(** A number that is not below zero (so not NaN). *)
Definition sf_no_negativo (x : spec_float) : bool :=
  match x with
  | S754_zero _ | S754_infinity false | S754_finite false _ _ => true
  | _ => false
  end.

(** Below zero. *)
Definition sf_negativo (x : spec_float) : bool :=
  match x with
  | S754_infinity true | S754_finite true _ _ => true
  | _ => false
  end.

(** Above zero. *)
Definition sf_positivo (x : spec_float) : bool :=
  match x with
  | S754_infinity false | S754_finite false _ _ => true
  | _ => false
  end.

(** ** Reasoning about computations *)

(** *** IEEE 754 doubles

    Facts about the binary64 operations, from their specification on
    [spec_float] ([FloatAxioms]). *)

Lemma Prim2SF_zero : Prim2SF 0%float = S754_zero false.
Proof. vm_compute. reflexivity. Qed.

Lemma Prim2SF_infinity : Prim2SF infinity = S754_infinity false.
Proof. vm_compute. reflexivity. Qed.

Lemma leb_zero x : (0 <=? x)%float = sf_no_negativo (Prim2SF x).
Proof. rewrite leb_spec, Prim2SF_zero. by destruct (Prim2SF x) as [[]|[]| |[] ? ?]. Qed.

Lemma ltb_zero x : (x <? 0)%float = sf_negativo (Prim2SF x).
Proof. rewrite ltb_spec, Prim2SF_zero. by destruct (Prim2SF x) as [[]|[]| |[] ? ?]. Qed.

Lemma zero_ltb x : (0 <? x)%float = sf_positivo (Prim2SF x).
Proof. rewrite ltb_spec, Prim2SF_zero. by destruct (Prim2SF x) as [[]|[]| |[] ? ?]. Qed.

Lemma SFcompare_refl x : SFcompare x x = None ∨ SFcompare x x = Some Eq.
Proof.
  destruct x as [s|s| |s m e]; simpl; auto.
  - destruct s; auto.
  - right. rewrite Z.compare_refl, Pos.compare_cont_refl. by destruct s.
Qed.

Lemma ltb_irrefl x : (x <? x)%float = false.
Proof.
  rewrite ltb_spec. unfold SFltb.
  by destruct (SFcompare_refl (Prim2SF x)) as [-> | ->].
Qed.

(** Shifting and rounding a mantissa that is not negative. *)
Lemma iter_pos_inv {A} (P : A → Prop) (f : A → A) :
  (∀ x, P x → P (f x)) → ∀ p x, P x → P (SpecFloat.iter_pos f p x).
Proof.
  intros Hf. induction p as [p IH|p IH|]; intros x Hx; simpl; auto.
Qed.

Lemma shr_1_no_negativo mrs : 0 ≤ shr_m mrs → 0 ≤ shr_m (shr_1 mrs).
Proof. destruct mrs as [[|[p|p|]|[p|p|]] r s]; simpl; lia. Qed.

Lemma shr_fexp_no_negativo m e l :
  0 ≤ m → 0 ≤ shr_m (shr_fexp prec emax m e l).1.
Proof.
  intros Hm. unfold shr_fexp, shr.
  assert (H0 : 0 ≤ shr_m (shr_record_of_loc m l)) by (by destruct l as [|[]]).
  destruct (fexp prec emax (Zdigits2 m + e) - e) as [|p|p]; simpl; try done.
  by apply iter_pos_inv; [apply shr_1_no_negativo|].
Qed.

Lemma round_nearest_even_no_negativo m l : 0 ≤ m → 0 ≤ round_nearest_even m l.
Proof. intros Hm. destruct l as [|[]]; simpl; try lia. destruct (Z.even m); lia. Qed.

Lemma binary_round_aux_no_negativo m e l :
  0 ≤ m → sf_no_negativo (binary_round_aux prec emax false m e l) = true.
Proof.
  intros Hm. unfold binary_round_aux.
  pose proof (shr_fexp_no_negativo m e l Hm) as H1.
  destruct (shr_fexp prec emax m e l) as [mrs' e'] eqn:E1. simpl in H1.
  pose proof (shr_fexp_no_negativo
    (round_nearest_even (shr_m mrs') (loc_of_shr_record mrs')) e' loc_Exact
    (round_nearest_even_no_negativo _ _ H1)) as H2.
  destruct (shr_fexp prec emax (round_nearest_even _ _) e' loc_Exact) as [mrs'' e''].
  simpl in H2. destruct (shr_m mrs'') as [|p|p]; [done| |lia].
  by destruct (e'' <=? emax - prec).
Qed.

Lemma binary_round_no_negativo m e :
  sf_no_negativo (binary_round prec emax false m e) = true.
Proof.
  unfold binary_round. destruct (shl_align _ _ _) as [mz ez].
  by apply binary_round_aux_no_negativo.
Qed.

Lemma binary_normalize_no_negativo m e :
  0 ≤ m → sf_no_negativo (binary_normalize prec emax m e false) = true.
Proof.
  intros Hm. destruct m as [|p|p]; simpl; [done| |lia].
  apply binary_round_no_negativo.
Qed.

(** Alignment of two canonical mantissas. *)
Lemma digits2_pos_bounds m :
  2 ^ (Z.pos (digits2_pos m) - 1) ≤ Z.pos m < 2 ^ Z.pos (digits2_pos m).
Proof.
  induction m as [p IH|p IH|]; simpl digits2_pos.
  - rewrite Pos2Z.inj_succ. replace (Z.succ (Z.pos (digits2_pos p)) - 1)
      with (Z.succ (Z.pos (digits2_pos p) - 1)) by lia.
    rewrite !Z.pow_succ_r by lia. lia.
  - rewrite Pos2Z.inj_succ. replace (Z.succ (Z.pos (digits2_pos p)) - 1)
      with (Z.succ (Z.pos (digits2_pos p) - 1)) by lia.
    rewrite !Z.pow_succ_r by lia. lia.
  - simpl. lia.
Qed.

Lemma iter_xO m d : Z.pos (Pos.iter xO m d) = Z.pos m * 2 ^ Z.pos d.
Proof.
  induction d as [|d IH] using Pos.peano_ind.
  - simpl. lia.
  - rewrite Pos.iter_succ, Pos2Z.inj_xO, IH, Pos2Z.inj_succ, Z.pow_succ_r by lia. lia.
Qed.

Lemma shl_align_fst m e ez :
  ez ≤ e → Z.pos (shl_align m e ez).1 = Z.pos m * 2 ^ (e - ez).
Proof.
  intros Hle. unfold shl_align. destruct (ez - e) as [|d|d] eqn:E; simpl.
  - replace (e - ez) with 0 by lia. lia.
  - lia.
  - rewrite iter_xO. f_equal. f_equal. lia.
Qed.

Lemma bounded_digits m e :
  bounded prec emax m e = true →
  -1074 ≤ e ∧ Z.pos (digits2_pos m) ≤ 53 ∧ (-1074 < e → Z.pos (digits2_pos m) = 53).
Proof.
  unfold bounded, canonical_mantissa, fexp, SpecFloat.emin, prec, emax.
  intros [H _]%andb_prop. apply Z.eqb_eq in H. lia.
Qed.

(** Of two canonical doubles above zero, the one that is not smaller has the
    larger aligned mantissa. *)
Lemma mantisas_alineadas mx ex my ey :
  bounded prec emax mx ex = true → bounded prec emax my ey = true →
  SFltb (S754_finite false mx ex) (S754_finite false my ey) = false →
  Z.pos (shl_align my ey (Z.min ex ey)).1 ≤ Z.pos (shl_align mx ex (Z.min ex ey)).1.
Proof.
  intros Hx Hy Hlt. unfold SFltb in Hlt. simpl in Hlt.
  destruct (bounded_digits _ _ Hx) as (Hex & Hdx & Hnx).
  destruct (bounded_digits _ _ Hy) as (Hey & Hdy & Hny).
  rewrite !shl_align_fst by lia.
  destruct (Z.compare_spec ex ey) as [->|Hc|Hc]; [|done|].
  - rewrite Z.min_id, Z.sub_diag. simpl.
    destruct (Pos.compare_cont Eq mx my) eqn:Ec; try done.
    + apply Pos.compare_eq in Ec. subst. lia.
    + change (Pos.compare_cont Eq mx my) with (Pos.compare mx my) in Ec.
      apply Pos.compare_gt_iff in Ec. lia.
  - rewrite Z.min_r by lia. rewrite Z.sub_diag.
    pose proof (digits2_pos_bounds mx) as [Hmx _].
    pose proof (digits2_pos_bounds my) as [_ Hmy].
    rewrite Hnx in Hmx by lia.
    assert (Z.pos my < 2 ^ 53).
    { eapply Z.lt_le_trans; [apply Hmy|]. apply Z.pow_le_mono_r; lia. }
    assert (2 ^ 1 ≤ 2 ^ (ex - ey)) by (apply Z.pow_le_mono_r; lia).
    change (2 ^ 1) with 2 in *. change (2 ^ (53 - 1)) with 4503599627370496 in Hmx.
    change (2 ^ 53) with 9007199254740992 in *. nia.
Qed.

(** *** Sums and differences that are not negative *)

Lemma SFadd_no_negativo x y :
  sf_no_negativo x = true → sf_no_negativo y = true →
  sf_no_negativo (SFadd prec emax x y) = true.
Proof.
  destruct x as [[]|[]| |[] mx ex], y as [[]|[]| |[] my ey]; try done.
  intros _ _. unfold SFadd. apply binary_normalize_no_negativo.
  unfold cond_Zopp. lia.
Qed.

Lemma SFadd_no_es_negativo x y :
  sf_negativo x = false → sf_negativo y = false →
  sf_negativo (SFadd prec emax x y) = false.
Proof.
  destruct x as [[]|[]| |[] mx ex], y as [[]|[]| |[] my ey]; try done.
  intros _ _. unfold SFadd.
  pose proof (binary_normalize_no_negativo
    (cond_Zopp false (Z.pos (shl_align mx ex (Z.min ex ey)).1) +
     cond_Zopp false (Z.pos (shl_align my ey (Z.min ex ey)).1)) (Z.min ex ey)) as H.
  destruct (binary_normalize _ _ _ _ _) as [[]|[]| |[] ? ?]; try done;
    discriminate H; unfold cond_Zopp; lia.
Qed.

Lemma sf_no_negativo_no_es_negativo x :
  sf_no_negativo x = true → sf_negativo x = false.
Proof. by destruct x as [[]|[]| |[] ? ?]. Qed.

Lemma SFsub_finitos mx ex my ey sy :
  valid_binary (S754_finite false mx ex) = true →
  valid_binary (S754_finite sy my ey) = true →
  SFltb (S754_finite false mx ex) (S754_finite sy my ey) = false →
  sf_no_negativo (SFsub prec emax (S754_finite false mx ex) (S754_finite sy my ey)) = true.
Proof.
  intros Hx Hy Hlt. unfold SFsub. apply binary_normalize_no_negativo.
  destruct sy; unfold cond_Zopp; [lia|].
  pose proof (mantisas_alineadas mx ex my ey Hx Hy Hlt). lia.
Qed.

Lemma SFsub_no_negativo x y :
  valid_binary x = true → valid_binary y = true →
  sf_no_negativo x = true → SFltb x y = false →
  SFltb y (S754_infinity false) = true →
  sf_no_negativo (SFsub prec emax x y) = true.
Proof.
  intros Hx Hy Hnn Hlt Hfin.
  destruct x as [sx|[]| |[] mx ex]; try done;
    destruct y as [sy|[]| |sy my ey]; try done.
  - by destruct sx, sy.
  - by destruct sy.
  - by apply SFsub_finitos.
Qed.

Lemma SFsub_no_es_negativo x y :
  valid_binary x = true → valid_binary y = true →
  sf_negativo x = false → SFltb x y = false →
  sf_negativo (SFsub prec emax x y) = false.
Proof.
  intros Hx Hy Hnn Hlt.
  destruct x as [sx|[]| |[] mx ex]; try done;
    destruct y as [sy|[]| |sy my ey]; try done.
  - by destruct sx, sy.
  - by destruct sy.
  - apply sf_no_negativo_no_es_negativo. by apply SFsub_finitos.
Qed.

Lemma SFmul_no_negativo x m e :
  sf_no_negativo x = true →
  sf_no_negativo (SFmul prec emax x (S754_finite false m e)) = true.
Proof.
  destruct x as [[]|[]| |[] mx ex]; try done.
  intros _. unfold SFmul. by apply binary_round_aux_no_negativo.
Qed.

Lemma SFldexp_no_negativo x e :
  sf_no_negativo x = true → sf_no_negativo (SFldexp prec emax x e) = true.
Proof.
  destruct x as [[]|[]| |[] mx ex]; try done.
  intros _. apply binary_round_no_negativo.
Qed.

Lemma SF2Prim_no_negativo y :
  sf_no_negativo y = true → sf_no_negativo (Prim2SF (SF2Prim y)) = true.
Proof.
  destruct y as [s|s| |s m e]; simpl sf_no_negativo; intros Hy.
  - destruct s; vm_compute; reflexivity.
  - destruct s; [discriminate Hy|vm_compute; reflexivity].
  - discriminate Hy.
  - destruct s; [discriminate Hy|]. unfold SF2Prim. rewrite Z_ldexp_spec, of_uint63_spec.
    apply SFldexp_no_negativo, binary_normalize_no_negativo.
    apply Uint63.to_Z_bounded.
Qed.

Lemma SFsub_diag x :
  SFsub prec emax x x = S754_zero false ∨ SFsub prec emax x x = S754_nan.
Proof.
  destruct x as [[]|[]| |s m e]; simpl; auto.
  left. by rewrite Z.sub_diag.
Qed.

(** *** The facts about doubles the lending operations rely on *)

Lemma float_of_Z_no_negativo d :
  0 ≤ d → (0 <=? float_of_Z d)%float = true.
Proof.
  intros Hd. rewrite leb_zero. unfold float_of_Z.
  by apply SF2Prim_no_negativo, binary_normalize_no_negativo.
Qed.

Lemma add_no_negativo a m :
  (0 <=? a)%float = true → (0 <=? m)%float = true → (0 <=? a + m)%float = true.
Proof. rewrite !leb_zero, add_spec. apply SFadd_no_negativo. Qed.

Lemma add_no_es_negativo a m :
  (a <? 0)%float = false → (m <? 0)%float = false → (a + m <? 0)%float = false.
Proof. rewrite !ltb_zero, add_spec. apply SFadd_no_es_negativo. Qed.

Lemma sub_no_negativo a m :
  (0 <=? a)%float = true → (a <? m)%float = false → (m <? infinity)%float = true →
  (0 <=? a - m)%float = true.
Proof.
  rewrite !leb_zero, !ltb_spec, sub_spec, Prim2SF_infinity.
  apply SFsub_no_negativo; apply Prim2SF_valid.
Qed.

Lemma sub_no_es_negativo a m :
  (a <? 0)%float = false → (a <? m)%float = false → (a - m <? 0)%float = false.
Proof.
  rewrite !ltb_zero, ltb_spec, sub_spec.
  apply SFsub_no_es_negativo; apply Prim2SF_valid.
Qed.

Lemma mul_no_negativo x r m e :
  Prim2SF r = S754_finite false m e →
  (0 <=? x)%float = true → (0 <=? x * r)%float = true.
Proof.
  intros Hr. rewrite !leb_zero, mul_spec, Hr. apply SFmul_no_negativo.
Qed.

Lemma sub_diag_no_positivo x : (0 <? x - x)%float = false.
Proof.
  rewrite zero_ltb, sub_spec. unfold SF64sub.
  by destruct (SFsub_diag (Prim2SF x)) as [-> | ->].
Qed.

Lemma sub_diag x :
  (0 <? x)%float = true → (x <? infinity)%float = true → (x - x)%float = 0%float.
Proof.
  rewrite zero_ltb, ltb_spec, Prim2SF_infinity. intros Hpos Hfin.
  apply Prim2SF_inj. rewrite sub_spec, Prim2SF_zero. unfold SF64sub.
  destruct (Prim2SF x) as [[]|[]| |s m e]; try done.
  simpl. by rewrite Z.sub_diag.
Qed.

Lemma ltb_negativo_no_negativo a m :
  (m <? 0)%float = true → (0 <=? a)%float = true → (a <? m)%float = false.
Proof.
  rewrite ltb_zero, leb_zero, ltb_spec.
  by destruct (Prim2SF a) as [[]|[]| |[] ? ?], (Prim2SF m) as [[]|[]| |[] ? ?].
Qed.

Lemma leb_no_ltb x : (0 <=? x)%float = true → (x <? 0)%float = false.
Proof. rewrite leb_zero, ltb_zero. apply sf_no_negativo_no_es_negativo. Qed.

(** *** Unfolding the monad *)

Ltac desplegar :=
  unfold descartar, mbind, M_bind, mret, M_ret, raise, lift_result,
    get_publicacion, put_publicacion, get_usuario, put_usuario,
    get_prestamo, put_prestamo, get_biblioteca, put_biblioteca,
    alloc_publicacion, alloc_usuario, alloc_prestamo, alloc_biblioteca in *;
  simpl in *.

(** *** Lookups in a catalog *)

Lemma buscar_usuario_en_puro ls id h :
  (buscar_usuario_en ls id h).1 = h.
Proof.
  induction ls as [|l ls IH]; simpl; [done|].
  desplegar. destruct (usuarios h !! l) as [u|]; simpl; [|done].
  destruct (usr_id u =? id); simpl; done.
Qed.

Lemma buscar_publicacion_en_puro ls id h :
  (buscar_publicacion_en ls id h).1 = h.
Proof.
  induction ls as [|l ls IH]; simpl; [done|].
  desplegar. destruct (publicaciones h !! l) as [u|]; simpl; [|done].
  destruct (pub_id u =? id); simpl; done.
Qed.

Lemma buscar_usuario_en_Some ls id h l :
  (buscar_usuario_en ls id h).2 = inr (Some l) →
  l ∈ ls ∧ ∃ u, usuarios h !! l = Some u ∧ usr_id u = id.
Proof.
  induction ls as [|l0 ls IH]; simpl; [done|].
  desplegar. destruct (usuarios h !! l0) as [u|] eqn:E; simpl; [|done].
  destruct (usr_id u =? id) eqn:Eid; simpl.
  - intros [= <-]. split; [left|]. exists u. split; [done|]. by apply Z.eqb_eq.
  - intros H. destruct (IH H) as [Hin Hu]. split; [by right|done].
Qed.

Lemma buscar_publicacion_en_Some ls id h l :
  (buscar_publicacion_en ls id h).2 = inr (Some l) →
  l ∈ ls ∧ ∃ p, publicaciones h !! l = Some p ∧ pub_id p = id.
Proof.
  induction ls as [|l0 ls IH]; simpl; [done|].
  desplegar. destruct (publicaciones h !! l0) as [u|] eqn:E; simpl; [|done].
  destruct (pub_id u =? id) eqn:Eid; simpl.
  - intros [= <-]. split; [left|]. exists u. split; [done|]. by apply Z.eqb_eq.
  - intros H. destruct (IH H) as [Hin Hu]. split; [by right|done].
Qed.

Lemma buscar_usuario_en_error ls id h e :
  (buscar_usuario_en ls id h).2 = inl e → e = InvalidRef.
Proof.
  induction ls as [|l0 ls IH]; simpl; [done|].
  desplegar. destruct (usuarios h !! l0) as [u|] eqn:E; simpl; [|congruence].
  destruct (usr_id u =? id); simpl; [done|exact IH].
Qed.

Lemma buscar_publicacion_en_error ls id h e :
  (buscar_publicacion_en ls id h).2 = inl e → e = InvalidRef.
Proof.
  induction ls as [|l0 ls IH]; simpl; [done|].
  desplegar. destruct (publicaciones h !! l0) as [u|] eqn:E; simpl; [|congruence].
  destruct (pub_id u =? id); simpl; [done|exact IH].
Qed.

Lemma crear_prestamo_resultado self uid pid now h :
  resultado_crear self uid pid now h
    (crear_prestamo self uid pid now h).1 (crear_prestamo self uid pid now h).2.
Proof.
  unfold crear_prestamo, buscar_usuario, buscar_publicacion, puede_pedir_prestamo,
    marcar_prestado, agregar_prestamo, new_Prestamo.
  desplegar.
  destruct (bibliotecas h !! self) as [b|] eqn:Eb; simpl;
    [|by apply rc_fallo, cf_sin_biblioteca].
  pose proof (buscar_usuario_en_puro (bib_usuarios b) uid h) as Hpu.
  pose proof (buscar_usuario_en_Some (bib_usuarios b) uid h) as Hsu.
  pose proof (buscar_usuario_en_error (bib_usuarios b) uid h) as Heu.
  destruct (buscar_usuario_en (bib_usuarios b) uid h) as [hu [e|[usuario|]]] eqn:Ebu;
    simpl in *; subst hu.
  { rewrite (Heu e eq_refl) in *. apply rc_fallo, (cf_ref_usuario _ _ _ _ _ b); [done|].
    by rewrite Ebu. }
  2:{ apply rc_fallo, (cf_usuario_ausente _ _ _ _ _ b); [done|]. by rewrite Ebu. }
  destruct (Hsu usuario eq_refl) as (_ & u & Hu & _).
  rewrite Eb; simpl.
  pose proof (buscar_publicacion_en_puro (bib_publicaciones b) pid h) as Hpp.
  pose proof (buscar_publicacion_en_Some (bib_publicaciones b) pid h) as Hsp.
  pose proof (buscar_publicacion_en_error (bib_publicaciones b) pid h) as Hep.
  destruct (buscar_publicacion_en (bib_publicaciones b) pid h)
    as [hp [e|[publicacion|]]] eqn:Ebp;
    simpl in *; subst hp.
  { rewrite (Hep e eq_refl) in *. apply rc_fallo, (cf_ref_publicacion _ _ _ _ _ b); [done|].
    by rewrite Ebp. }
  2:{ apply rc_fallo, (cf_publicacion_ausente _ _ _ _ _ b); [done|]. by rewrite Ebp. }
  destruct (Hsp publicacion eq_refl) as (_ & pub & Hpub & _).
  rewrite Hu; simpl.
  destruct (puede_pedir_prestamo_obj u) eqn:Hpuede; simpl.
  2:{ apply rc_fallo, (cf_no_puede _ _ _ _ _ b usuario u); try done. by rewrite Ebu. }
  rewrite Hpub; simpl.
  destruct (pub_disponible pub) eqn:Hdisp; simpl.
  2:{ apply rc_fallo, (cf_no_disponible _ _ _ _ _ b publicacion pub); try done.
      by rewrite Ebp. }
  rewrite Eb; simpl.
  unfold timedelta_days, datetime_add. simpl.
  destruct ((now + dias_prestamo_por_defecto * us_per_day <? 0)
            || (datetime_max <? now + dias_prestamo_por_defecto * us_per_day)) eqn:Hov;
    simpl.
  { apply rc_fallo, cf_desborde. intros [H1 H2].
    apply orb_true_iff in Hov as [Hov|Hov]; apply Z.ltb_lt in Hov; lia. }
  rewrite Hpub; simpl. unfold marcar_prestado_obj. rewrite Hdisp; simpl.
  rewrite Hu; simpl. rewrite lookup_insert_eq; simpl.
  rewrite insert_insert_eq.
  apply orb_false_iff in Hov as [H1 H2].
  apply Z.ltb_ge in H1, H2.
  apply (rc_exito self uid pid now h b usuario u publicacion pub); auto.
  - by rewrite Ebu.
  - by rewrite Ebp.
Qed.

Lemma causa_fallo_no_ya_prestada self uid pid now h e :
  causa_fallo_crear self uid pid now h e → e ≠ ValueError msg_ya_prestada.
Proof. by destruct 1. Qed.

(** *** Returning a loan *)

Lemma devolver_exito l now h h' :
  devolver l now h = (h', inr tt) →
  ∃ p pub u,
    prestamos h !! l = Some p ∧ pre_fecha_devolucion_real p = None ∧
    publicaciones h !! pre_publicacion p = Some pub ∧ pub_disponible pub = false ∧
    usuarios h !! pre_usuario p = Some u ∧
    h' = heap_tras_devolver h l p pub u now.
Proof.
  unfold devolver, agregar_penalizacion, marcar_devuelto, remover_prestamo,
    marcar_devuelto_obj, heap_tras_devolver.
  desplegar.
  destruct (prestamos h !! l) as [p|] eqn:Ep; simpl; [|done].
  destruct (pre_fecha_devolucion_real p) eqn:Er; simpl; [done|].
  destruct (pre_fecha_devolucion_esperada p <? now) eqn:Et; simpl.
  - destruct (publicaciones h !! pre_publicacion p) as [pub|] eqn:Epub; simpl; [|done].
    rewrite lookup_insert_eq; simpl.
    destruct (usuarios h !! pre_usuario p) as [u|] eqn:Eu; simpl; [|done].
    rewrite Epub; simpl.
    destruct (pub_disponible pub) eqn:Ed; simpl; [done|].
    rewrite lookup_insert_eq; simpl.
    intros [= <-]. exists p, pub, u. repeat split; try done.
    by rewrite Et, !insert_insert_eq.
  - destruct (publicaciones h !! pre_publicacion p) as [pub|] eqn:Epub; simpl; [|done].
    destruct (pub_disponible pub) eqn:Ed; simpl; [done|].
    destruct (usuarios h !! pre_usuario p) as [u|] eqn:Eu; simpl; [|done].
    intros [= <-]. exists p, pub, u. by rewrite Et.
Qed.

Lemma dias_entre_no_negativo (a b : Z) : b < a → 0 ≤ dias_entre a b.
Proof. intros H. unfold dias_entre, us_per_day. apply Z.div_pos; lia. Qed.

Lemma set_penalizacion_misma p : set_penalizacion (pre_penalizacion p) p = p.
Proof. by destruct p. Qed.

Lemma set_usuario_mismo u :
  set_prestamos_activos (usr_prestamos_activos u)
    (set_penalizacion_acumulada (usr_penalizacion_acumulada u) u) = u.
Proof. by destruct u. Qed.


Lemma devolver_ya_devuelto l now h p t :
  prestamos h !! l = Some p → pre_fecha_devolucion_real p = Some t →
  devolver l now h = (h, inl (ValueError msg_ya_devuelto)).
Proof.
  intros Hp Hr. unfold devolver. desplegar. rewrite Hp; simpl. by rewrite Hr.
Qed.

(** What [devolver] does to the store in every outcome. *)
Lemma devolver_efecto l now h :
  let h' := (devolver l now h).1 in
  bibliotecas h' = bibliotecas h ∧
  (prestamos h' = prestamos h ∨
   ∃ p q, prestamos h !! l = Some p ∧ pre_fecha_devolucion_real p = None ∧
     (q = pre_penalizacion p ∨
      ∃ pub, pre_fecha_devolucion_esperada p < now ∧
        q = calcular_penalizacion_retraso pub
              (dias_entre now (pre_fecha_devolucion_esperada p))) ∧
     prestamos h' =
       <[l := set_penalizacion q (set_fecha_devolucion_real (Some now) p)]> (prestamos h)) ∧
  (publicaciones h' = publicaciones h ∨
   ∃ k pub, publicaciones h !! k = Some pub ∧
     publicaciones h' = <[k := set_disponible true pub]> (publicaciones h)) ∧
  (usuarios h' = usuarios h ∨
   ∃ k u ls q, usuarios h !! k = Some u ∧
     (ls = usr_prestamos_activos u ∨ ls = list_remove l (usr_prestamos_activos u)) ∧
     (q = usr_penalizacion_acumulada u ∨
      ∃ pub d, 0 ≤ d ∧
        q = (usr_penalizacion_acumulada u + calcular_penalizacion_retraso pub d)%float) ∧
     usuarios h' = <[k := set_prestamos_activos ls (set_penalizacion_acumulada q u)]>
                     (usuarios h)).
Proof.
  unfold devolver, agregar_penalizacion, marcar_devuelto, remover_prestamo,
    marcar_devuelto_obj.
  desplegar.
  destruct (prestamos h !! l) as [p|] eqn:Ep; simpl; [|by auto].
  destruct (pre_fecha_devolucion_real p) eqn:Er; simpl; [by auto|].
  assert (Hp1 : ∀ m, m = <[l := set_fecha_devolucion_real (Some now) p]> (prestamos h) →
    m = prestamos h ∨
    ∃ p0 q, Some p = Some p0 ∧ pre_fecha_devolucion_real p0 = None ∧
      (q = pre_penalizacion p0 ∨
       ∃ pub, pre_fecha_devolucion_esperada p0 < now ∧
         q = calcular_penalizacion_retraso pub
               (dias_entre now (pre_fecha_devolucion_esperada p0))) ∧
      m = <[l := set_penalizacion q (set_fecha_devolucion_real (Some now) p0)]>
            (prestamos h)).
  { intros m ->. right. exists p, (pre_penalizacion p). repeat split; auto. }
  destruct (pre_fecha_devolucion_esperada p <? now) eqn:Et; simpl.
  - apply Z.ltb_lt in Et.
    assert (Hp2 : ∀ pub m,
      m = <[l := set_penalizacion
                   (calcular_penalizacion_retraso pub
                      (dias_entre now (pre_fecha_devolucion_esperada p)))
                   (set_fecha_devolucion_real (Some now) p)]> (prestamos h) →
      m = prestamos h ∨
      ∃ p0 q, Some p = Some p0 ∧ pre_fecha_devolucion_real p0 = None ∧
        (q = pre_penalizacion p0 ∨
         ∃ pub, pre_fecha_devolucion_esperada p0 < now ∧
           q = calcular_penalizacion_retraso pub
                 (dias_entre now (pre_fecha_devolucion_esperada p0))) ∧
        m = <[l := set_penalizacion q (set_fecha_devolucion_real (Some now) p0)]>
              (prestamos h)).
    { intros pub m ->. right. eexists p, _. repeat split; eauto. }
    destruct (publicaciones h !! pre_publicacion p) as [pub|] eqn:Epub; simpl;
      [|split; [done|]; split; [by apply Hp1|]; split; by left].
    rewrite lookup_insert_eq; simpl. rewrite insert_insert_eq.
    destruct (usuarios h !! pre_usuario p) as [u|] eqn:Eu; simpl;
      [|split; [done|]; split; [by eapply Hp2|]; split; by left].
    rewrite Epub; simpl.
    assert (Hu1 : ∀ ls, ls = usr_prestamos_activos u ∨
                        ls = list_remove l (usr_prestamos_activos u) →
      ∃ k u0 ls0 q, usuarios h !! k = Some u0 ∧
        (ls0 = usr_prestamos_activos u0 ∨ ls0 = list_remove l (usr_prestamos_activos u0)) ∧
        (q = usr_penalizacion_acumulada u0 ∨
         ∃ pub d, 0 ≤ d ∧
           q = (usr_penalizacion_acumulada u0 + calcular_penalizacion_retraso pub d)%float) ∧
        <[pre_usuario p :=
            set_prestamos_activos ls
              (agregar_penalizacion_obj
                 (calcular_penalizacion_retraso pub
                    (dias_entre now (pre_fecha_devolucion_esperada p))) u)]> (usuarios h) =
        <[k := set_prestamos_activos ls0 (set_penalizacion_acumulada q u0)]> (usuarios h)).
    { intros ls Hls. eexists (pre_usuario p), u, ls, _. split; [done|]. split; [done|].
      split; [|done]. right. eexists pub, _. split; [|done].
      by apply dias_entre_no_negativo. }
    destruct (pub_disponible pub) eqn:Ed; simpl.
    + split; [done|]. split; [by eapply Hp2|]. split; [by left|]. right.
      destruct (Hu1 (usr_prestamos_activos u)) as (k & u0 & ls0 & q & Hq); [by left|].
      exists k, u0, ls0, q. by destruct u.
    + rewrite lookup_insert_eq; simpl. rewrite insert_insert_eq.
      split; [done|]. split; [by eapply Hp2|].
      split; [right; by exists (pre_publicacion p), pub|]. right.
      unfold remover_prestamo_obj; simpl. case_bool_decide.
      * apply Hu1. by right.
      * destruct (Hu1 (usr_prestamos_activos u)) as (k & u0 & ls0 & q & Hq); [by left|].
        exists k, u0, ls0, q. by destruct u.
  - destruct (publicaciones h !! pre_publicacion p) as [pub|] eqn:Epub; simpl;
      [|split; [done|]; split; [by apply Hp1|]; split; by left].
    destruct (pub_disponible pub) eqn:Ed; simpl;
      [split; [done|]; split; [by apply Hp1|]; split; by left|].
    assert (Hpub : publicaciones h = publicaciones h ∨
      ∃ k pub0, publicaciones h !! k = Some pub0 ∧
        <[pre_publicacion p := set_disponible true pub]> (publicaciones h) =
        <[k := set_disponible true pub0]> (publicaciones h)).
    { right. by exists (pre_publicacion p), pub. }
    destruct (usuarios h !! pre_usuario p) as [u|] eqn:Eu; simpl.
    2:{ split; [done|]. split; [by apply Hp1|].
        split; [right; by exists (pre_publicacion p), pub|by left]. }
    split; [done|]. split; [by apply Hp1|].
    split; [right; by exists (pre_publicacion p), pub|]. right.
    exists (pre_usuario p), u.
    unfold remover_prestamo_obj; simpl. case_bool_decide.
    + eexists _, _. split; [done|]. split; [by right|]. split; [by left|].
      by destruct u.
    + eexists _, _. split; [done|]. split; [by left|]. split; [by left|].
      by rewrite set_usuario_mismo.
Qed.

(** *** Creating a loan: consequences *)

Lemma bind_inr {A B : Type} (m : M A) (f : A → M B) h h' a :
  m h = (h', inr a) → (m ≫= f) h = f a h'.
Proof. intros H. unfold mbind, M_bind. by rewrite H. Qed.

Lemma bind_inl {A B : Type} (m : M A) (f : A → M B) h h' e :
  m h = (h', inl e) → (m ≫= f) h = (h', inl e).
Proof. intros H. unfold mbind, M_bind. by rewrite H. Qed.

Lemma get_publicacion_Some l p h :
  publicaciones h !! l = Some p → get_publicacion l h = (h, inr p).
Proof. intros H. unfold get_publicacion. by rewrite H. Qed.

Lemma get_usuario_Some l u h :
  usuarios h !! l = Some u → get_usuario l h = (h, inr u).
Proof. intros H. unfold get_usuario. by rewrite H. Qed.

Lemma puede_pedir_prestamo_Some l u h :
  usuarios h !! l = Some u →
  puede_pedir_prestamo l h = (h, inr (puede_pedir_prestamo_obj u)).
Proof.
  intros H. unfold puede_pedir_prestamo.
  by rewrite (bind_inr _ _ _ _ _ (get_usuario_Some _ _ _ H)).
Qed.

Lemma crear_prestamo_no_puede self uid pid now h usuario publicacion :
  buscar_usuario self uid h = (h, inr (Some usuario)) →
  buscar_publicacion self pid h = (h, inr (Some publicacion)) →
  puede_pedir_prestamo usuario h = (h, inr false) →
  crear_prestamo self uid pid now h = (h, inl (ValueError msg_no_puede_pedir)).
Proof.
  intros Hu Hp Hno. unfold crear_prestamo.
  rewrite (bind_inr _ _ _ _ _ Hu), (bind_inr _ _ _ _ _ Hp), (bind_inr _ _ _ _ _ Hno).
  done.
Qed.

(** Claim C2.  Whenever one of the four checks of [crear_prestamo] fails
    (user absent, publication absent, user not allowed to borrow,
    publication not available), the call raises the exception of that check
    and the store it leaves is the store it found: the catalog's lists and
    its loan-id counter, every user's active loans and penalty and every
    publication's availability are unchanged. *)
Theorem crear_prestamo_aborta_sin_mutar self uid pid now h e :
  verificacion_fallida self uid pid h e →
  crear_prestamo self uid pid now h = (h, inl e).
Proof.
  intros [Hu|usuario Hu Hp|usuario publicacion Hu Hp Hno
         |usuario publicacion pub Hu Hp Hsi Hpub Hd].
  - unfold crear_prestamo. by rewrite (bind_inr _ _ _ _ _ Hu).
  - unfold crear_prestamo.
    by rewrite (bind_inr _ _ _ _ _ Hu), (bind_inr _ _ _ _ _ Hp).
  - by eapply crear_prestamo_no_puede.
  - unfold crear_prestamo.
    rewrite (bind_inr _ _ _ _ _ Hu), (bind_inr _ _ _ _ _ Hp), (bind_inr _ _ _ _ _ Hsi).
    simpl. rewrite (bind_inr _ _ _ _ _ (get_publicacion_Some _ _ _ Hpub)).
    by rewrite Hd.
Qed.

Lemma crear_prestamo_excepcion self uid pid now h h' e :
  crear_prestamo self uid pid now h = (h', inl e) → h' = h.
Proof.
  intros H. pose proof (crear_prestamo_resultado self uid pid now h) as Hr.
  rewrite H in Hr. simpl in Hr. by inversion Hr.
Qed.

(** Claim C4.  For every publication of the store: [marcar_prestado] raises
    "ya está prestada" when the publication is not available and
    [marcar_devuelto] raises "no está prestada" when it is available, both
    leaving the store as it was.  Otherwise the call returns, and in the
    store it leaves the publication has the opposite availability ([false]
    after [marcar_prestado], [true] after [marcar_devuelto]) and the id,
    title, year and subclass data it had; every other publication and all
    users, loans and catalogs are as they were. *)
Theorem disponibilidad_alterna (h : Heap) (l : loc) (p : Publicacion) :
  publicaciones h !! l = Some p →
  (pub_disponible p = false →
     marcar_prestado l h = (h, inl (ValueError msg_ya_prestada))) ∧
  (pub_disponible p = true →
     ∃ h' p', marcar_prestado l h = (h', inr tt) ∧
       publicaciones h' !! l = Some p' ∧
       pub_disponible p' = false ∧
       pub_id p' = pub_id p ∧ pub_titulo p' = pub_titulo p ∧
       pub_anio p' = pub_anio p ∧ pub_clase p' = pub_clase p ∧
       (∀ k, k ≠ l → publicaciones h' !! k = publicaciones h !! k) ∧
       usuarios h' = usuarios h ∧ prestamos h' = prestamos h ∧
       bibliotecas h' = bibliotecas h) ∧
  (pub_disponible p = true →
     marcar_devuelto l h = (h, inl (ValueError msg_no_prestada))) ∧
  (pub_disponible p = false →
     ∃ h' p', marcar_devuelto l h = (h', inr tt) ∧
       publicaciones h' !! l = Some p' ∧
       pub_disponible p' = true ∧
       pub_id p' = pub_id p ∧ pub_titulo p' = pub_titulo p ∧
       pub_anio p' = pub_anio p ∧ pub_clase p' = pub_clase p ∧
       (∀ k, k ≠ l → publicaciones h' !! k = publicaciones h !! k) ∧
       usuarios h' = usuarios h ∧ prestamos h' = prestamos h ∧
       bibliotecas h' = bibliotecas h).
Proof.
  intros Hp. unfold marcar_prestado, marcar_devuelto.
  rewrite !(bind_inr _ _ _ _ _ (get_publicacion_Some _ _ _ Hp)).
  unfold marcar_prestado_obj, marcar_devuelto_obj.
  split; [by intros ->|]. split; [|split; [by intros ->|]].
  - intros Hd. rewrite Hd. simpl. eexists _, _. split; [reflexivity|]. simpl.
    split; [apply lookup_insert_eq|]. simpl. repeat split; try done.
    intros k Hk. by apply lookup_insert_ne.
  - intros Hd. rewrite Hd. simpl. eexists _, _. split; [reflexivity|]. simpl.
    split; [apply lookup_insert_eq|]. simpl. repeat split; try done.
    intros k Hk. by apply lookup_insert_ne.
Qed.

Lemma disponibilidad_alterna_witness :
  (∃ h' p', marcar_prestado 0%nat ejemplo_catalogo = (h', inr tt) ∧
     publicaciones h' !! 0%nat = Some p' ∧
     pub_disponible p' = false ∧
     pub_id p' = 1 ∧ pub_titulo p' = "Python Crash Course" ∧
     pub_anio p' = 2019 ∧ pub_clase p' = Libro "Eric Matthes" "123" ∧
     (∀ k, k ≠ 0%nat →
        publicaciones h' !! k = publicaciones ejemplo_catalogo !! k) ∧
     usuarios h' = usuarios ejemplo_catalogo ∧
     prestamos h' = prestamos ejemplo_catalogo ∧
     bibliotecas h' = bibliotecas ejemplo_catalogo) ∧
  marcar_devuelto 0%nat ejemplo_catalogo = (ejemplo_catalogo, inl (ValueError msg_no_prestada)).
Proof.
  destruct (disponibilidad_alterna ejemplo_catalogo 0%nat
              (mkPublicacion 1 "Python Crash Course" 2019 true (Libro "Eric Matthes" "123")))
    as (_ & H2 & H3 & _); [vm_compute; reflexivity|].
  split; [exact (H2 eq_refl)|exact (H3 eq_refl)].
Defined.

Lemma puede_pedir_prestamo_obj_true u :
  puede_pedir_prestamo_obj u = true ↔
  (length (usr_prestamos_activos u) < 3)%nat ∧
  (0 <? usr_penalizacion_acumulada u)%float = false.
Proof.
  unfold puede_pedir_prestamo_obj.
  destruct (3 <=? Z.of_nat (length (usr_prestamos_activos u))) eqn:E.
  - apply Z.leb_le in E. split; [done|]. intros [H _]. lia.
  - apply Z.leb_gt in E.
    destruct (0 <? usr_penalizacion_acumulada u)%float eqn:Eq.
    + split; [done|]. by intros [_ H].
    + split; [|done]. intros _. split; [lia|done].
Qed.

Lemma buscar_usuario_desplegado self uid h b :
  bibliotecas h !! self = Some b →
  buscar_usuario self uid h = buscar_usuario_en (bib_usuarios b) uid h.
Proof. intros H. unfold buscar_usuario. desplegar. by rewrite H. Qed.

Lemma buscar_usuario_biblioteca self uid h h' r :
  buscar_usuario self uid h = (h', inr r) → is_Some (bibliotecas h !! self).
Proof.
  unfold buscar_usuario. desplegar.
  destruct (bibliotecas h !! self); [by eauto|done].
Qed.

Lemma crear_prestamo_exito_inv self uid pid now h h' l :
  crear_prestamo self uid pid now h = (h', inr l) →
  ∃ b usuario u publicacion pub,
    bibliotecas h !! self = Some b ∧
    buscar_usuario self uid h = (h, inr (Some usuario)) ∧
    usuarios h !! usuario = Some u ∧
    publicaciones h !! publicacion = Some pub ∧
    puede_pedir_prestamo_obj u = true ∧
    pub_disponible pub = true ∧
    l = fresh (dom (prestamos h)) ∧
    h' = heap_tras_crear h self b usuario u publicacion pub now.
Proof.
  intros H. pose proof (crear_prestamo_resultado self uid pid now h) as Hr.
  rewrite H in Hr. simpl in Hr.
  inversion Hr as [b usuario u publicacion pub Hb Hbu Hu Hbp Hpub Hpuede Hd Hrango|];
    subst.
  exists b, usuario, u, publicacion, pub. repeat split; try done.
  rewrite (buscar_usuario_desplegado _ _ _ _ Hb).
  pose proof (buscar_usuario_en_puro (bib_usuarios b) uid h) as Hpuro.
  destruct (buscar_usuario_en (bib_usuarios b) uid h) as [h0 r0]; simpl in *.
  by subst.
Qed.

(** Claim C5, as amended.  For every user of the store:
    [puede_pedir_prestamo] leaves the store as it is and answers true
    exactly when the user has fewer than 3 active loans and the accumulated
    penalty is not greater than 0 (the source tests [> 0], so a balance
    below zero does not block borrowing); and when the penalty is greater
    than 0 every [crear_prestamo] for that user raises and leaves the store
    unchanged, whatever the number of loans. *)
Theorem puede_pedir_prestamo_sii (h : Heap) (l : loc) (u : Usuario) :
  usuarios h !! l = Some u →
  puede_pedir_prestamo l h = (h, inr (puede_pedir_prestamo_obj u)) ∧
  (puede_pedir_prestamo_obj u = true ↔
     (length (usr_prestamos_activos u) < 3)%nat ∧
     (0 <? usr_penalizacion_acumulada u)%float = false) ∧
  ((0 <? usr_penalizacion_acumulada u)%float = true →
     ∀ self uid pid now,
       buscar_usuario self uid h = (h, inr (Some l)) →
       ∃ e, crear_prestamo self uid pid now h = (h, inl e)).
Proof.
  intros Hu. split; [by apply puede_pedir_prestamo_Some|]. split.
  - apply puede_pedir_prestamo_obj_true.
  - intros Hdebe self uid pid now Hbu.
    destruct (crear_prestamo self uid pid now h) as [h' [e|prestamo]] eqn:Hc.
    + exists e. by rewrite (crear_prestamo_excepcion _ _ _ _ _ _ _ Hc).
    + apply crear_prestamo_exito_inv in Hc
        as (b & usuario & u' & publicacion & pub & _ & Hbu' & Hu' & _ & Hpuede & _).
      rewrite Hbu in Hbu'. injection Hbu' as <-.
      rewrite Hu in Hu'. injection Hu' as <-.
      apply puede_pedir_prestamo_obj_true in Hpuede as [_ Hno]. congruence.
Qed.

Lemma puede_pedir_prestamo_sii_witness :
  ∃ u, usuarios ejemplo_penalizado !! 1%nat = Some u ∧
    puede_pedir_prestamo 1%nat ejemplo_penalizado = (ejemplo_penalizado, inr false) ∧
    (length (usr_prestamos_activos u) < 3)%nat ∧
    (0 <? usr_penalizacion_acumulada u)%float = true ∧
    ∃ e, crear_prestamo 0%nat 2 1 t0 ejemplo_penalizado = (ejemplo_penalizado, inl e).
Proof.
  eexists. split; [vm_compute; reflexivity|].
  match goal with |- context [usr_prestamos_activos ?u] =>
    destruct (puede_pedir_prestamo_sii ejemplo_penalizado 1%nat u) as (H1 & _ & H3)
  end.
  - vm_compute; reflexivity.
  - split; [exact H1|]. split; [vm_compute; lia|]. split; [vm_compute; reflexivity|].
    apply H3; vm_compute; reflexivity.
Defined.

Lemma new_Prestamo_inv id usuario publicacion dias now h h' l :
  new_Prestamo id usuario publicacion dias now h = (h', inr l) →
  Z.abs dias ≤ timedelta_max_days ∧
  0 ≤ now + dias * us_per_day ≤ datetime_max ∧
  l = fresh (dom (prestamos h)) ∧
  h' = mkHeap (publicaciones h) (usuarios h)
         (<[l := mkPrestamo id usuario publicacion now (now + dias * us_per_day)
                   None 0.0%float]> (prestamos h))
         (bibliotecas h).
Proof.
  unfold new_Prestamo, timedelta_days, datetime_add. desplegar.
  destruct (timedelta_max_days <? Z.abs dias) eqn:E1; simpl; [done|].
  destruct ((now + dias * us_per_day <? 0) || (datetime_max <? now + dias * us_per_day))
    eqn:E2; simpl; [done|].
  intros [= <- <-]. apply Z.ltb_ge in E1.
  apply orb_false_iff in E2 as [E2 E3]. apply Z.ltb_ge in E2, E3. done.
Qed.

(** Claim C10.  [crear_prestamo] never raises the exception of
    [marcar_prestado] ("ya está prestada"): once the availability check has
    passed, the construction of the loan and the update of the counter leave
    the publication available, so the call of [marcar_prestado] that follows
    returns normally. *)
Theorem marcar_prestado_en_crear_no_falla (self : loc) (uid pid : Z) (now : datetime)
    (h : Heap) :
  (crear_prestamo self uid pid now h).2 ≠ inl (ValueError msg_ya_prestada) ∧
  ∀ b b' usuario publicacion pub h1 prestamo,
    publicaciones h !! publicacion = Some pub →
    pub_disponible pub = true →
    new_Prestamo (bib_next_prestamo_id b) usuario publicacion
      dias_prestamo_por_defecto now h = (h1, inr prestamo) →
    marcar_prestado publicacion (put_biblioteca self b' h1).1 =
      (con_publicacion publicacion (set_disponible false pub)
         (put_biblioteca self b' h1).1, inr tt).
Proof.
  split.
  - pose proof (crear_prestamo_resultado self uid pid now h) as Hr.
    inversion Hr as [| e Hcausa Hh He]; [congruence|].
    apply causa_fallo_no_ya_prestada in Hcausa. congruence.
  - intros b b' usuario publicacion pub h1 prestamo Hpub Hd Hnew.
    apply new_Prestamo_inv in Hnew as (_ & _ & _ & ->).
    unfold marcar_prestado, marcar_prestado_obj. desplegar.
    rewrite Hpub; simpl. by rewrite Hd.
Qed.

Lemma marcar_prestado_en_crear_no_falla_witness :
  marcar_prestado 1%nat
    (put_biblioteca 0%nat (mkBiblioteca [0%nat; 1%nat; 2%nat; 3%nat] [0%nat; 1%nat] [0%nat] 3)
       (new_Prestamo 2 0%nat 1%nat dias_prestamo_por_defecto t0 ejemplo_prestado).1).1 =
  (con_publicacion 1%nat
     (set_disponible false (mkPublicacion 2 "Clean Code" 2008 true (Libro "Robert Martin" "456")))
     (put_biblioteca 0%nat (mkBiblioteca [0%nat; 1%nat; 2%nat; 3%nat] [0%nat; 1%nat] [0%nat] 3)
        (new_Prestamo 2 0%nat 1%nat dias_prestamo_por_defecto t0 ejemplo_prestado).1).1,
   inr tt).
Proof.
  apply (proj2 (marcar_prestado_en_crear_no_falla 0%nat 1 2 t0 ejemplo_prestado)
           (mkBiblioteca [0%nat; 1%nat; 2%nat; 3%nat] [0%nat; 1%nat] [0%nat] 2)
           _ 0%nat 1%nat _ _ 1%nat); vm_compute; reflexivity.
Defined.

Lemma crear_prestamo_aborta_sin_mutar_witness :
  crear_prestamo 0%nat 2 1 t0 ejemplo_prestado =
    (ejemplo_prestado, inl (ValueError msg_no_disponible)).
Proof.
  apply crear_prestamo_aborta_sin_mutar.
  apply (vf_publicacion_no_disponible _ _ _ _ 1%nat 0%nat
           (mkPublicacion 1 "Python Crash Course" 2019 false (Libro "Eric Matthes" "123")));
    vm_compute; reflexivity.
Defined.

(** Claim C8, as amended.  [crear_prestamo] takes no loan period: the loan of
    every successful call is borrowed at the clock reading of the call and
    is due exactly 7 days later, the default of the [Prestamo] constructor. *)
Theorem crear_prestamo_periodo_por_defecto (self : loc) (uid pid : Z) (now : datetime)
    (h h' : Heap) (l : loc) :
  crear_prestamo self uid pid now h = (h', inr l) →
  ∃ p, prestamos h' !! l = Some p ∧
    pre_fecha_prestamo p = now ∧
    pre_fecha_devolucion_esperada p = pre_fecha_prestamo p + 7 * us_per_day.
Proof.
  intros H. apply crear_prestamo_exito_inv in H
    as (b & usuario & u & publicacion & pub & _ & _ & _ & _ & _ & _ & -> & ->).
  eexists. split; [apply lookup_insert_eq|]. done.
Qed.

Lemma crear_prestamo_periodo_por_defecto_witness :
  ∃ p, prestamos ejemplo_prestado !! 0%nat = Some p ∧
    pre_fecha_prestamo p = t0 ∧
    pre_fecha_devolucion_esperada p = pre_fecha_prestamo p + 7 * us_per_day.
Proof.
  apply (crear_prestamo_periodo_por_defecto 0%nat 1 1 t0 ejemplo_catalogo).
  vm_compute; reflexivity.
Defined.

(** Claim C8 fails as stated: the loan created in the example is due 7 days
    after it was borrowed, and no call of [crear_prestamo], whatever its
    arguments, creates a loan due 14 days after it was borrowed. *)
Lemma crear_prestamo_sin_periodo :
  (∃ p, prestamos ejemplo_prestado !! 0%nat = Some p ∧
     pre_fecha_prestamo p = t0 ∧
     pre_fecha_devolucion_esperada p = t0 + 7 * us_per_day) ∧
  ¬ ∃ self uid pid now h h' l p,
      crear_prestamo self uid pid now h = (h', inr l) ∧
      prestamos h' !! l = Some p ∧
      pre_fecha_devolucion_esperada p = pre_fecha_prestamo p + 14 * us_per_day.
Proof.
  split.
  - eexists. split; [vm_compute; reflexivity|]. split; vm_compute; reflexivity.
  - intros (self & uid & pid & now & h & h' & l & p & Hc & Hp & Hd).
    apply crear_prestamo_exito_inv in Hc
      as (b & usuario & u & publicacion & pub & _ & _ & _ & _ & _ & _ & -> & ->).
    simpl in Hp. rewrite lookup_insert_eq in Hp. injection Hp as <-.
    simpl in Hd. unfold dias_prestamo_por_defecto, us_per_day in Hd. lia.
Qed.

(** Claim C9, as amended.  When [crear_prestamo] fails because the user may
    not borrow, it raises one and the same [ValueError], with one fixed
    message, whether the user is at the limit of 3 loans or owes a penalty. *)
Theorem crear_prestamo_no_distingue (self : loc) (uid pid : Z) (now : datetime)
    (h : Heap) (usuario publicacion : loc) (u : Usuario) :
  buscar_usuario self uid h = (h, inr (Some usuario)) →
  buscar_publicacion self pid h = (h, inr (Some publicacion)) →
  usuarios h !! usuario = Some u →
  puede_pedir_prestamo_obj u = false →
  crear_prestamo self uid pid now h = (h, inl (ValueError msg_no_puede_pedir)).
Proof.
  intros Hu Hp Hlk Hno. eapply crear_prestamo_no_puede; [done..|].
  by rewrite (puede_pedir_prestamo_Some _ _ _ Hlk), Hno.
Qed.

Lemma crear_prestamo_no_distingue_witness :
  crear_prestamo 0%nat 1 4 t0 ejemplo_limite =
    (ejemplo_limite, inl (ValueError msg_no_puede_pedir)) ∧
  crear_prestamo 0%nat 2 4 t0 ejemplo_penalizado =
    (ejemplo_penalizado, inl (ValueError msg_no_puede_pedir)).
Proof.
  split.
  - eapply (crear_prestamo_no_distingue 0%nat 1 4 t0 ejemplo_limite 0%nat 3%nat);
      vm_compute; reflexivity.
  - eapply (crear_prestamo_no_distingue 0%nat 2 4 t0 ejemplo_penalizado 1%nat 3%nat);
      vm_compute; reflexivity.
Defined.

(** Claim C9 fails as stated: no function of the raised exception tells the
    sub-cause, since a user at the limit of 3 loans with no penalty and a
    user with no loan and a penalty get equal exceptions. *)
Lemma error_no_distingue_subcausa : ¬ ∃ diagnosticar, distingue_subcausa diagnosticar.
Proof.
  intros [d Hd].
  assert (H1 : crear_prestamo 0%nat 1 4 t0 ejemplo_limite =
                 (ejemplo_limite, inl (ValueError msg_no_puede_pedir)))
    by (vm_compute; reflexivity).
  assert (H2 : crear_prestamo 0%nat 2 4 t0 ejemplo_penalizado =
                 (ejemplo_penalizado, inl (ValueError msg_no_puede_pedir)))
    by (vm_compute; reflexivity).
  eapply (Hd 0%nat 1 4 t0 ejemplo_limite 0%nat 3%nat) in H1;
    [|vm_compute; reflexivity..].
  eapply (Hd 0%nat 2 4 t0 ejemplo_penalizado 1%nat 3%nat) in H2;
    [|vm_compute; reflexivity..].
  destruct (d (ValueError msg_no_puede_pedir)).
  - vm_compute in H2. lia.
  - vm_compute in H1. discriminate.
Qed.

(** *** Effects of commands and invariants *)

Lemma descartar_heap {A : Type} (m : M A) h : (descartar m h).1 = (m h).1.
Proof. unfold descartar. desplegar. by destruct (m h) as [h' [e|a]]. Qed.

Ltac desplegar_metodos :=
  unfold paso, ejecutar, new_Libro, new_Revista, new_DVD, new_Usuario, new_Biblioteca,
    marcar_prestado, marcar_devuelto, agregar_prestamo, remover_prestamo,
    agregar_penalizacion, pagar_penalizacion, agregar_publicacion, agregar_usuario,
    marcar_prestado_obj, marcar_devuelto_obj, pagar_penalizacion_obj in *;
  desplegar.

(** What a command does to the loans of the store. *)
Lemma paso_prestamos c h :
  prestamos (paso c h) = prestamos h ∨
  (∃ p, pre_fecha_devolucion_real p = None ∧ pre_penalizacion p = 0.0%float ∧
     prestamos (paso c h) = <[fresh (dom (prestamos h)) := p]> (prestamos h)) ∨
  (∃ l p q now, prestamos h !! l = Some p ∧ pre_fecha_devolucion_real p = None ∧
     prestamos (paso c h) =
       <[l := set_penalizacion q (set_fecha_devolucion_real (Some now) p)]> (prestamos h)).
Proof.
  destruct c as [id titulo anio autor isbn|id titulo anio n|id titulo anio d
                |id nombre email|id usuario publicacion dias now| |pl|pl|ul ll|ul ll
                |ul monto|ul monto|ll now|bl pl|bl ul|bl uid pid now];
    try (desplegar_metodos; repeat (case_match; simplify_eq/=); by left).
  - (* CPrestamo *)
    unfold paso, ejecutar. rewrite descartar_heap.
    destruct (new_Prestamo id usuario publicacion dias now h) as [h' [e|l]] eqn:E.
    + left. revert E. unfold new_Prestamo, timedelta_days, datetime_add. desplegar.
      repeat case_match; simpl; by intros [= <-].
    + apply new_Prestamo_inv in E as (_ & _ & -> & ->). right; left.
      eexists. by repeat split.
  - (* CDevolver *)
    unfold paso, ejecutar.
    destruct (devolver_efecto ll now h) as (_ & [Hp|Hp] & _); [by left|].
    destruct Hp as (p & q & Hp & Hr & _ & Heq). right; right. by exists ll, p, q, now.
  - (* CCrearPrestamo *)
    unfold paso, ejecutar. rewrite descartar_heap.
    destruct (crear_prestamo_resultado bl uid pid now h); [|by left].
    right; left. eexists. by repeat split.
Qed.

Lemma fresh_prestamo_nuevo (h : Heap) : prestamos h !! fresh (dom (prestamos h)) = None.
Proof. apply not_elem_of_dom. apply is_fresh. Qed.



(** A returned loan is never written again. *)
Lemma paso_prestamo_devuelto c h l p t :
  prestamos h !! l = Some p → pre_fecha_devolucion_real p = Some t →
  prestamos (paso c h) !! l = Some p.
Proof.
  intros Hp Hr.
  destruct (paso_prestamos c h) as [->|[(p0 & _ & _ & ->)|(l0 & p0 & q & now & Hp0 & Hr0 & ->)]].
  - done.
  - rewrite lookup_insert_ne; [done|]. intros <-.
    rewrite fresh_prestamo_nuevo in Hp. done.
  - rewrite lookup_insert_ne; [done|]. intros <-. congruence.
Qed.

Lemma correr_prestamo_devuelto cs h l p t :
  prestamos h !! l = Some p → pre_fecha_devolucion_real p = Some t →
  prestamos (correr cs h) !! l = Some p.
Proof.
  revert h. induction cs as [|c cs IH]; intros h Hp Hr; simpl; [done|].
  apply IH; [|done]. by eapply paso_prestamo_devuelto.
Qed.

(** Claim C6.  After a successful [devolver] of a loan, whatever the client
    program does next, the loan keeps the record the return gave it (its
    return timestamp and its penalty), and every further [devolver] of it
    raises "ya fue devuelto" and leaves the whole store (so the user and the
    publication too) unchanged. *)
Theorem devolver_una_sola_vez (h h1 : Heap) (l : loc) (t1 : datetime) :
  devolver l t1 h = (h1, inr tt) →
  ∃ p1, prestamos h1 !! l = Some p1 ∧
    pre_fecha_devolucion_real p1 = Some t1 ∧
    ∀ (cs : list Cmd) (t2 : datetime),
      prestamos (correr cs h1) !! l = Some p1 ∧
      devolver l t2 (correr cs h1) = (correr cs h1, inl (ValueError msg_ya_devuelto)).
Proof.
  intros Hd. apply devolver_exito in Hd as (p & pub & u & Hp & Hr & Hpub & Hdisp & Hu & ->).
  eexists. split; [apply lookup_insert_eq|].
  assert (Hreal : pre_fecha_devolucion_real
            (if pre_fecha_devolucion_esperada p <? t1
             then set_penalizacion
                    (calcular_penalizacion_retraso pub
                       (dias_entre t1 (pre_fecha_devolucion_esperada p)))
                    (set_fecha_devolucion_real (Some t1) p)
             else set_fecha_devolucion_real (Some t1) p) = Some t1)
    by (by destruct (pre_fecha_devolucion_esperada p <? t1)).
  split; [done|]. intros cs t2.
  match goal with |- ?A ∧ _ => assert (Hk : A) end.
  { eapply correr_prestamo_devuelto; [apply lookup_insert_eq|done]. }
  split; [done|]. by eapply devolver_ya_devuelto.
Qed.

Lemma devolver_una_sola_vez_witness :
  ∃ p1, prestamos ejemplo_devuelto_tarde !! 0%nat = Some p1 ∧
    pre_fecha_devolucion_real p1 = Some (t0 + 17 * us_per_day + 3600000000) ∧
    ∀ (cs : list Cmd) (t2 : datetime),
      prestamos (correr cs ejemplo_devuelto_tarde) !! 0%nat = Some p1 ∧
      devolver 0%nat t2 (correr cs ejemplo_devuelto_tarde) =
        (correr cs ejemplo_devuelto_tarde, inl (ValueError msg_ya_devuelto)).
Proof.
  apply (devolver_una_sola_vez ejemplo_prestado). vm_compute; reflexivity.
Defined.


Lemma remover_prestamo_obj_penalizacion l u :
  usr_penalizacion_acumulada (remover_prestamo_obj l u) = usr_penalizacion_acumulada u.
Proof. unfold remover_prestamo_obj. by case_bool_decide. Qed.



Lemma alcanzable_correr cs h :
  alcanzable h → programa_valido cs h = true → alcanzable (correr cs h).
Proof.
  revert h. induction cs as [|c cs IH]; intros h Hh Hv; simpl in *; [done|].
  apply andb_true_iff in Hv as [Hc Hcs]. apply IH; [|done]. by constructor.
Qed.


(** Claim C5 fails as stated (it asks for a penalty equal to 0), at a
    store a client program produces: after [agregar_penalizacion(-5.0)] the
    second user of the example catalog has the balance -5.0 and no loan;
    [puede_pedir_prestamo] answers true although the balance is not 0, and
    [crear_prestamo] for that user succeeds. *)
Lemma puede_pedir_con_penalizacion_negativa :
  alcanzable ejemplo_saldo_negativo ∧
  ∃ u, usuarios ejemplo_saldo_negativo !! 1%nat = Some u ∧
    puede_pedir_prestamo 1%nat ejemplo_saldo_negativo = (ejemplo_saldo_negativo, inr true) ∧
    (usr_penalizacion_acumulada u =? 0)%float = false ∧
    ¬ (puede_pedir_prestamo_obj u = true ↔
         (length (usr_prestamos_activos u) < 3)%nat ∧
         (usr_penalizacion_acumulada u =? 0)%float = true) ∧
    ∃ h' prestamo,
      crear_prestamo 0%nat 2 1 t0 ejemplo_saldo_negativo = (h', inr prestamo).
Proof.
  split.
  - assert (Heq : ejemplo_saldo_negativo =
                  correr (programa_catalogo ++ [CAgregarPenalizacion 1%nat (-5.0)%float])
                    heap_vacio)
      by (vm_compute; reflexivity).
    rewrite Heq. apply alcanzable_correr; [constructor|vm_compute; reflexivity].
  - eexists. split; [vm_compute; reflexivity|].
    split; [vm_compute; reflexivity|]. split; [vm_compute; reflexivity|]. split.
    + intros [H _]. assert (Hp : puede_pedir_prestamo_obj
        (mkUsuario 2 "Carlos" "carlos@example.com" [] (-5.0)%float) = true)
        by (vm_compute; reflexivity).
      destruct (H Hp) as [_ Hcero]. vm_compute in Hcero. discriminate Hcero.
    + eexists _, _. vm_compute. reflexivity.
Qed.


(** The values in the example: ten whole days late on a book, 10.0 on the
    loan and on the user's balance. *)
Lemma ejemplo_devuelto_tarde_valores :
  prestamos ejemplo_devuelto_tarde !! 0%nat =
    Some (mkPrestamo 1 0%nat 0%nat t0 (t0 + 7 * us_per_day)
            (Some (t0 + 17 * us_per_day + 3600000000)) 10.0%float) ∧
  usuarios ejemplo_devuelto_tarde !! 0%nat =
    Some (mkUsuario 1 "Ana" "ana@example.com" [] 10.0%float).
Proof. split; vm_compute; reflexivity. Qed.

(** Sums and differences of amounts are rounded as the source's are: adding
    1.0 to a balance of 1e16, or paying 1.0 of it, leaves 1e16. *)
Lemma ejemplo_redondeo :
  usr_penalizacion_acumulada
    (agregar_penalizacion_obj 1.0 (mkUsuario 1 "Ana" "ana@example.com" [] 1e16)) =
    1e16%float ∧
  pagar_penalizacion_obj 1.0 (mkUsuario 1 "Ana" "ana@example.com" [] 1e16) =
    inr (mkUsuario 1 "Ana" "ana@example.com" [] 1e16).
Proof. split; vm_compute; reflexivity. Qed.

Lemma list_remove_length x (l : list loc) : (length (list_remove x l) ≤ length l)%nat.
Proof.
  induction l as [|y l IH]; simpl; [done|]. case_decide; simpl; lia.
Qed.

Lemma paso_limite_prestamos o h :
  limite_prestamos h → limite_prestamos (paso (cmd_de_op o) h).
Proof.
  intros Hinv k u'. destruct o as [b uid pid now|l now]; unfold paso; simpl.
  - rewrite descartar_heap.
    destruct (crear_prestamo_resultado b uid pid now h)
      as [bb usuario u publicacion pub Hb Hbu Hu Hbp Hpub Hpuede Hd Hr|]; [|by apply Hinv].
    simpl. rewrite lookup_insert. case_decide; [|by apply Hinv].
    intros [= <-]. simpl. rewrite length_app; simpl.
    apply puede_pedir_prestamo_obj_true in Hpuede as [Hlen _]. lia.
  - destruct (devolver_efecto l now h) as (_ & _ & _ & [->|Hu]); [by apply Hinv|].
    destruct Hu as (k0 & u & ls & q & Hu & Hls & _ & ->).
    rewrite lookup_insert. case_decide; [|by apply Hinv].
    intros [= <-]. simpl. specialize (Hinv _ _ Hu).
    destruct Hls as [->| ->]; [done|].
    pose proof (list_remove_length l (usr_prestamos_activos u)). lia.
Qed.

(** Claim C3.  Starting from a store in which no user has more than 3 active
    loans, after every sequence of [crear_prestamo] and [devolver] calls no
    user has more than 3 active loans. *)
Theorem limite_de_tres_prestamos (h : Heap) (ops : list OpCatalogo) :
  limite_prestamos h →
  limite_prestamos (correr (cmd_de_op <$> ops) h).
Proof.
  revert h. induction ops as [|o ops IH]; intros h Hinv; simpl; [done|].
  apply IH. by apply paso_limite_prestamos.
Qed.

Lemma limite_prestamos_catalogo : limite_prestamos ejemplo_catalogo.
Proof.
  unfold limite_prestamos.
  apply (bool_decide_unpack (map_Forall (λ _ u, (length (usr_prestamos_activos u) ≤ 3)%nat)
                               (usuarios ejemplo_catalogo))).
  vm_compute. exact I.
Qed.

Lemma limite_de_tres_prestamos_witness :
  limite_prestamos
    (correr (cmd_de_op <$>
               [OpCrearPrestamo 0%nat 1 1 t0; OpCrearPrestamo 0%nat 1 2 t0;
                OpCrearPrestamo 0%nat 1 3 t0; OpCrearPrestamo 0%nat 1 4 t0;
                OpDevolver 0%nat (t0 + us_per_day); OpCrearPrestamo 0%nat 1 4 t0])
       ejemplo_catalogo).
Proof.
  apply limite_de_tres_prestamos.
  unfold limite_prestamos.
  apply (bool_decide_unpack (map_Forall (λ _ u, (length (usr_prestamos_activos u) ≤ 3)%nat)
                               (usuarios ejemplo_catalogo))).
  vm_compute. exact I.
Defined.

Lemma filtrar_vencidos_puro ls reloj h : (filtrar_vencidos ls reloj h).1 = h.
Proof.
  revert reloj. induction ls as [|l ls IH]; intros reloj; simpl; [done|].
  unfold esta_vencido. desplegar.
  destruct (prestamos h !! l) as [p|]; simpl; [|done].
  specialize (IH (λ i, reloj (S i))).
  destruct (filtrar_vencidos ls (λ i, reloj (S i)) h) as [h' [e|r]]; simpl in *; done.
Qed.

(** No method of [Biblioteca] writes to a loan that exists. *)
Lemma llamar_prestamos self ll h l p :
  prestamos h !! l = Some p → prestamos (llamar self ll h).1 !! l = Some p.
Proof.
  intros Hp.
  destruct ll as [pl|ul|id|id|uid pid now|reloj]; simpl.
  - unfold agregar_publicacion. desplegar. by destruct (bibliotecas h !! self).
  - unfold agregar_usuario. desplegar. by destruct (bibliotecas h !! self).
  - rewrite descartar_heap. unfold buscar_publicacion. desplegar.
    destruct (bibliotecas h !! self) as [b|]; simpl; [|done].
    by rewrite buscar_publicacion_en_puro.
  - rewrite descartar_heap. unfold buscar_usuario. desplegar.
    destruct (bibliotecas h !! self) as [b|]; simpl; [|done].
    by rewrite buscar_usuario_en_puro.
  - rewrite descartar_heap.
    destruct (crear_prestamo_resultado self uid pid now h); [|done].
    simpl. rewrite lookup_insert_ne; [done|]. intros <-.
    by rewrite fresh_prestamo_nuevo in Hp.
  - rewrite descartar_heap. unfold obtener_prestamos_vencidos. desplegar.
    destruct (bibliotecas h !! self) as [b|]; simpl; [|done].
    by rewrite filtrar_vencidos_puro.
Qed.

(** Claim C7, as amended.  Class [Biblioteca] has no operation that returns
    a loan by its id: every call of one of its methods leaves every existing
    loan as it was.  A loan is returned by [devolver] on the loan object
    itself, which raises "ya fue devuelto" and changes nothing when the loan
    was already returned. *)
Theorem biblioteca_no_devuelve (h : Heap) (self : loc) (ll : LlamadaBiblioteca)
    (l : loc) (p : Prestamo) :
  prestamos h !! l = Some p →
  prestamos (llamar self ll h).1 !! l = Some p ∧
  (∀ t now, pre_fecha_devolucion_real p = Some t →
     devolver l now h = (h, inl (ValueError msg_ya_devuelto))).
Proof.
  intros Hp. split; [by apply llamar_prestamos|].
  intros t now Hr. by eapply devolver_ya_devuelto.
Qed.

Lemma biblioteca_no_devuelve_witness :
  ∃ p, prestamos ejemplo_devuelto_tarde !! 0%nat = Some p ∧
    pre_fecha_devolucion_real p = Some (t0 + 17 * us_per_day + 3600000000) ∧
    prestamos (llamar 0%nat (LlCrearPrestamo 2 2 t0) ejemplo_devuelto_tarde).1 !! 0%nat =
      Some p ∧
    devolver 0%nat t0 ejemplo_devuelto_tarde =
      (ejemplo_devuelto_tarde, inl (ValueError msg_ya_devuelto)).
Proof.
  eexists. split; [vm_compute; reflexivity|]. split; [vm_compute; reflexivity|].
  match goal with |- prestamos _ !! _ = Some ?p ∧ _ =>
    destruct (biblioteca_no_devuelve ejemplo_devuelto_tarde 0%nat
                (LlCrearPrestamo 2 2 t0) 0%nat p) as [H1 H2]
  end.
  - vm_compute; reflexivity.
  - split; [exact H1|]. eapply H2. vm_compute; reflexivity.
Defined.

(** Claim C7 fails as stated: in the example the catalog holds an active loan
    (id 1), and no call of a method of [Biblioteca] on that catalog leaves
    the loan with a return timestamp. *)
Lemma biblioteca_sin_devolucion :
  (prestamos ejemplo_prestado !! 0%nat =
     Some (mkPrestamo 1 0%nat 0%nat t0 (t0 + 7 * us_per_day) None 0.0%float)) ∧
  ¬ ∃ ll p, prestamos (llamar 0%nat ll ejemplo_prestado).1 !! 0%nat = Some p ∧
      pre_fecha_devolucion_real p ≠ None.
Proof.
  assert (H0 : prestamos ejemplo_prestado !! 0%nat =
     Some (mkPrestamo 1 0%nat 0%nat t0 (t0 + 7 * us_per_day) None 0.0%float))
    by (vm_compute; reflexivity).
  split; [done|].
  intros (ll & p & Hp & Hr).
  rewrite (llamar_prestamos _ ll _ _ _ H0) in Hp. injection Hp as <-.
  apply Hr. reflexivity.
Qed.

(** *** Penalties are never negative *)

Lemma calcular_penalizacion_retraso_no_negativa pub d :
  0 ≤ d → (0 <=? calcular_penalizacion_retraso pub d)%float = true.
Proof.
  intros Hd. unfold calcular_penalizacion_retraso.
  destruct (pub_clase pub).
  - apply (mul_no_negativo _ _ 4503599627370496 (-52));
      [vm_compute; reflexivity|by apply float_of_Z_no_negativo].
  - apply (mul_no_negativo _ _ 4503599627370496 (-53));
      [vm_compute; reflexivity|by apply float_of_Z_no_negativo].
  - apply (mul_no_negativo _ _ 4503599627370496 (-51));
      [vm_compute; reflexivity|by apply float_of_Z_no_negativo].
Qed.

Lemma paso_penalizaciones_no_negativas c h :
  monto_no_negativo c →
  penalizaciones_no_negativas h → penalizaciones_no_negativas (paso c h).
Proof.
  intros Hm Hinv k u'.
  destruct c as [id titulo anio autor isbn|id titulo anio n|id titulo anio d
                |id nombre email|id usuario publicacion dias now| |pl|pl|ul ll|ul ll
                |ul monto|ul monto|ll now|bl pl|bl ul|bl uid pid now];
    try (desplegar_metodos; repeat (case_match; simplify_eq/=); by apply Hinv).
  - (* CUsuario *)
    desplegar_metodos. rewrite lookup_insert. case_decide; [|by apply Hinv].
    by intros [= <-].
  - (* CPrestamo *)
    unfold paso, ejecutar. rewrite descartar_heap.
    destruct (new_Prestamo id usuario publicacion dias now h) as [h' [e|l]] eqn:E.
    + revert E. unfold new_Prestamo, timedelta_days, datetime_add. desplegar.
      repeat case_match; simpl; intros [= <-]; by apply Hinv.
    + apply new_Prestamo_inv in E as (_ & _ & _ & ->). by apply Hinv.
  - (* CAgregarPrestamo *)
    desplegar_metodos. destruct (usuarios h !! ul) as [u|] eqn:Eu; simpl; [|by apply Hinv].
    rewrite lookup_insert. case_decide; [|by apply Hinv].
    intros [= <-]. simpl. by eapply Hinv.
  - (* CRemoverPrestamo *)
    desplegar_metodos. destruct (usuarios h !! ul) as [u|] eqn:Eu; simpl; [|by apply Hinv].
    rewrite lookup_insert. case_decide; [|by apply Hinv].
    intros [= <-]. rewrite remover_prestamo_obj_penalizacion. by eapply Hinv.
  - (* CAgregarPenalizacion *)
    desplegar_metodos. destruct (usuarios h !! ul) as [u|] eqn:Eu; simpl; [|by apply Hinv].
    rewrite lookup_insert. case_decide; [|by apply Hinv].
    intros [= <-]. simpl. simpl in Hm.
    specialize (Hinv _ _ Eu).
    by apply add_no_es_negativo.
  - (* CPagarPenalizacion *)
    desplegar_metodos. destruct (usuarios h !! ul) as [u|] eqn:Eu; simpl; [|by apply Hinv].
    destruct (usr_penalizacion_acumulada u <? monto)%float eqn:Eg; simpl;
      [by apply Hinv|].
    rewrite lookup_insert. case_decide; [|by apply Hinv].
    intros [= <-]. simpl. apply sub_no_es_negativo; [by eapply Hinv|done].
  - (* CDevolver *)
    unfold paso, ejecutar.
    destruct (devolver_efecto ll now h) as (_ & _ & _ & [->|Hu]); [by apply Hinv|].
    destruct Hu as (k0 & u & ls & q & Hu & _ & Hq & ->).
    rewrite lookup_insert. case_decide; [|by apply Hinv].
    intros [= <-]. simpl. specialize (Hinv _ _ Hu).
    destruct Hq as [->|(pub & d & Hd & ->)]; [done|].
    apply add_no_es_negativo; [done|].
    by apply leb_no_ltb, calcular_penalizacion_retraso_no_negativa.
  - (* CCrearPrestamo *)
    unfold paso, ejecutar. rewrite descartar_heap.
    destruct (crear_prestamo_resultado bl uid pid now h)
      as [bb usuario u publicacion pub Hb Hbu Hu Hbp Hpub Hpuede Hd Hr|]; [|by apply Hinv].
    simpl. rewrite lookup_insert. case_decide; [|by apply Hinv].
    intros [= <-]. simpl. by eapply Hinv.
Qed.

(** *** Well-formed stores *)

Lemma list_remove_subseteq x (l : list loc) k : k ∈ list_remove x l → k ∈ l.
Proof.
  induction l as [|y l IH]; simpl; [done|].
  case_decide; [by right|]. rewrite !elem_of_cons. intros [->|H']; [by left|right; auto].
Qed.

Lemma is_Some_insert {A} (m : gmap loc A) k j (x : A) :
  is_Some (m !! j) → is_Some (<[k := x]> m !! j).
Proof.
  intros H. rewrite lookup_insert. case_decide; [by eexists|done].
Qed.

Ltac resolver_bf Hbf :=
  destruct Hbf as [B1 B2 B3 B4 B5 B6];
  split; simpl; intros *;
  repeat (rewrite lookup_insert; case_decide; simplify_eq/=);
  intros; simplify_eq/=;
  repeat match goal with
  | H : _ ∈ _ ++ [_] |- _ => apply elem_of_app in H as [H|H%list_elem_of_singleton]
  | H : _ ∈ [] |- _ => by apply elem_of_nil in H
  | H : _ ∈ list_remove _ _ |- _ => apply list_remove_subseteq in H
  end; simplify_eq/=;
  try (apply is_Some_insert); eauto using is_Some_insert.

Lemma existe_usuario_true h l : existe_usuario h l = true → is_Some (usuarios h !! l).
Proof. unfold existe_usuario. apply bool_decide_eq_true_1. Qed.
Lemma existe_publicacion_true h l :
  existe_publicacion h l = true → is_Some (publicaciones h !! l).
Proof. unfold existe_publicacion. apply bool_decide_eq_true_1. Qed.
Lemma existe_prestamo_true h l : existe_prestamo h l = true → is_Some (prestamos h !! l).
Proof. unfold existe_prestamo. apply bool_decide_eq_true_1. Qed.
Lemma existe_biblioteca_true h l :
  existe_biblioteca h l = true → is_Some (bibliotecas h !! l).
Proof. unfold existe_biblioteca. apply bool_decide_eq_true_1. Qed.

Lemma paso_bien_formado c h :
  refs_validas h c = true → bien_formado h → bien_formado (paso c h).
Proof.
  intros Hv Hbf.
  destruct c as [id titulo anio autor isbn|id titulo anio n|id titulo anio d
                |id nombre email|id usuario publicacion dias now| |pl|pl|ul ll|ul ll
                |ul monto|ul monto|ll now|bl pl|bl ul|bl uid pid now]; simpl in Hv.
  all: try (desplegar_metodos; repeat (case_match; simplify_eq/=); try done;
            resolver_bf Hbf; fail).
  - (* CPrestamo *)
    apply andb_true_iff in Hv as [Hu%existe_usuario_true Hp%existe_publicacion_true].
    unfold paso, ejecutar. rewrite descartar_heap.
    destruct (new_Prestamo id usuario publicacion dias now h) as [h' [e|l]] eqn:E.
    + revert E. unfold new_Prestamo, timedelta_days, datetime_add. desplegar.
      repeat case_match; simpl; by intros [= <-].
    + apply new_Prestamo_inv in E as (_ & _ & _ & ->). simpl. resolver_bf Hbf.
  - (* CAgregarPrestamo *)
    apply andb_true_iff in Hv as [Hu%existe_usuario_true Hp%existe_prestamo_true].
    desplegar_metodos. destruct (usuarios h !! ul) as [u|] eqn:Eu; simpl; [|done].
    resolver_bf Hbf.
  - (* CRemoverPrestamo *)
    desplegar_metodos. destruct (usuarios h !! ul) as [u|] eqn:Eu; simpl; [|done].
    unfold remover_prestamo_obj. case_bool_decide; resolver_bf Hbf.
  - (* CDevolver *)
    unfold paso, ejecutar.
    destruct (devolver_efecto ll now h) as (Hb & Hp & Hpub & Hu).
    destruct (devolver ll now h) as [h' r]; simpl in *.
    destruct h' as [pubs' usrs' pres' bibs']; simpl in *. subst bibs'.
    destruct Hp as [->|(p & q & Hp & _ & _ & ->)];
    destruct Hpub as [->|(kp & pub & Hkp & ->)];
    destruct Hu as [->|(ku & u & ls & q' & Hku & Hls & _ & ->)];
    try destruct Hls as [->| ->];
    resolver_bf Hbf.
  - (* CAgregarPublicacion *)
    apply andb_true_iff in Hv as [Hbl%existe_biblioteca_true Hp%existe_publicacion_true].
    desplegar_metodos. destruct (bibliotecas h !! bl) as [b|] eqn:Eb; simpl; [|done].
    resolver_bf Hbf.
  - (* CAgregarUsuario *)
    apply andb_true_iff in Hv as [Hbl%existe_biblioteca_true Hp%existe_usuario_true].
    desplegar_metodos. destruct (bibliotecas h !! bl) as [b|] eqn:Eb; simpl; [|done].
    resolver_bf Hbf.
  - (* CCrearPrestamo *)
    unfold paso, ejecutar. rewrite descartar_heap.
    destruct (crear_prestamo_resultado bl uid pid now h)
      as [bb usuario u publicacion pub Hb Hbu Hu Hbp Hpub Hpuede Hd Hr|]; [|done].
    unfold heap_tras_crear. resolver_bf Hbf.
Qed.

Lemma bien_formado_vacio : bien_formado heap_vacio.
Proof. split; simpl; intros *; by rewrite lookup_empty. Qed.

Lemma alcanzable_bien_formado h : alcanzable h → bien_formado h.
Proof.
  induction 1 as [|h c _ IH Hv]; [apply bien_formado_vacio|by apply paso_bien_formado].
Qed.

Lemma buscar_usuario_en_valido ls id h :
  (∀ k, k ∈ ls → is_Some (usuarios h !! k)) →
  (buscar_usuario_en ls id h).2 ≠ inl InvalidRef.
Proof.
  induction ls as [|l ls IH]; intros Hls; simpl; [done|].
  desplegar. destruct (Hls l) as [u Hu]; [by left|]. rewrite Hu; simpl.
  destruct (usr_id u =? id); simpl; [done|]. apply IH. intros k Hk. apply Hls. by right.
Qed.

Lemma buscar_publicacion_en_valido ls id h :
  (∀ k, k ∈ ls → is_Some (publicaciones h !! k)) →
  (buscar_publicacion_en ls id h).2 ≠ inl InvalidRef.
Proof.
  induction ls as [|l ls IH]; intros Hls; simpl; [done|].
  desplegar. destruct (Hls l) as [u Hu]; [by left|]. rewrite Hu; simpl.
  destruct (pub_id u =? id); simpl; [done|]. apply IH. intros k Hk. apply Hls. by right.
Qed.

Lemma descartar_resultado {A : Type} (m : M A) h e :
  (descartar m h).2 = inl e → (m h).2 = inl e.
Proof. unfold descartar. desplegar. destruct (m h) as [h' [e'|a]]; simpl; [by intros [= ->]|done]. Qed.

(** In a well-formed store a call whose arguments are objects never
    follows a reference to no object. *)
Theorem sin_referencias_invalidas (c : Cmd) (h : Heap) :
  bien_formado h → refs_validas h c = true → (ejecutar c h).2 ≠ inl InvalidRef.
Proof.
  intros Hbf Hv.
  destruct c as [id titulo anio autor isbn|id titulo anio n|id titulo anio d
                |id nombre email|id usuario publicacion dias now| |pl|pl|ul ll|ul ll
                |ul monto|ul monto|ll now|bl pl|bl ul|bl uid pid now]; simpl in Hv;
    repeat match goal with
    | H : _ && _ = true |- _ => apply andb_true_iff in H as [? ?]
    | H : existe_usuario _ _ = true |- _ => apply existe_usuario_true in H as [? ?]
    | H : existe_publicacion _ _ = true |- _ => apply existe_publicacion_true in H as [? ?]
    | H : existe_prestamo _ _ = true |- _ => apply existe_prestamo_true in H as [? ?]
    | H : existe_biblioteca _ _ = true |- _ => apply existe_biblioteca_true in H as [? ?]
    end.
  all: try (desplegar_metodos; repeat (case_match; simplify_eq/=); done).
  - (* CPrestamo *)
    simpl. intros He%descartar_resultado. revert He.
    unfold new_Prestamo, timedelta_days, datetime_add. desplegar.
    repeat (case_match; simplify_eq/=); done.
  - (* CDevolver *)
    simpl. destruct Hbf as [B1 B2 _ _ _ _].
    match goal with H : prestamos h !! ll = Some ?p |- _ =>
      destruct (B1 _ _ H) as [u Hu]; destruct (B2 _ _ H) as [pub Hpub];
      rename H into Hp
    end.
    unfold devolver, agregar_penalizacion, marcar_devuelto, remover_prestamo,
      marcar_devuelto_obj.
    desplegar. rewrite Hp; simpl.
    destruct (pre_fecha_devolucion_real _); simpl; [done|].
    destruct (pre_fecha_devolucion_esperada _ <? now); simpl.
    + rewrite Hpub; simpl. rewrite lookup_insert_eq; simpl. rewrite Hu; simpl.
      rewrite Hpub; simpl. destruct (pub_disponible pub); simpl; [done|].
      by rewrite lookup_insert_eq.
    + rewrite Hpub; simpl. destruct (pub_disponible pub); simpl; [done|].
      by rewrite Hu.
  - (* CCrearPrestamo *)
    simpl. intros He%descartar_resultado.
    pose proof (crear_prestamo_resultado bl uid pid now h) as Hr.
    destruct (crear_prestamo bl uid pid now h) as [h' r]; simpl in *. subst r.
    inversion Hr as [|e Hcausa]; subst h'.
    destruct Hbf as [_ _ _ B4 B5 _].
    inversion Hcausa as [Hb|b Hb Hbu| |b Hb Hbp| | | |]; subst.
    + congruence.
    + revert Hbu. apply buscar_usuario_en_valido. intros k Hk. by eapply B5.
    + revert Hbp. apply buscar_publicacion_en_valido. intros k Hk. by eapply B4.
Qed.

(** *** Stores produced through catalogs: coherence *)

Lemma list_remove_elem_of x (l : list loc) k :
  NoDup l → (k ∈ list_remove x l ↔ k ∈ l ∧ k ≠ x).
Proof.
  induction 1 as [|y l Hy Hnd IH]; simpl.
  - split; [by intros ?%elem_of_nil|by intros [?%elem_of_nil _]].
  - case_decide as Hxy.
    + subst y. rewrite elem_of_cons. split.
      * intros Hk. split; [by right|]. by intros ->.
      * intros [[->|Hk] Hne]; done.
    + rewrite !elem_of_cons, IH. split.
      * intros [->|[Hk Hne]]; [split; [by left|congruence]|split; [by right|done]].
      * intros [[->|Hk] Hne]; [by left|by right].
Qed.

Lemma list_remove_NoDup x (l : list loc) : NoDup l → NoDup (list_remove x l).
Proof.
  induction 1 as [|y l Hy Hnd IH]; simpl; [constructor|].
  case_decide; [done|]. constructor; [|done].
  intros Hin. apply Hy. by eapply list_remove_subseteq.
Qed.

Lemma list_remove_length_elem x (l : list loc) :
  x ∈ l → S (length (list_remove x l)) = length l.
Proof.
  induction l as [|y l IH]; simpl; [by intros ?%elem_of_nil|].
  case_decide; [done|]. rewrite elem_of_cons. intros [->|Hin]; [done|].
  simpl. by rewrite IH.
Qed.

Lemma devolver_exito_si l now h p pub u :
  prestamos h !! l = Some p → pre_fecha_devolucion_real p = None →
  publicaciones h !! pre_publicacion p = Some pub → pub_disponible pub = false →
  usuarios h !! pre_usuario p = Some u →
  devolver l now h = (heap_tras_devolver h l p pub u now, inr tt).
Proof.
  intros Hp Hr Hpub Hd Hu.
  unfold devolver, agregar_penalizacion, marcar_devuelto, remover_prestamo,
    marcar_devuelto_obj, heap_tras_devolver.
  desplegar. rewrite Hp; simpl. rewrite Hr; simpl.
  destruct (pre_fecha_devolucion_esperada p <? now) eqn:Et; simpl.
  - rewrite Hpub; simpl. rewrite lookup_insert_eq; simpl. rewrite Hu; simpl.
    rewrite Hpub; simpl. rewrite Hd; simpl. rewrite lookup_insert_eq; simpl.
    by rewrite !insert_insert_eq.
  - rewrite Hpub; simpl. rewrite Hd; simpl. by rewrite Hu.
Qed.

Lemma coherente_vacio : coherente heap_vacio.
Proof. split; simpl; intros *; by rewrite lookup_empty. Qed.

Lemma fresh_publicacion_nueva (h : Heap) :
  publicaciones h !! fresh (dom (publicaciones h)) = None.
Proof. apply not_elem_of_dom. apply is_fresh. Qed.

Lemma fresh_usuario_nuevo (h : Heap) : usuarios h !! fresh (dom (usuarios h)) = None.
Proof. apply not_elem_of_dom. apply is_fresh. Qed.

Lemma coherente_alloc_publicacion h pub :
  pub_disponible pub = true →
  coherente h →
  coherente (mkHeap (<[fresh (dom (publicaciones h)) := pub]> (publicaciones h))
               (usuarios h) (prestamos h) (bibliotecas h)).
Proof.
  intros Hd [C1 C2 C3 C4 C5 C6]. split; simpl; try done.
  - intros l p Hp Hr. destruct (C1 l p Hp Hr) as (pub0 & Hpub0 & Hd0).
    exists pub0. split; [|done]. rewrite lookup_insert_ne; [done|].
    intros Heq. rewrite <- Heq, fresh_publicacion_nueva in Hpub0. done.
  - intros k pub0. rewrite lookup_insert. case_decide; [|by apply C3].
    intros [= <-]. congruence.
Qed.

Lemma coherente_usuarios_igual h us :
  (∀ k u', us !! k = Some u' →
     (∃ u, usuarios h !! k = Some u ∧ usr_prestamos_activos u' = usr_prestamos_activos u) ∨
     (usuarios h !! k = None ∧ usr_prestamos_activos u' = [])) →
  (∀ k, is_Some (usuarios h !! k) → is_Some (us !! k)) →
  coherente h →
  coherente (mkHeap (publicaciones h) us (prestamos h) (bibliotecas h)).
Proof.
  intros Hus Hdom [C1 C2 C3 C4 C5 C6]. split; simpl; try done.
  - intros k u' l Hu'. destruct (Hus k u' Hu') as [(u & Hu & ->)|[Hnone ->]].
    + by apply C4.
    + split; [by intros ?%elem_of_nil|].
      intros (p & Hp & Hk & _). destruct (C6 l p Hp) as [u0 Hu0]. congruence.
  - intros k u' Hu'. destruct (Hus k u' Hu') as [(u & Hu & ->)|[Hnone ->]].
    + by eapply C5.
    + constructor.
  - intros l p Hp. apply Hdom. by eapply C6.
Qed.

Lemma real_tras_devolver p pub now :
  pre_fecha_devolucion_real
    (if pre_fecha_devolucion_esperada p <? now
     then set_penalizacion
            (calcular_penalizacion_retraso pub
               (dias_entre now (pre_fecha_devolucion_esperada p)))
            (set_fecha_devolucion_real (Some now) p)
     else set_fecha_devolucion_real (Some now) p) = Some now.
Proof. by destruct (pre_fecha_devolucion_esperada p <? now). Qed.

Lemma activos_tras_devolver l p pub u now :
  usr_prestamos_activos
    (remover_prestamo_obj l
       (if pre_fecha_devolucion_esperada p <? now
        then agregar_penalizacion_obj
               (calcular_penalizacion_retraso pub
                  (dias_entre now (pre_fecha_devolucion_esperada p))) u
        else u)) =
  if bool_decide (l ∈ usr_prestamos_activos u)
  then list_remove l (usr_prestamos_activos u) else usr_prestamos_activos u.
Proof.
  unfold remover_prestamo_obj.
  destruct (pre_fecha_devolucion_esperada p <? now); simpl; by case_bool_decide.
Qed.

Lemma coherente_tras_devolver h l p pub u now :
  coherente h →
  prestamos h !! l = Some p → pre_fecha_devolucion_real p = None →
  publicaciones h !! pre_publicacion p = Some pub →
  usuarios h !! pre_usuario p = Some u →
  coherente (heap_tras_devolver h l p pub u now).
Proof.
  intros [C1 C2 C3 C4 C5 C6] Hp Hr Hpub Hu.
  unfold heap_tras_devolver. split; simpl.
  - intros l2 p2. rewrite lookup_insert. case_decide as Hl.
    + intros [= <-]. by rewrite real_tras_devolver.
    + intros Hp2 Hr2. destruct (C1 l2 p2 Hp2 Hr2) as (pub2 & Hpub2 & Hd2).
      exists pub2. split; [|done]. rewrite lookup_insert_ne; [done|].
      intros Heq. apply Hl. by apply (C2 l l2 p p2).
  - intros l1 l2 p1 p2. rewrite !lookup_insert.
    case_decide; [intros [= <-]; by rewrite real_tras_devolver|].
    case_decide; [intros _ [= <-]; by rewrite real_tras_devolver|].
    apply C2.
  - intros k pub2. rewrite lookup_insert. case_decide as Hk; [by intros [= <-]|].
    intros Hpub2 Hd2. destruct (C3 k pub2 Hpub2 Hd2) as (l2 & p2 & Hp2 & Hr2 & Hk2).
    exists l2, p2. split; [|done]. rewrite lookup_insert_ne; [done|].
    intros <-. congruence.
  - intros k u' l2. rewrite lookup_insert. case_decide as Hk.
    + intros [= <-]. subst k. rewrite activos_tras_devolver.
      assert (Hin : l ∈ usr_prestamos_activos u) by (apply (C4 _ _ _ Hu); eauto).
      rewrite bool_decide_eq_true_2 by done.
      rewrite list_remove_elem_of by (by eapply C5).
      rewrite (C4 _ _ l2 Hu). rewrite lookup_insert. case_decide as Hl.
      * subst l2. split; [by intros [_ ?]|].
        intros (p' & [= <-] & _ & Hr'). by rewrite real_tras_devolver in Hr'.
      * split; [by intros [? _]|]. intros H'. split; [done|congruence].
    + intros Hu'. rewrite (C4 _ _ l2 Hu'). rewrite lookup_insert. case_decide as Hl.
      * subst l2. split.
        -- intros (p' & Hp' & Hk' & _). congruence.
        -- intros (p' & [= <-] & _ & Hr'). by rewrite real_tras_devolver in Hr'.
      * done.
  - intros k u'. rewrite lookup_insert. case_decide as Hk; [|by apply C5].
    intros [= <-]. rewrite activos_tras_devolver. case_bool_decide.
    + apply list_remove_NoDup. by eapply C5.
    + by eapply C5.
  - intros l2 p2. rewrite lookup_insert. case_decide as Hl.
    + intros [= <-].
      assert (Hsame : pre_usuario
                (if pre_fecha_devolucion_esperada p <? now
                 then set_penalizacion
                        (calcular_penalizacion_retraso pub
                           (dias_entre now (pre_fecha_devolucion_esperada p)))
                        (set_fecha_devolucion_real (Some now) p)
                 else set_fecha_devolucion_real (Some now) p) = pre_usuario p)
        by (by destruct (pre_fecha_devolucion_esperada p <? now)).
      rewrite Hsame, lookup_insert_eq. by eexists.
    + intros Hp2. apply is_Some_insert. by eapply C6.
Qed.

Lemma coherente_tras_crear h self b usuario u publicacion pub now :
  coherente h →
  usuarios h !! usuario = Some u →
  publicaciones h !! publicacion = Some pub →
  pub_disponible pub = true →
  coherente (heap_tras_crear h self b usuario u publicacion pub now).
Proof.
  intros [C1 C2 C3 C4 C5 C6] Hu Hpub Hd.
  pose proof (fresh_prestamo_nuevo h) as Hfresh.
  assert (Hlibre : ∀ l p, prestamos h !! l = Some p →
            pre_fecha_devolucion_real p = None → pre_publicacion p ≠ publicacion).
  { intros l p Hp Hr Heq. destruct (C1 l p Hp Hr) as (pub0 & Hpub0 & Hd0).
    rewrite Heq in Hpub0. congruence. }
  unfold heap_tras_crear. split; simpl.
  - intros l p. rewrite lookup_insert. case_decide as Hl.
    + intros [= <-] _. simpl. rewrite lookup_insert_eq. by eexists.
    + intros Hp Hr. destruct (C1 l p Hp Hr) as (pub0 & Hpub0 & Hd0).
      exists pub0. split; [|done]. rewrite lookup_insert_ne; [done|].
      intros Heq. by eapply Hlibre.
  - intros l1 l2 p1 p2. rewrite !lookup_insert.
    case_decide as H1; case_decide as H2.
    + congruence.
    + intros [= <-] Hp2 _ Hr2 Heq. simpl in Heq. exfalso. by eapply Hlibre.
    + intros Hp1 [= <-] Hr1 _ Heq. simpl in Heq. exfalso. by eapply Hlibre.
    + apply C2.
  - intros k pub0. rewrite lookup_insert. case_decide as Hk.
    + intros _ _. subst k. eexists _, _. rewrite lookup_insert_eq. done.
    + intros Hpub0 Hd0. destruct (C3 k pub0 Hpub0 Hd0) as (l2 & p2 & Hp2 & Hr2 & Hk2).
      exists l2, p2. split; [|done]. rewrite lookup_insert_ne; [done|].
      intros <-. congruence.
  - intros k u' l. rewrite lookup_insert. case_decide as Hk.
    + intros [= <-]. subst k. simpl. rewrite elem_of_app, list_elem_of_singleton.
      rewrite (C4 _ _ l Hu). rewrite lookup_insert. case_decide as Hl.
      * subst l. split; [intros _; by eexists|by right].
      * split; [intros [H'|H']; [done|congruence]|by left].
    + intros Hu'. rewrite (C4 _ _ l Hu'). rewrite lookup_insert. case_decide as Hl.
      * subst l. split.
        -- intros (p' & Hp' & _). congruence.
        -- intros (p' & [= <-] & Hk' & _). simpl in Hk'. congruence.
      * done.
  - intros k u'. rewrite lookup_insert. case_decide as Hk; [|by apply C5].
    intros [= <-]. simpl. apply NoDup_app. split; [by eapply C5|].
    split; [|apply NoDup_singleton].
    intros l Hl ->%list_elem_of_singleton.
    apply (C4 _ _ _ Hu) in Hl as (p' & Hp' & _). congruence.
  - intros l p. rewrite lookup_insert. case_decide as Hl.
    + intros [= <-]. simpl. rewrite lookup_insert_eq. by eexists.
    + intros Hp. apply is_Some_insert. by eapply C6.
Qed.

Lemma paso_coherente c h :
  por_catalogo c = true → coherente h → coherente (paso c h).
Proof.
  intros Hc Hco.
  destruct c as [id titulo anio autor isbn|id titulo anio n|id titulo anio d
                |id nombre email|id usuario publicacion dias now| |pl|pl|ul ll|ul ll
                |ul monto|ul monto|ll now|bl pl|bl ul|bl uid pid now];
    try discriminate Hc; clear Hc.
  - desplegar_metodos. by apply coherente_alloc_publicacion.
  - desplegar_metodos. by apply coherente_alloc_publicacion.
  - desplegar_metodos. by apply coherente_alloc_publicacion.
  - (* CUsuario *)
    desplegar_metodos. apply coherente_usuarios_igual; [| |done].
    + intros k u'. rewrite lookup_insert. case_decide.
      * intros [= <-]. right. subst k. split; [apply fresh_usuario_nuevo|done].
      * intros Hu'. left. by exists u'.
    + intros k Hk. by apply is_Some_insert.
  - (* CBiblioteca *)
    desplegar_metodos. by destruct Hco.
  - (* CPagarPenalizacion *)
    desplegar_metodos. destruct (usuarios h !! ul) as [u|] eqn:Eu; simpl; [|done].
    destruct (usr_penalizacion_acumulada u <? monto)%float; simpl; [done|].
    apply coherente_usuarios_igual; [| |done].
    + intros k u'. rewrite lookup_insert. case_decide.
      * intros [= <-]. left. subst k. by exists u.
      * intros Hu'. left. by exists u'.
    + intros k Hk. by apply is_Some_insert.
  - (* CDevolver *)
    unfold paso, ejecutar.
    destruct (prestamos h !! ll) as [p|] eqn:Ep.
    2:{ unfold devolver. desplegar. by rewrite Ep. }
    destruct (pre_fecha_devolucion_real p) as [t|] eqn:Er.
    { by rewrite (devolver_ya_devuelto _ _ _ _ _ Ep Er). }
    destruct (co_publicacion_prestada h Hco ll p Ep Er) as (pub & Hpub & Hd).
    destruct (co_usuario h Hco ll p Ep) as [u Hu].
    rewrite (devolver_exito_si _ now _ _ _ _ Ep Er Hpub Hd Hu). simpl.
    by apply coherente_tras_devolver.
  - (* CAgregarPublicacion *)
    desplegar_metodos. destruct (bibliotecas h !! bl); simpl; [|done]. by destruct Hco.
  - (* CAgregarUsuario *)
    desplegar_metodos. destruct (bibliotecas h !! bl); simpl; [|done]. by destruct Hco.
  - (* CCrearPrestamo *)
    unfold paso, ejecutar. rewrite descartar_heap.
    destruct (crear_prestamo_resultado bl uid pid now h)
      as [bb usuario u publicacion pub Hb Hbu Hu Hbp Hpub Hpuede Hd Hr|]; [|done].
    by apply coherente_tras_crear.
Qed.

Lemma alcanzable_por_catalogo_coherente h : alcanzable_por_catalogo h → coherente h.
Proof.
  induction 1 as [|h c _ IH Hc _]; [apply coherente_vacio|by apply paso_coherente].
Qed.

Lemma alcanzable_por_catalogo_alcanzable h : alcanzable_por_catalogo h → alcanzable h.
Proof. induction 1; by constructor. Qed.

Lemma alcanzable_por_catalogo_correr cs h :
  alcanzable_por_catalogo h → programa_de_catalogo cs h = true →
  alcanzable_por_catalogo (correr cs h).
Proof.
  revert h. induction cs as [|c cs IH]; intros h Hh Hv; simpl in *; [done|].
  apply andb_true_iff in Hv as [Hv Hcs]. apply andb_true_iff in Hv as [Hc Hv].
  apply IH; [|done]. by constructor.
Qed.

Lemma alcanzable_por_catalogo_ejemplo_prestado : alcanzable_por_catalogo ejemplo_prestado.
Proof.
  assert (Heq : ejemplo_prestado =
                correr (programa_catalogo ++ [CCrearPrestamo 0%nat 1 1 t0]) heap_vacio)
    by (vm_compute; reflexivity).
  rewrite Heq. apply alcanzable_por_catalogo_correr; [constructor|vm_compute; reflexivity].
Qed.

(** In a store produced through catalogs, returning a loan that has not been
    returned always succeeds: the publication becomes available, and the
    loan leaves the user's active loans, which become one fewer. *)
Theorem devolver_prestamo_activo_no_falla (h : Heap) (l : loc) (p : Prestamo)
    (now : datetime) :
  alcanzable_por_catalogo h →
  prestamos h !! l = Some p →
  pre_fecha_devolucion_real p = None →
  ∃ h' pub' u u',
    devolver l now h = (h', inr tt) ∧
    publicaciones h' !! pre_publicacion p = Some pub' ∧ pub_disponible pub' = true ∧
    usuarios h !! pre_usuario p = Some u ∧
    usuarios h' !! pre_usuario p = Some u' ∧
    l ∈ usr_prestamos_activos u ∧
    (l ∉ usr_prestamos_activos u') ∧
    S (length (usr_prestamos_activos u')) = length (usr_prestamos_activos u).
Proof.
  intros Hco%alcanzable_por_catalogo_coherente Hp Hr.
  destruct (co_publicacion_prestada h Hco l p Hp Hr) as (pub & Hpub & Hd).
  destruct (co_usuario h Hco l p Hp) as [u Hu].
  assert (Hin : l ∈ usr_prestamos_activos u) by (apply (co_activos h Hco _ _ _ Hu); eauto).
  eexists _, _, u, _.
  split; [by apply (devolver_exito_si _ now _ _ _ _ Hp Hr Hpub Hd Hu)|].
  unfold heap_tras_devolver; simpl. rewrite !lookup_insert_eq.
  split; [done|]. split; [done|]. split; [done|]. split; [done|]. split; [done|].
  rewrite activos_tras_devolver, bool_decide_eq_true_2 by done.
  split.
  - rewrite list_remove_elem_of by (by eapply co_activos_sin_repetir). by intros [_ ?].
  - by apply list_remove_length_elem.
Qed.

Lemma devolver_prestamo_activo_no_falla_witness :
  ∃ h' pub' u u',
    devolver 0%nat (t0 + us_per_day) ejemplo_prestado = (h', inr tt) ∧
    publicaciones h' !! 0%nat = Some pub' ∧ pub_disponible pub' = true ∧
    usuarios ejemplo_prestado !! 0%nat = Some u ∧
    usuarios h' !! 0%nat = Some u' ∧
    0%nat ∈ usr_prestamos_activos u ∧
    (0%nat ∉ usr_prestamos_activos u') ∧
    S (length (usr_prestamos_activos u')) = length (usr_prestamos_activos u).
Proof.
  apply (devolver_prestamo_activo_no_falla ejemplo_prestado 0%nat
           (mkPrestamo 1 0%nat 0%nat t0 (t0 + 7 * us_per_day) None 0.0%float)
           (t0 + us_per_day)).
  - exact alcanzable_por_catalogo_ejemplo_prestado.
  - vm_compute; reflexivity.
  - reflexivity.
Defined.

(** In a store produced through catalogs, a publication is unavailable
    exactly when a loan of it has not been returned, and there is at most
    one such loan. *)
Theorem no_disponible_sii_prestada (h : Heap) (k : loc) (pub : Publicacion) :
  alcanzable_por_catalogo h →
  publicaciones h !! k = Some pub →
  (pub_disponible pub = false ↔
   ∃ l p, prestamos h !! l = Some p ∧ pre_fecha_devolucion_real p = None ∧
     pre_publicacion p = k) ∧
  (∀ l1 l2 p1 p2,
     prestamos h !! l1 = Some p1 → pre_fecha_devolucion_real p1 = None →
     pre_publicacion p1 = k →
     prestamos h !! l2 = Some p2 → pre_fecha_devolucion_real p2 = None →
     pre_publicacion p2 = k → l1 = l2).
Proof.
  intros Hco%alcanzable_por_catalogo_coherente Hpub. split; [split|].
  - by apply (co_no_disponible_prestada h Hco).
  - intros (l & p & Hp & Hr & Hk).
    destruct (co_publicacion_prestada h Hco l p Hp Hr) as (pub0 & Hpub0 & Hd0).
    congruence.
  - intros l1 l2 p1 p2 Hp1 Hr1 Hk1 Hp2 Hr2 Hk2.
    apply (co_un_prestamo_por_publicacion h Hco l1 l2 p1 p2); congruence.
Qed.

Lemma no_disponible_sii_prestada_witness :
  (pub_disponible (mkPublicacion 1 "Python Crash Course" 2019 false
                     (Libro "Eric Matthes" "123")) = false ↔
   ∃ l p, prestamos ejemplo_prestado !! l = Some p ∧
     pre_fecha_devolucion_real p = None ∧ pre_publicacion p = 0%nat) ∧
  (∀ l1 l2 p1 p2,
     prestamos ejemplo_prestado !! l1 = Some p1 → pre_fecha_devolucion_real p1 = None →
     pre_publicacion p1 = 0%nat →
     prestamos ejemplo_prestado !! l2 = Some p2 → pre_fecha_devolucion_real p2 = None →
     pre_publicacion p2 = 0%nat → l1 = l2).
Proof.
  apply no_disponible_sii_prestada.
  - exact alcanzable_por_catalogo_ejemplo_prestado.
  - vm_compute; reflexivity.
Defined.

(** In a store produced through catalogs, the active loans of a user are
    exactly the loans of that user that have not been returned, each listed
    once. *)
Theorem activos_son_los_no_devueltos (h : Heap) (k : loc) (u : Usuario) :
  alcanzable_por_catalogo h →
  usuarios h !! k = Some u →
  NoDup (usr_prestamos_activos u) ∧
  ∀ l, l ∈ usr_prestamos_activos u ↔
       ∃ p, prestamos h !! l = Some p ∧ pre_usuario p = k ∧
         pre_fecha_devolucion_real p = None.
Proof.
  intros Hco%alcanzable_por_catalogo_coherente Hu. split.
  - by eapply co_activos_sin_repetir.
  - intros l. by apply co_activos.
Qed.

Lemma activos_son_los_no_devueltos_witness :
  NoDup [0%nat] ∧
  ∀ l, l ∈ [0%nat] ↔
       ∃ p, prestamos ejemplo_prestado !! l = Some p ∧ pre_usuario p = 0%nat ∧
         pre_fecha_devolucion_real p = None.
Proof.
  apply (activos_son_los_no_devueltos ejemplo_prestado 0%nat
           (mkUsuario 1 "Ana" "ana@example.com" [0%nat] 0.0%float)).
  - exact alcanzable_por_catalogo_ejemplo_prestado.
  - vm_compute; reflexivity.
Defined.

(** *** Creating and returning through a catalog *)

Lemma buscar_usuario_resultado self uid h b r :
  bibliotecas h !! self = Some b →
  buscar_usuario self uid h = (h, r) →
  (buscar_usuario_en (bib_usuarios b) uid h).2 = r.
Proof. intros Hb. rewrite (buscar_usuario_desplegado _ _ _ _ Hb). by intros ->. Qed.

Lemma buscar_publicacion_desplegado self pid h b :
  bibliotecas h !! self = Some b →
  buscar_publicacion self pid h = buscar_publicacion_en (bib_publicaciones b) pid h.
Proof. intros H. unfold buscar_publicacion. desplegar. by rewrite H. Qed.

Lemma buscar_publicacion_resultado self pid h b r :
  bibliotecas h !! self = Some b →
  buscar_publicacion self pid h = (h, r) →
  (buscar_publicacion_en (bib_publicaciones b) pid h).2 = r.
Proof. intros Hb. rewrite (buscar_publicacion_desplegado _ _ _ _ Hb). by intros ->. Qed.

(** When every check passes and the due date is representable,
    [crear_prestamo] returns a new loan, whose id is the catalog's counter
    and which is due 7 days after [now]; the publication becomes
    unavailable, the loan is appended to the user's active loans and to the
    catalog's loans, the counter grows by one, and nothing else changes. *)
Theorem crear_prestamo_exito (self : loc) (uid pid : Z) (now : datetime) (h : Heap)
    (b : Biblioteca) (usuario publicacion : loc) (u : Usuario) (pub : Publicacion) :
  bibliotecas h !! self = Some b →
  buscar_usuario self uid h = (h, inr (Some usuario)) →
  buscar_publicacion self pid h = (h, inr (Some publicacion)) →
  usuarios h !! usuario = Some u →
  puede_pedir_prestamo_obj u = true →
  publicaciones h !! publicacion = Some pub →
  pub_disponible pub = true →
  0 ≤ now + 7 * us_per_day ≤ datetime_max →
  crear_prestamo self uid pid now h =
    (mkHeap
       (<[publicacion := mkPublicacion (pub_id pub) (pub_titulo pub) (pub_anio pub)
                           false (pub_clase pub)]> (publicaciones h))
       (<[usuario := mkUsuario (usr_id u) (usr_nombre u) (usr_email u)
                       (usr_prestamos_activos u ++ [fresh (dom (prestamos h))])
                       (usr_penalizacion_acumulada u)]>
          (usuarios h))
       (<[fresh (dom (prestamos h)) :=
            mkPrestamo (bib_next_prestamo_id b) usuario publicacion now
              (now + 7 * us_per_day) None 0.0%float]> (prestamos h))
       (<[self := mkBiblioteca (bib_publicaciones b) (bib_usuarios b)
                    (bib_prestamos b ++ [fresh (dom (prestamos h))])
                    (bib_next_prestamo_id b + 1)]> (bibliotecas h)),
     inr (fresh (dom (prestamos h)))).
Proof.
  intros Hb Hbu Hbp Hu Hpuede Hpub Hd Hrango.
  apply (buscar_usuario_resultado _ _ _ _ _ Hb) in Hbu.
  apply (buscar_publicacion_resultado _ _ _ _ _ Hb) in Hbp.
  pose proof (crear_prestamo_resultado self uid pid now h) as Hr.
  destruct (crear_prestamo self uid pid now h) as [h' r]; simpl in Hr.
  inversion Hr as [b' usuario' u' publicacion' pub' Hb' Hbu' Hu' Hbp' Hpub' _ _ _|e Hcausa];
    subst.
  - rewrite Hb in Hb'. injection Hb' as <-.
    rewrite Hbu in Hbu'. injection Hbu' as <-.
    rewrite Hbp in Hbp'. injection Hbp' as <-.
    rewrite Hu in Hu'. injection Hu' as <-.
    rewrite Hpub in Hpub'. injection Hpub' as <-.
    reflexivity.
  - exfalso. inversion Hcausa as [Hb'|b' Hb' Hbu'|b' Hb' Hbu'|b' Hb' Hbp'|b' Hb' Hbp'
                                 |b' usuario' u' Hb' Hbu' Hu' Hno
                                 |b' publicacion' pub' Hb' Hbp' Hpub' Hno|Hno]; subst;
      try (rewrite Hb in Hb'; simplify_eq).
    + congruence.
    + congruence.
    + congruence.
    + congruence.
    + rewrite Hbu in Hbu'. simplify_eq. congruence.
    + rewrite Hbp in Hbp'. simplify_eq. congruence.
    + apply Hno. unfold dias_prestamo_por_defecto. lia.
Qed.

Lemma crear_prestamo_exito_witness :
  ∃ h', crear_prestamo 0%nat 1 1 t0 ejemplo_catalogo = (h', inr 0%nat) ∧
    h' = ejemplo_prestado ∧
    publicaciones h' !! 0%nat =
      Some (mkPublicacion 1 "Python Crash Course" 2019 false (Libro "Eric Matthes" "123")) ∧
    usuarios h' !! 0%nat = Some (mkUsuario 1 "Ana" "ana@example.com" [0%nat] 0.0%float) ∧
    prestamos h' !! 0%nat =
      Some (mkPrestamo 1 0%nat 0%nat t0 (t0 + 7 * us_per_day) None 0.0%float) ∧
    bibliotecas h' !! 0%nat =
      Some (mkBiblioteca [0%nat; 1%nat; 2%nat; 3%nat] [0%nat; 1%nat] [0%nat] 2).
Proof.
  eexists. split; [|repeat split; vm_compute; reflexivity].
  - apply (crear_prestamo_exito 0%nat 1 1 t0 ejemplo_catalogo
             (mkBiblioteca [0%nat; 1%nat; 2%nat; 3%nat] [0%nat; 1%nat] [] 1)
             0%nat 0%nat
             (mkUsuario 1 "Ana" "ana@example.com" [] 0.0%float)
             (mkPublicacion 1 "Python Crash Course" 2019 true (Libro "Eric Matthes" "123")));
      try (vm_compute; reflexivity).
    unfold t0, datetime_max, us_per_day. lia.
Defined.

Lemma list_remove_app_nuevo x (l : list loc) : x ∉ l → list_remove x (l ++ [x]) = l.
Proof.
  induction l as [|y l IH]; simpl; intros Hx.
  - by rewrite decide_True.
  - rewrite decide_False by (intros ->; apply Hx; by left).
    rewrite IH; [done|]. intros Hin. apply Hx. by right.
Qed.

Lemma remover_agregar_prestamo_obj l u :
  l ∉ usr_prestamos_activos u →
  remover_prestamo_obj l (agregar_prestamo_obj l u) = u.
Proof.
  intros Hl. unfold remover_prestamo_obj, agregar_prestamo_obj; simpl.
  rewrite bool_decide_eq_true_2 by (apply elem_of_app; right; by left).
  unfold set_prestamos_activos; simpl. rewrite list_remove_app_nuevo by done.
  by destruct u.
Qed.

(** Borrowing through the catalog and returning by the due date restores
    every publication and every user: only the loan record and the
    catalog's list and counter remain. *)
Theorem crear_y_devolver_a_tiempo (self : loc) (uid pid : Z) (t t' : datetime)
    (h h1 : Heap) (l : loc) :
  alcanzable h →
  crear_prestamo self uid pid t h = (h1, inr l) →
  t' ≤ t + 7 * us_per_day →
  ∃ h2, devolver l t' h1 = (h2, inr tt) ∧
    publicaciones h2 = publicaciones h ∧
    usuarios h2 = usuarios h.
Proof.
  intros Hbf%alcanzable_bien_formado Hc Ht.
  apply crear_prestamo_exito_inv in Hc
    as (b & usuario & u & publicacion & pub & Hb & Hbu & Hu & Hpub & Hpuede & Hd & -> & ->).
  assert (Hl : fresh (dom (prestamos h)) ∉ usr_prestamos_activos u).
  { intros Hin. destruct (bf_usuario_prestamos h Hbf _ _ _ Hu Hin) as [p Hp].
    by rewrite fresh_prestamo_nuevo in Hp. }
  eexists. split.
  - apply devolver_exito_si; unfold heap_tras_crear; simpl.
    + apply lookup_insert_eq.
    + done.
    + apply lookup_insert_eq.
    + done.
    + apply lookup_insert_eq.
  - unfold heap_tras_devolver, heap_tras_crear; simpl.
    assert (Hno : (t + dias_prestamo_por_defecto * us_per_day <? t') = false)
      by (apply Z.ltb_ge; unfold dias_prestamo_por_defecto; lia).
    rewrite Hno, !insert_insert_eq. split.
    + apply insert_id. rewrite Hpub. f_equal. destruct pub; simpl in *. by subst.
    + apply insert_id. rewrite Hu. f_equal. by rewrite remover_agregar_prestamo_obj.
Qed.

Lemma crear_y_devolver_a_tiempo_witness :
  ∃ h2, devolver 0%nat (t0 + 7 * us_per_day) ejemplo_prestado = (h2, inr tt) ∧
    publicaciones h2 = publicaciones ejemplo_catalogo ∧
    usuarios h2 = usuarios ejemplo_catalogo.
Proof.
  apply (crear_y_devolver_a_tiempo 0%nat 1 1 t0 (t0 + 7 * us_per_day) ejemplo_catalogo).
  - assert (Heq : ejemplo_catalogo = correr programa_catalogo heap_vacio) by reflexivity.
    rewrite Heq. apply alcanzable_correr; [constructor|vm_compute; reflexivity].
  - vm_compute; reflexivity.
  - lia.
Defined.

Lemma paso_prestamo_id c h l p :
  prestamos h !! l = Some p →
  ∃ p', prestamos (paso c h) !! l = Some p' ∧ pre_id p' = pre_id p.
Proof.
  intros Hp.
  destruct (paso_prestamos c h) as [->|[(p0 & _ & _ & ->)|(l0 & p0 & q & now & Hp0 & Hr0 & ->)]].
  - by exists p.
  - exists p. split; [|done]. rewrite lookup_insert_ne; [done|].
    intros <-. by rewrite fresh_prestamo_nuevo in Hp.
  - rewrite lookup_insert. case_decide as Hl.
    + subst l0. rewrite Hp in Hp0. injection Hp0 as <-. by eexists.
    + by exists p.
Qed.

Lemma paso_bibliotecas c h k b' :
  bibliotecas (paso c h) !! k = Some b' →
  (bibliotecas h !! k = None ∧ bib_prestamos b' = [] ∧ bib_next_prestamo_id b' = 1) ∨
  (∃ b, bibliotecas h !! k = Some b ∧ bib_prestamos b' = bib_prestamos b ∧
     bib_next_prestamo_id b' = bib_next_prestamo_id b) ∨
  (∃ b l p, bibliotecas h !! k = Some b ∧ prestamos h !! l = None ∧
     prestamos (paso c h) !! l = Some p ∧ pre_id p = bib_next_prestamo_id b ∧
     bib_prestamos b' = bib_prestamos b ++ [l] ∧
     bib_next_prestamo_id b' = bib_next_prestamo_id b + 1).
Proof.
  destruct c as [id titulo anio autor isbn|id titulo anio n|id titulo anio d
                |id nombre email|id usuario publicacion dias now| |pl|pl|ul ll|ul ll
                |ul monto|ul monto|ll now|bl pl|bl ul|bl uid pid now];
    try (desplegar_metodos; repeat (case_match; simplify_eq/=);
         intros Hk; right; left; by exists b').
  - (* CPrestamo *)
    unfold paso, ejecutar. rewrite descartar_heap.
    destruct (new_Prestamo id usuario publicacion dias now h) as [h' [e|l]] eqn:E.
    + revert E. unfold new_Prestamo, timedelta_days, datetime_add. desplegar.
      repeat case_match; simpl; intros [= <-]; intros Hk; right; left; by exists b'.
    + apply new_Prestamo_inv in E as (_ & _ & _ & ->). simpl.
      intros Hk; right; left; by exists b'.
  - (* CBiblioteca *)
    desplegar_metodos. rewrite lookup_insert. case_decide as Hk.
    + intros [= <-]. left. subst k. split; [|done].
      apply not_elem_of_dom. apply is_fresh.
    + intros Hb. right; left. by exists b'.
  - (* CDevolver *)
    unfold paso, ejecutar. destruct (devolver_efecto ll now h) as (-> & _).
    intros Hk; right; left; by exists b'.
  - (* CAgregarPublicacion *)
    desplegar_metodos. destruct (bibliotecas h !! bl) as [b|] eqn:Eb; simpl.
    + rewrite lookup_insert. case_decide as Hk.
      * intros [= <-]. subst k. right; left. by exists b.
      * intros Hb. right; left. by exists b'.
    + intros Hk; right; left; by exists b'.
  - (* CAgregarUsuario *)
    desplegar_metodos. destruct (bibliotecas h !! bl) as [b|] eqn:Eb; simpl.
    + rewrite lookup_insert. case_decide as Hk.
      * intros [= <-]. subst k. right; left. by exists b.
      * intros Hb. right; left. by exists b'.
    + intros Hk; right; left; by exists b'.
  - (* CCrearPrestamo *)
    unfold paso, ejecutar. rewrite descartar_heap.
    destruct (crear_prestamo_resultado bl uid pid now h)
      as [bb usuario u publicacion pub Hb Hbu Hu Hbp Hpub Hpuede Hd Hr|];
      [|intros Hk; right; left; by exists b'].
    simpl. rewrite lookup_insert. case_decide as Hk.
    + intros [= <-]. subst k. right; right.
      eexists bb, (fresh (dom (prestamos h))), _.
      split; [done|]. split; [apply fresh_prestamo_nuevo|].
      split; [apply lookup_insert_eq|]. done.
    + intros Hb'. right; left. by exists b'.
Qed.

Lemma paso_ids_en_orden c h :
  (∀ k b, bibliotecas h !! k = Some b → ids_en_orden h b) →
  ∀ k b, bibliotecas (paso c h) !! k = Some b → ids_en_orden (paso c h) b.
Proof.
  intros Hinv k b' Hb'.
  destruct (paso_bibliotecas c h k b' Hb')
    as [(_ & Hl & Hn)|[(b & Hb & Hl & Hn)|(b & l & p & Hb & Hnuevo & Hp & Hid & Hl & Hn)]].
  - split; [by rewrite Hl, Hn|]. rewrite Hl. intros i l0. by rewrite lookup_nil.
  - destruct (Hinv k b Hb) as [Hnext Hids]. split; [by rewrite Hl, Hn|].
    rewrite Hl. intros i l0 Hi. destruct (Hids i l0 Hi) as (p & Hp & Hid).
    destruct (paso_prestamo_id c h l0 p Hp) as (p' & Hp' & Hid').
    exists p'. split; [done|congruence].
  - destruct (Hinv k b Hb) as [Hnext Hids]. split.
    + rewrite Hl, Hn, Hnext, length_app. simpl. lia.
    + rewrite Hl. intros i l0 Hi.
      apply lookup_app_Some in Hi as [Hi|[Hlen Hi]].
      * destruct (Hids i l0 Hi) as (p0 & Hp0 & Hid0).
        destruct (paso_prestamo_id c h l0 p0 Hp0) as (p' & Hp' & Hid').
        exists p'. split; [done|congruence].
      * apply list_lookup_singleton_Some in Hi as [Hi <-].
        exists p. split; [done|]. rewrite Hid, Hnext. lia.
Qed.

(** The loans of a catalog carry the ids 1, 2, 3, ... in the order of their
    creation, and the catalog's counter is the next id. *)
Theorem ids_de_prestamos_consecutivos (h : Heap) (k : loc) (b : Biblioteca) :
  alcanzable h →
  bibliotecas h !! k = Some b →
  bib_next_prestamo_id b = 1 + Z.of_nat (length (bib_prestamos b)) ∧
  ∀ (i : nat) l, bib_prestamos b !! i = Some l →
    ∃ p, prestamos h !! l = Some p ∧ pre_id p = 1 + Z.of_nat i.
Proof.
  intros Halc. revert k b.
  induction Halc as [|h c _ IH _].
  - intros k b. unfold heap_vacio; simpl. by rewrite lookup_empty.
  - apply (paso_ids_en_orden c h IH).
Qed.

Lemma alcanzable_ejemplo_limite : alcanzable ejemplo_limite.
Proof.
  assert (Heq : ejemplo_limite =
                correr (programa_catalogo ++
                          [CCrearPrestamo 0%nat 1 1 t0; CCrearPrestamo 0%nat 1 2 t0;
                           CCrearPrestamo 0%nat 1 3 t0]) heap_vacio)
    by (vm_compute; reflexivity).
  rewrite Heq. apply alcanzable_correr; [constructor|vm_compute; reflexivity].
Qed.

Lemma ids_de_prestamos_consecutivos_witness :
  4 = 1 + Z.of_nat (length [0%nat; 1%nat; 2%nat]) ∧
  ∀ (i : nat) l, [0%nat; 1%nat; 2%nat] !! i = Some l →
    ∃ p, prestamos ejemplo_limite !! l = Some p ∧ pre_id p = 1 + Z.of_nat i.
Proof.
  apply (ids_de_prestamos_consecutivos ejemplo_limite 0%nat
           (mkBiblioteca [0%nat; 1%nat; 2%nat; 3%nat] [0%nat; 1%nat]
              [0%nat; 1%nat; 2%nat] 4)).
  - exact alcanzable_ejemplo_limite.
  - vm_compute; reflexivity.
Defined.

Lemma pagar_penalizacion_suficiente h l u monto :
  usuarios h !! l = Some u →
  (usr_penalizacion_acumulada u <? monto)%float = false →
  pagar_penalizacion l monto h =
    (mkHeap (publicaciones h)
       (<[l := mkUsuario (usr_id u) (usr_nombre u) (usr_email u)
                 (usr_prestamos_activos u)
                 (usr_penalizacion_acumulada u - monto)%float]> (usuarios h))
       (prestamos h) (bibliotecas h),
     inr tt).
Proof.
  intros Hu Hle.
  unfold pagar_penalizacion, pagar_penalizacion_obj. desplegar.
  rewrite Hu; simpl. by rewrite Hle.
Qed.

(** [pagar_penalizacion] raises exactly when the amount is greater than the
    balance, changing nothing; otherwise it replaces the balance of that
    user by the double [balance - amount] and changes nothing else.  It
    does not reject a negative amount: with a balance that is not below
    zero, paying one succeeds. *)
Theorem pagar_penalizacion_comportamiento (h : Heap) (l : loc) (u : Usuario)
    (monto : float) :
  usuarios h !! l = Some u →
  ((usr_penalizacion_acumulada u <? monto)%float = true →
     pagar_penalizacion l monto h = (h, inl (ValueError msg_excede))) ∧
  ((usr_penalizacion_acumulada u <? monto)%float = false →
     pagar_penalizacion l monto h =
       (mkHeap (publicaciones h)
          (<[l := mkUsuario (usr_id u) (usr_nombre u) (usr_email u)
                    (usr_prestamos_activos u)
                    (usr_penalizacion_acumulada u - monto)%float]> (usuarios h))
          (prestamos h) (bibliotecas h),
        inr tt)) ∧
  ((monto <? 0)%float = true → (0 <=? usr_penalizacion_acumulada u)%float = true →
     ∃ h', pagar_penalizacion l monto h = (h', inr tt)).
Proof.
  intros Hu.
  pose proof (pagar_penalizacion_suficiente h l u monto Hu) as Hok.
  split; [|split; [done|]].
  - intros Hlt.
    unfold pagar_penalizacion, pagar_penalizacion_obj. desplegar.
    rewrite Hu; simpl. by rewrite Hlt.
  - intros Hneg Hpos. eexists. apply Hok. by apply ltb_negativo_no_negativo.
Qed.

Lemma pagar_penalizacion_comportamiento_witness :
  pagar_penalizacion 1%nat 8 ejemplo_penalizado =
    (ejemplo_penalizado, inl (ValueError msg_excede)) ∧
  pagar_penalizacion 1%nat 2 ejemplo_penalizado =
    (mkHeap (publicaciones ejemplo_penalizado)
       (<[1%nat := mkUsuario 2 "Carlos" "carlos@example.com" [] 3.0%float]>
          (usuarios ejemplo_penalizado))
       (prestamos ejemplo_penalizado) (bibliotecas ejemplo_penalizado),
     inr tt) ∧
  pagar_penalizacion 1%nat (-3) ejemplo_penalizado =
    (mkHeap (publicaciones ejemplo_penalizado)
       (<[1%nat := mkUsuario 2 "Carlos" "carlos@example.com" [] 8.0%float]>
          (usuarios ejemplo_penalizado))
       (prestamos ejemplo_penalizado) (bibliotecas ejemplo_penalizado),
     inr tt).
Proof.
  destruct (pagar_penalizacion_comportamiento ejemplo_penalizado 1%nat
              (mkUsuario 2 "Carlos" "carlos@example.com" [] 5.0%float) 8)
    as (H1 & _ & _); [vm_compute; reflexivity|].
  destruct (pagar_penalizacion_comportamiento ejemplo_penalizado 1%nat
              (mkUsuario 2 "Carlos" "carlos@example.com" [] 5.0%float) 2)
    as (_ & H2 & _); [vm_compute; reflexivity|].
  destruct (pagar_penalizacion_comportamiento ejemplo_penalizado 1%nat
              (mkUsuario 2 "Carlos" "carlos@example.com" [] 5.0%float) (-3))
    as (_ & H3 & _); [vm_compute; reflexivity|].
  split; [apply H1; vm_compute; reflexivity|].
  split; [apply H2; vm_compute; reflexivity|].
  apply H3; vm_compute; reflexivity.
Defined.

(** A user who owes a penalty may not borrow; paying the whole balance
    leaves no penalty to pay (the balance is zero, unless it was infinite),
    the active loans as they were, and the user allowed to borrow exactly
    when the active loans are fewer than 3. *)
Theorem pago_total_habilita_prestamos (h : Heap) (l : loc) (u : Usuario) :
  usuarios h !! l = Some u →
  (0 <? usr_penalizacion_acumulada u)%float = true →
  puede_pedir_prestamo l h = (h, inr false) ∧
  ∃ u', pagar_penalizacion l (usr_penalizacion_acumulada u) h =
          (con_usuario l u' h, inr tt) ∧
    usr_penalizacion_acumulada u' =
      (usr_penalizacion_acumulada u - usr_penalizacion_acumulada u)%float ∧
    ((usr_penalizacion_acumulada u <? infinity)%float = true →
       usr_penalizacion_acumulada u' = 0%float) ∧
    (0 <? usr_penalizacion_acumulada u')%float = false ∧
    usr_prestamos_activos u' = usr_prestamos_activos u ∧
    (puede_pedir_prestamo_obj u' = true ↔ (length (usr_prestamos_activos u) < 3)%nat).
Proof.
  intros Hu Hdebe. split.
  - rewrite (puede_pedir_prestamo_Some _ _ _ Hu). f_equal. f_equal.
    destruct (puede_pedir_prestamo_obj u) eqn:E; [|done].
    apply puede_pedir_prestamo_obj_true in E as [_ Hno]. congruence.
  - eexists. split.
    + apply (pagar_penalizacion_suficiente h l u); [done|]. apply ltb_irrefl.
    + simpl. split; [done|]. split; [by apply sub_diag|].
      split; [apply sub_diag_no_positivo|]. split; [done|].
      rewrite puede_pedir_prestamo_obj_true. simpl. split; [by intros [? _]|].
      intros Hlen. split; [done|]. apply sub_diag_no_positivo.
Qed.

Lemma pago_total_habilita_prestamos_witness :
  puede_pedir_prestamo 1%nat ejemplo_penalizado = (ejemplo_penalizado, inr false) ∧
  ∃ u', pagar_penalizacion 1%nat 5.0%float ejemplo_penalizado =
          (con_usuario 1%nat u' ejemplo_penalizado, inr tt) ∧
    usr_penalizacion_acumulada u' = (5.0 - 5.0)%float ∧
    ((5.0 <? infinity)%float = true → usr_penalizacion_acumulada u' = 0%float) ∧
    (0 <? usr_penalizacion_acumulada u')%float = false ∧
    usr_prestamos_activos u' = [] ∧
    (puede_pedir_prestamo_obj u' = true ↔ (length ([] : list nat) < 3)%nat).
Proof.
  apply (pago_total_habilita_prestamos ejemplo_penalizado 1%nat
           (mkUsuario 2 "Carlos" "carlos@example.com" [] 5.0%float)).
  - vm_compute; reflexivity.
  - vm_compute; reflexivity.
Defined.

(** *** Lookups, overdue loans and days of delay *)

Lemma buscar_usuario_en_primero ls id h :
  (∀ k, k ∈ ls → is_Some (usuarios h !! k)) →
  buscar_usuario_en ls id h =
    (h, inr (head (filter (λ k, usuario_con_id h id k = true) ls))).
Proof.
  induction ls as [|l ls IH]; intros Hls; simpl; [done|].
  desplegar. destruct (Hls l) as [u Hu]; [by left|]. rewrite Hu; simpl.
  assert (Hc : usuario_con_id h id l = (usr_id u =? id))
    by (unfold usuario_con_id; by rewrite Hu).
  rewrite filter_cons.
  destruct (usr_id u =? id) eqn:E; simpl.
  - rewrite decide_True by done. done.
  - rewrite decide_False by congruence. apply IH. intros k Hk. apply Hls. by right.
Qed.

Lemma buscar_publicacion_en_primero ls id h :
  (∀ k, k ∈ ls → is_Some (publicaciones h !! k)) →
  buscar_publicacion_en ls id h =
    (h, inr (head (filter (λ k, publicacion_con_id h id k = true) ls))).
Proof.
  induction ls as [|l ls IH]; intros Hls; simpl; [done|].
  desplegar. destruct (Hls l) as [u Hu]; [by left|]. rewrite Hu; simpl.
  assert (Hc : publicacion_con_id h id l = (pub_id u =? id))
    by (unfold publicacion_con_id; by rewrite Hu).
  rewrite filter_cons.
  destruct (pub_id u =? id) eqn:E; simpl.
  - rewrite decide_True by done. done.
  - rewrite decide_False by congruence. apply IH. intros k Hk. apply Hls. by right.
Qed.

Lemma buscar_en_biblioteca (h : Heap) (self : loc) (b : Biblioteca) (id : Z) :
  bien_formado h →
  bibliotecas h !! self = Some b →
  buscar_usuario self id h =
    (h, inr (head (filter (λ k, usuario_con_id h id k = true) (bib_usuarios b)))) ∧
  buscar_publicacion self id h =
    (h, inr (head (filter (λ k, publicacion_con_id h id k = true)
                     (bib_publicaciones b)))).
Proof.
  intros Hbf Hb. split.
  - rewrite (buscar_usuario_desplegado _ _ _ _ Hb). apply buscar_usuario_en_primero.
    intros k Hk. by eapply bf_biblioteca_usuarios.
  - unfold buscar_publicacion. desplegar. rewrite Hb; simpl.
    apply buscar_publicacion_en_primero.
    intros k Hk. by eapply bf_biblioteca_publicaciones.
Qed.

(** The lookups of a catalog never raise and never change the store: each
    answers the first registered object with the given id, in the order of
    registration, and [None] when no registered object has it. *)
Theorem buscar_devuelve_el_primero (h : Heap) (self : loc) (b : Biblioteca) (id : Z) :
  bien_formado h →
  bibliotecas h !! self = Some b →
  buscar_usuario self id h =
    (h, inr (head (filter (λ k, usuario_con_id h id k = true) (bib_usuarios b)))) ∧
  buscar_publicacion self id h =
    (h, inr (head (filter (λ k, publicacion_con_id h id k = true)
                     (bib_publicaciones b)))).
Proof. apply buscar_en_biblioteca. Qed.

Lemma head_filter_app_singleton (P : loc → Prop) `{∀ x, Decision (P x)} ls k :
  P k → head (filter P (ls ++ [k])) = Some (default k (head (filter P ls))).
Proof.
  intros Hk. rewrite filter_app. rewrite (filter_cons P k []).
  rewrite decide_True by done. rewrite filter_nil.
  by destruct (filter P ls).
Qed.

(** Registering an object and looking its id up finds an object with that
    id: the one registered first with it, which is the new object exactly
    when no object registered before has the same id.  This holds of every
    user registered with [agregar_usuario] and, independently, of every
    publication registered with [agregar_publicacion]. *)
Theorem registrar_y_buscar (h : Heap) (self : loc) (b : Biblioteca) :
  bien_formado h →
  bibliotecas h !! self = Some b →
  (∀ (ku : loc) (u : Usuario),
     usuarios h !! ku = Some u →
     buscar_usuario self (usr_id u) (agregar_usuario self ku h).1 =
       ((agregar_usuario self ku h).1,
        inr (Some (default ku
                     (head (filter (λ k, usuario_con_id h (usr_id u) k = true)
                              (bib_usuarios b))))))) ∧
  (∀ (kp : loc) (pub : Publicacion),
     publicaciones h !! kp = Some pub →
     buscar_publicacion self (pub_id pub) (agregar_publicacion self kp h).1 =
       ((agregar_publicacion self kp h).1,
        inr (Some (default kp
                     (head (filter (λ k, publicacion_con_id h (pub_id pub) k = true)
                              (bib_publicaciones b))))))).
Proof.
  intros Hbf Hb. split.
  - intros ku u Hu. unfold agregar_usuario, buscar_usuario. desplegar. rewrite Hb; simpl.
    rewrite lookup_insert_eq; simpl.
    rewrite buscar_usuario_en_primero.
    + f_equal. f_equal. apply (head_filter_app_singleton
        (λ k, usuario_con_id h (usr_id u) k = true)).
      unfold usuario_con_id. rewrite Hu. apply Z.eqb_refl.
    + simpl. intros k [Hk|Hk%list_elem_of_singleton]%elem_of_app.
      * by eapply bf_biblioteca_usuarios.
      * subst k. by eexists.
  - intros kp pub Hpub. unfold agregar_publicacion, buscar_publicacion. desplegar. rewrite Hb; simpl.
    rewrite lookup_insert_eq; simpl.
    rewrite buscar_publicacion_en_primero.
    + f_equal. f_equal. apply (head_filter_app_singleton
        (λ k, publicacion_con_id h (pub_id pub) k = true)).
      unfold publicacion_con_id. rewrite Hpub. apply Z.eqb_refl.
    + simpl. intros k [Hk|Hk%list_elem_of_singleton]%elem_of_app.
      * by eapply bf_biblioteca_publicaciones.
      * subst k. by eexists.
Qed.

Lemma alcanzable_ejemplo_catalogo : alcanzable ejemplo_catalogo.
Proof.
  unfold ejemplo_catalogo. apply alcanzable_correr; [constructor|vm_compute; reflexivity].
Qed.

Lemma buscar_devuelve_el_primero_witness :
  buscar_usuario 0%nat 2 ejemplo_catalogo =
    (ejemplo_catalogo,
     inr (head (filter (λ k, usuario_con_id ejemplo_catalogo 2 k = true)
                  [0%nat; 1%nat]))) ∧
  buscar_publicacion 0%nat 2 ejemplo_catalogo =
    (ejemplo_catalogo,
     inr (head (filter (λ k, publicacion_con_id ejemplo_catalogo 2 k = true)
                  [0%nat; 1%nat; 2%nat; 3%nat]))).
Proof.
  apply (buscar_devuelve_el_primero ejemplo_catalogo 0%nat
           (mkBiblioteca [0%nat; 1%nat; 2%nat; 3%nat] [0%nat; 1%nat] [] 1) 2).
  - apply alcanzable_bien_formado, alcanzable_ejemplo_catalogo.
  - vm_compute; reflexivity.
Defined.

Lemma registrar_y_buscar_witness :
  buscar_usuario 0%nat 2 (agregar_usuario 0%nat 1%nat ejemplo_catalogo).1 =
    ((agregar_usuario 0%nat 1%nat ejemplo_catalogo).1,
     inr (Some (default 1%nat
                  (head (filter (λ k, usuario_con_id ejemplo_catalogo 2 k = true)
                           [0%nat; 1%nat]))))) ∧
  buscar_publicacion 0%nat 4 (agregar_publicacion 0%nat 3%nat ejemplo_catalogo).1 =
    ((agregar_publicacion 0%nat 3%nat ejemplo_catalogo).1,
     inr (Some (default 3%nat
                  (head (filter (λ k, publicacion_con_id ejemplo_catalogo 4 k = true)
                           [0%nat; 1%nat; 2%nat; 3%nat]))))).
Proof.
  destruct (registrar_y_buscar ejemplo_catalogo 0%nat
              (mkBiblioteca [0%nat; 1%nat; 2%nat; 3%nat] [0%nat; 1%nat] [] 1))
    as [Hu Hp].
  - apply alcanzable_bien_formado, alcanzable_ejemplo_catalogo.
  - vm_compute; reflexivity.
  - split.
    + apply (Hu 1%nat (mkUsuario 2 "Carlos" "carlos@example.com" [] 0.0%float)).
      vm_compute; reflexivity.
    + apply (Hp 3%nat (mkPublicacion 4 "Test DVD" 2020 true (DVD 120))).
      vm_compute; reflexivity.
Defined.

Lemma filtrar_vencidos_miembros ls reloj h :
  (∀ k, k ∈ ls → is_Some (prestamos h !! k)) →
  ∃ r, filtrar_vencidos ls reloj h = (h, inr r) ∧
    ∀ l, l ∈ r ↔ ∃ (i : nat) p, ls !! i = Some l ∧ prestamos h !! l = Some p ∧
                   pre_fecha_devolucion_real p = None ∧
                   pre_fecha_devolucion_esperada p < reloj i.
Proof.
  revert reloj. induction ls as [|k ls IH]; intros reloj Hls; simpl.
  - exists []. split; [done|]. intros l. split; [by intros ?%elem_of_nil|].
    by intros (i & p & Hi & _).
  - destruct (Hls k) as [pk Hpk]; [by left|].
    destruct (IH (λ i, reloj (S i))) as (r & Hr & Hmem).
    { intros j Hj. apply Hls. by right. }
    unfold esta_vencido. desplegar. rewrite Hpk; simpl. rewrite Hr; simpl.
    eexists. split; [done|]. intros l.
    assert (Hk : esta_vencido_obj pk (reloj 0%nat) = true ↔
                 pre_fecha_devolucion_real pk = None ∧
                 pre_fecha_devolucion_esperada pk < reloj 0%nat).
    { unfold esta_vencido_obj. destruct (pre_fecha_devolucion_real pk).
      - split; [done|]. by intros [? _].
      - rewrite Z.ltb_lt. split; [done|]. by intros [_ ?]. }
    assert (Hcola : l ∈ r ↔ ∃ (i : nat) p, (k :: ls) !! S i = Some l ∧
                      prestamos h !! l = Some p ∧
                      pre_fecha_devolucion_real p = None ∧
                      pre_fecha_devolucion_esperada p < reloj (S i)) by apply Hmem.
    destruct (esta_vencido_obj pk (reloj 0%nat)) eqn:E.
    + rewrite elem_of_cons, Hcola. split.
      * intros [->|(i & p & Hi)].
        -- exists 0%nat, pk. split; [done|]. split; [done|]. by apply Hk.
        -- by exists (S i), p.
      * intros ([|i] & p & Hi & Hp & Hreal & Hlate).
        -- left. by injection Hi as <-.
        -- right. by exists i, p.
    + rewrite Hcola. split.
      * intros (i & p & Hi). by exists (S i), p.
      * intros ([|i] & p & Hi & Hp & Hreal & Hlate).
        -- injection Hi as <-. rewrite Hpk in Hp. injection Hp as <-.
           assert (false = true) by (by apply Hk). done.
        -- by exists i, p.
Qed.

(** [obtener_prestamos_vencidos] changes nothing and answers exactly the
    loans of the catalog that have no return timestamp and whose due
    timestamp is before the clock reading taken for them. *)
Theorem prestamos_vencidos_exactos (h : Heap) (self : loc) (b : Biblioteca)
    (reloj : nat → datetime) :
  bien_formado h →
  bibliotecas h !! self = Some b →
  ∃ r, obtener_prestamos_vencidos self reloj h = (h, inr r) ∧
    ∀ l, l ∈ r ↔ ∃ (i : nat) p, bib_prestamos b !! i = Some l ∧
                   prestamos h !! l = Some p ∧
                   pre_fecha_devolucion_real p = None ∧
                   pre_fecha_devolucion_esperada p < reloj i.
Proof.
  intros Hbf Hb. unfold obtener_prestamos_vencidos. desplegar. rewrite Hb; simpl.
  apply filtrar_vencidos_miembros. intros k Hk. by eapply bf_biblioteca_prestamos.
Qed.

Lemma prestamos_vencidos_exactos_witness :
  ∃ r, obtener_prestamos_vencidos 0%nat (λ _, t0 + 8 * us_per_day) ejemplo_limite =
         (ejemplo_limite, inr r) ∧
    ∀ l, l ∈ r ↔ ∃ (i : nat) p, [0%nat; 1%nat; 2%nat] !! i = Some l ∧
                   prestamos ejemplo_limite !! l = Some p ∧
                   pre_fecha_devolucion_real p = None ∧
                   pre_fecha_devolucion_esperada p < t0 + 8 * us_per_day.
Proof.
  apply (prestamos_vencidos_exactos ejemplo_limite 0%nat
           (mkBiblioteca [0%nat; 1%nat; 2%nat; 3%nat] [0%nat; 1%nat]
              [0%nat; 1%nat; 2%nat] 4) (λ _, t0 + 8 * us_per_day)).
  - apply alcanzable_bien_formado, alcanzable_ejemplo_limite.
  - vm_compute; reflexivity.
Defined.

Lemma calcular_dias_retraso_vencido h l p now1 now2 :
  prestamos h !! l = Some p →
  pre_fecha_devolucion_real p = None →
  pre_fecha_devolucion_esperada p < now1 → now1 ≤ now2 →
  calcular_dias_retraso l now1 now2 h =
    (h, inr (dias_entre now2 (pre_fecha_devolucion_esperada p))).
Proof.
  intros Hp Hr Ht H12.
  unfold calcular_dias_retraso, esta_vencido, esta_vencido_obj. desplegar.
  rewrite Hp; simpl. rewrite Hr; simpl.
  apply Z.ltb_lt in Ht as Ht'. rewrite Ht'; simpl. rewrite Hp; simpl.
  pose proof (dias_entre_no_negativo now2 (pre_fecha_devolucion_esperada p)).
  do 2 f_equal. lia.
Qed.



(** The penalty that [devolver] records for a late return is what
    [calcular_penalizacion_retraso] gives for the number of days that
    [calcular_dias_retraso] reports at the same instant, just before. *)
Theorem penalizacion_segun_dias_retraso (h h' : Heap) (l : loc) (p : Prestamo)
    (pub : Publicacion) (now : datetime) :
  prestamos h !! l = Some p →
  publicaciones h !! pre_publicacion p = Some pub →
  pre_fecha_devolucion_esperada p < now →
  devolver l now h = (h', inr tt) →
  ∃ d p', calcular_dias_retraso l now now h = (h, inr d) ∧
    prestamos h' !! l = Some p' ∧
    pre_penalizacion p' = calcular_penalizacion_retraso pub d.
Proof.
  intros Hp Hpub Ht Hd.
  apply devolver_exito in Hd as (p0 & pub0 & u & Hp0 & Hr & Hpub0 & Hdisp & Hu & ->).
  rewrite Hp in Hp0. injection Hp0 as <-. rewrite Hpub in Hpub0. injection Hpub0 as <-.
  eexists _, _. split; [apply calcular_dias_retraso_vencido; [done|done|done|lia]|].
  unfold heap_tras_devolver; simpl. rewrite lookup_insert_eq. split; [done|].
  apply Z.ltb_lt in Ht as Ht'. by rewrite Ht'.
Qed.

Lemma penalizacion_segun_dias_retraso_witness :
  ∃ d p', calcular_dias_retraso 0%nat (t0 + 17 * us_per_day + 3600000000)
            (t0 + 17 * us_per_day + 3600000000) ejemplo_prestado =
            (ejemplo_prestado, inr d) ∧
    prestamos ejemplo_devuelto_tarde !! 0%nat = Some p' ∧
    pre_penalizacion p' =
      calcular_penalizacion_retraso
        (mkPublicacion 1 "Python Crash Course" 2019 false (Libro "Eric Matthes" "123")) d.
Proof.
  apply (penalizacion_segun_dias_retraso ejemplo_prestado ejemplo_devuelto_tarde 0%nat
           (mkPrestamo 1 0%nat 0%nat t0 (t0 + 7 * us_per_day) None 0.0%float)).
  - vm_compute; reflexivity.
  - vm_compute; reflexivity.
  - simpl. unfold t0, us_per_day. lia.
  - vm_compute; reflexivity.
Defined.

(** A loan that was returned is never overdue again, whatever the client
    does and whenever the clock is read. *)
Theorem devuelto_nunca_vencido (h h1 : Heap) (l : loc) (t1 : datetime) :
  devolver l t1 h = (h1, inr tt) →
  ∀ (cs : list Cmd) (t : datetime),
    esta_vencido l t (correr cs h1) = (correr cs h1, inr false).
Proof.
  intros Hd cs t.
  apply devolver_exito in Hd as (p & pub & u & Hp & Hr & Hpub & Hdisp & Hu & ->).
  unfold esta_vencido, esta_vencido_obj. desplegar.
  erewrite correr_prestamo_devuelto; [| apply lookup_insert_eq | apply real_tras_devolver].
  simpl. by rewrite real_tras_devolver.
Qed.

Lemma devuelto_nunca_vencido_witness :
  esta_vencido 0%nat (t0 + 100 * us_per_day)
    (correr [CCrearPrestamo 0%nat 2 1 (t0 + 20 * us_per_day)] ejemplo_devuelto_tarde) =
  (correr [CCrearPrestamo 0%nat 2 1 (t0 + 20 * us_per_day)] ejemplo_devuelto_tarde,
   inr false).
Proof.
  apply (devuelto_nunca_vencido ejemplo_prestado ejemplo_devuelto_tarde 0%nat
           (t0 + 17 * us_per_day + 3600000000)).
  vm_compute; reflexivity.
Defined.

(** As long as no penalty is posted with a negative amount, no user ever
    has a negative accumulated penalty (a balance below zero), whatever
    else the client does (late returns, payments of any amount). *)
Theorem penalizaciones_nunca_negativas (cs : list Cmd) (h : Heap) :
  Forall monto_no_negativo cs →
  penalizaciones_no_negativas h →
  penalizaciones_no_negativas (correr cs h).
Proof.
  intros Hcs. revert h. induction Hcs as [|c cs Hc _ IH]; intros h Hinv; simpl; [done|].
  apply IH. by apply paso_penalizaciones_no_negativas.
Qed.

Lemma penalizaciones_nunca_negativas_witness :
  penalizaciones_no_negativas
    (correr (programa_catalogo ++
               [CCrearPrestamo 0%nat 1 1 t0; CDevolver 0%nat (t0 + 20 * us_per_day);
                CPagarPenalizacion 0%nat (-2); CPagarPenalizacion 0%nat 15])
       heap_vacio).
Proof.
  apply penalizaciones_nunca_negativas.
  - repeat constructor.
  - intros l u. unfold heap_vacio; simpl. by rewrite lookup_empty.
Defined.

Lemma paso_penalizaciones_son_numeros c h :
  monto_es_numero c →
  penalizaciones_son_numeros h → penalizaciones_son_numeros (paso c h).
Proof.
  intros Hm Hinv k u'.
  destruct c as [id titulo anio autor isbn|id titulo anio n|id titulo anio d
                |id nombre email|id usuario publicacion dias now| |pl|pl|ul ll|ul ll
                |ul monto|ul monto|ll now|bl pl|bl ul|bl uid pid now];
    try (desplegar_metodos; repeat (case_match; simplify_eq/=); by apply Hinv).
  - (* CUsuario *)
    desplegar_metodos. rewrite lookup_insert. case_decide; [|by apply Hinv].
    by intros [= <-].
  - (* CPrestamo *)
    unfold paso, ejecutar. rewrite descartar_heap.
    destruct (new_Prestamo id usuario publicacion dias now h) as [h' [e|l]] eqn:E.
    + revert E. unfold new_Prestamo, timedelta_days, datetime_add. desplegar.
      repeat case_match; simpl; intros [= <-]; by apply Hinv.
    + apply new_Prestamo_inv in E as (_ & _ & _ & ->). by apply Hinv.
  - (* CAgregarPrestamo *)
    desplegar_metodos. destruct (usuarios h !! ul) as [u|] eqn:Eu; simpl; [|by apply Hinv].
    rewrite lookup_insert. case_decide; [|by apply Hinv].
    intros [= <-]. simpl. by eapply Hinv.
  - (* CRemoverPrestamo *)
    desplegar_metodos. destruct (usuarios h !! ul) as [u|] eqn:Eu; simpl; [|by apply Hinv].
    rewrite lookup_insert. case_decide; [|by apply Hinv].
    intros [= <-]. rewrite remover_prestamo_obj_penalizacion. by eapply Hinv.
  - (* CAgregarPenalizacion *)
    desplegar_metodos. destruct (usuarios h !! ul) as [u|] eqn:Eu; simpl; [|by apply Hinv].
    rewrite lookup_insert. case_decide; [|by apply Hinv].
    intros [= <-]. simpl. simpl in Hm.
    specialize (Hinv _ _ Eu).
    by apply add_no_negativo.
  - (* CPagarPenalizacion *)
    desplegar_metodos. destruct (usuarios h !! ul) as [u|] eqn:Eu; simpl; [|by apply Hinv].
    destruct (usr_penalizacion_acumulada u <? monto)%float eqn:Eg; simpl;
      [by apply Hinv|].
    rewrite lookup_insert. case_decide; [|by apply Hinv].
    intros [= <-]. simpl. apply sub_no_negativo; [by eapply Hinv|done|done].
  - (* CDevolver *)
    unfold paso, ejecutar.
    destruct (devolver_efecto ll now h) as (_ & _ & _ & [->|Hu]); [by apply Hinv|].
    destruct Hu as (k0 & u & ls & q & Hu & _ & Hq & ->).
    rewrite lookup_insert. case_decide; [|by apply Hinv].
    intros [= <-]. simpl. specialize (Hinv _ _ Hu).
    destruct Hq as [->|(pub & d & Hd & ->)]; [done|].
    apply add_no_negativo; [done|].
    by apply calcular_penalizacion_retraso_no_negativa.
  - (* CCrearPrestamo *)
    unfold paso, ejecutar. rewrite descartar_heap.
    destruct (crear_prestamo_resultado bl uid pid now h)
      as [bb usuario u publicacion pub Hb Hbu Hu Hbp Hpub Hpuede Hd Hr|]; [|by apply Hinv].
    simpl. rewrite lookup_insert. case_decide; [|by apply Hinv].
    intros [= <-]. simpl. by eapply Hinv.
Qed.

(** Accumulated penalties stay numbers: as long as every amount posted is a
    number that is not below zero and every amount paid is a number below
    infinity, no balance ever becomes NaN or drops below zero, whatever
    else the client does (a sum of doubles may overflow to infinity). *)
Theorem penalizaciones_siempre_numeros (cs : list Cmd) (h : Heap) :
  Forall monto_es_numero cs →
  penalizaciones_son_numeros h →
  penalizaciones_son_numeros (correr cs h).
Proof.
  intros Hcs. revert h. induction Hcs as [|c cs Hc _ IH]; intros h Hinv; simpl; [done|].
  apply IH. by apply paso_penalizaciones_son_numeros.
Qed.

Lemma penalizaciones_siempre_numeros_witness :
  penalizaciones_son_numeros
    (correr (programa_catalogo ++
               [CAgregarPenalizacion 1%nat 0.25; CAgregarPenalizacion 1%nat 1.0;
                CCrearPrestamo 0%nat 1 1 t0; CDevolver 0%nat (t0 + 20 * us_per_day);
                CPagarPenalizacion 0%nat (-2); CPagarPenalizacion 0%nat 15])
       heap_vacio).
Proof.
  apply penalizaciones_siempre_numeros.
  - repeat constructor.
  - intros l u. unfold heap_vacio; simpl. by rewrite lookup_empty.
Defined.

Lemma heap_usuario_mismo h k u :
  usuarios h !! k = Some u →
  mkHeap (publicaciones h) (<[k := u]> (usuarios h)) (prestamos h) (bibliotecas h) = h.
Proof. intros Hu. rewrite insert_id by done. by destruct h. Qed.

(** [remover_prestamo] of a loan that is not among the user's active loans
    silently changes nothing, and it undoes an [agregar_prestamo] of a loan
    that was not there before. *)
Theorem agregar_y_remover_prestamo (h : Heap) (k : loc) (u : Usuario) (l : loc) :
  usuarios h !! k = Some u →
  l ∉ usr_prestamos_activos u →
  remover_prestamo k l h = (h, inr tt) ∧
  remover_prestamo k l (agregar_prestamo k l h).1 = (h, inr tt).
Proof.
  intros Hu Hl. split.
  - unfold remover_prestamo, remover_prestamo_obj. desplegar. rewrite Hu; simpl.
    rewrite bool_decide_eq_false_2 by done. by rewrite heap_usuario_mismo.
  - unfold remover_prestamo, agregar_prestamo. desplegar. rewrite Hu; simpl.
    rewrite lookup_insert_eq; simpl. rewrite insert_insert_eq.
    rewrite remover_agregar_prestamo_obj by done. by rewrite heap_usuario_mismo.
Qed.

Lemma agregar_y_remover_prestamo_witness :
  remover_prestamo 1%nat 0%nat ejemplo_prestado = (ejemplo_prestado, inr tt) ∧
  remover_prestamo 1%nat 0%nat (agregar_prestamo 1%nat 0%nat ejemplo_prestado).1 =
    (ejemplo_prestado, inr tt).
Proof.
  apply (agregar_y_remover_prestamo ejemplo_prestado 1%nat
           (mkUsuario 2 "Carlos" "carlos@example.com" [] 0.0%float)).
  - vm_compute; reflexivity.
  - simpl. apply not_elem_of_nil.
Defined.

(** *** Partial failure, read-only attributes and stable lookups *)

(** [devolver] is not atomic: when the publication of an unreturned loan is
    already available (the loan was built with the constructor alone), the
    call raises "no está prestada" after it has recorded the return
    timestamp and, when late, recorded the penalty on the loan and added
    it to the user's balance (the source's float sum); the loan stays among
    the user's active loans and every later [devolver] raises
    "ya fue devuelto". *)
Theorem devolver_falla_a_medias (h : Heap) (l : loc) (p : Prestamo) (pub : Publicacion)
    (u : Usuario) (now : datetime) :
  prestamos h !! l = Some p →
  pre_fecha_devolucion_real p = None →
  publicaciones h !! pre_publicacion p = Some pub →
  pub_disponible pub = true →
  usuarios h !! pre_usuario p = Some u →
  ∃ h' p' u',
    devolver l now h = (h', inl (ValueError msg_no_prestada)) ∧
    prestamos h' !! l = Some p' ∧
    pre_fecha_devolucion_real p' = Some now ∧
    usuarios h' !! pre_usuario p = Some u' ∧
    usr_prestamos_activos u' = usr_prestamos_activos u ∧
    (pre_fecha_devolucion_esperada p < now →
       pre_penalizacion p' =
         calcular_penalizacion_retraso pub
           (dias_entre now (pre_fecha_devolucion_esperada p)) ∧
       usr_penalizacion_acumulada u' =
         (usr_penalizacion_acumulada u +
          calcular_penalizacion_retraso pub
            (dias_entre now (pre_fecha_devolucion_esperada p)))%float) ∧
    (now ≤ pre_fecha_devolucion_esperada p →
       pre_penalizacion p' = pre_penalizacion p ∧
       usr_penalizacion_acumulada u' = usr_penalizacion_acumulada u) ∧
    publicaciones h' = publicaciones h ∧
    ∀ t, devolver l t h' = (h', inl (ValueError msg_ya_devuelto)).
Proof.
  intros Hp Hr Hpub Hd Hu.
  unfold devolver at 1.
  unfold agregar_penalizacion, marcar_devuelto, remover_prestamo, marcar_devuelto_obj.
  desplegar. rewrite Hp; simpl. rewrite Hr; simpl.
  destruct (pre_fecha_devolucion_esperada p <? now) eqn:Et; simpl.
  - rewrite Hpub; simpl. rewrite lookup_insert_eq; simpl. rewrite Hu; simpl.
    rewrite Hpub; simpl. rewrite Hd; simpl. rewrite insert_insert_eq.
    apply Z.ltb_lt in Et.
    eexists _, _, _. split; [done|]. simpl. rewrite !lookup_insert_eq.
    split; [done|]. split; [done|]. split; [done|]. split; [done|].
    split; [done|]. split; [lia|]. split; [done|].
    intros t. eapply devolver_ya_devuelto; [apply lookup_insert_eq|done].
  - apply Z.ltb_ge in Et. rewrite Hpub; simpl. rewrite Hd; simpl.
    eexists _, _, u. split; [done|]. simpl. rewrite lookup_insert_eq.
    split; [done|]. split; [done|]. split; [done|]. split; [done|].
    split; [lia|]. split; [done|]. split; [done|].
    intros t. eapply devolver_ya_devuelto; [apply lookup_insert_eq|done].
Qed.

Lemma devolver_falla_a_medias_witness :
  ∃ h' p' u',
    devolver 0%nat (t0 + 10 * us_per_day) ejemplo_prestamo_directo =
      (h', inl (ValueError msg_no_prestada)) ∧
    prestamos h' !! 0%nat = Some p' ∧
    pre_fecha_devolucion_real p' = Some (t0 + 10 * us_per_day) ∧
    usuarios h' !! 1%nat = Some u' ∧
    usr_prestamos_activos u' = [] ∧
    (t0 + 7 * us_per_day < t0 + 10 * us_per_day →
       pre_penalizacion p' =
         calcular_penalizacion_retraso (mkPublicacion 4 "Test DVD" 2020 true (DVD 120))
           (dias_entre (t0 + 10 * us_per_day) (t0 + 7 * us_per_day)) ∧
       usr_penalizacion_acumulada u' =
         (0.0 +
          calcular_penalizacion_retraso (mkPublicacion 4 "Test DVD" 2020 true (DVD 120))
            (dias_entre (t0 + 10 * us_per_day) (t0 + 7 * us_per_day)))%float) ∧
    (t0 + 10 * us_per_day ≤ t0 + 7 * us_per_day →
       pre_penalizacion p' = 0.0%float ∧
       usr_penalizacion_acumulada u' = 0.0%float) ∧
    publicaciones h' = publicaciones ejemplo_prestamo_directo ∧
    ∀ t, devolver 0%nat t h' = (h', inl (ValueError msg_ya_devuelto)).
Proof.
  apply (devolver_falla_a_medias ejemplo_prestamo_directo 0%nat
           (mkPrestamo 7 1%nat 3%nat t0 (t0 + 7 * us_per_day) None 0.0%float)
           (mkPublicacion 4 "Test DVD" 2020 true (DVD 120))
           (mkUsuario 2 "Carlos" "carlos@example.com" [] 0.0%float)
           (t0 + 10 * us_per_day));
    vm_compute; reflexivity.
Defined.

Lemma paso_usuario_atributos c h k u :
  usuarios h !! k = Some u →
  ∃ u', usuarios (paso c h) !! k = Some u' ∧ mismos_atributos_usuario u u'.
Proof.
  intros Hu.
  assert (Hmismo : ∃ u', usuarios h !! k = Some u' ∧ mismos_atributos_usuario u u')
    by (by exists u).
  destruct c as [id titulo anio autor isbn|id titulo anio n|id titulo anio d
                |id nombre email|id usuario publicacion dias now| |pl|pl|ul ll|ul ll
                |ul monto|ul monto|ll now|bl pl|bl ul|bl uid pid now];
    try (desplegar_metodos; repeat (case_match; simplify_eq/=); exact Hmismo).
  - (* CUsuario *)
    desplegar_metodos. exists u. split; [|done]. rewrite lookup_insert_ne; [done|].
    intros <-. by rewrite fresh_usuario_nuevo in Hu.
  - (* CPrestamo *)
    unfold paso, ejecutar. rewrite descartar_heap.
    destruct (new_Prestamo id usuario publicacion dias now h) as [h' [e|l]] eqn:E.
    + revert E. unfold new_Prestamo, timedelta_days, datetime_add. desplegar.
      repeat case_match; simpl; by intros [= <-].
    + by apply new_Prestamo_inv in E as (_ & _ & _ & ->).
  - (* CAgregarPrestamo *)
    desplegar_metodos. destruct (usuarios h !! ul) as [u0|] eqn:E; simpl; [|done].
    rewrite lookup_insert. case_decide; [|done]. simplify_eq. by eexists.
  - (* CRemoverPrestamo *)
    desplegar_metodos. destruct (usuarios h !! ul) as [u0|] eqn:E; simpl; [|done].
    rewrite lookup_insert. case_decide; [|done]. simplify_eq.
    eexists. split; [done|]. unfold remover_prestamo_obj. by case_bool_decide.
  - (* CAgregarPenalizacion *)
    desplegar_metodos. destruct (usuarios h !! ul) as [u0|] eqn:E; simpl; [|done].
    rewrite lookup_insert. case_decide; [|done]. simplify_eq. by eexists.
  - (* CPagarPenalizacion *)
    desplegar_metodos. destruct (usuarios h !! ul) as [u0|] eqn:E; simpl; [|done].
    destruct (usr_penalizacion_acumulada u0 <? monto)%float; simpl; [done|].
    rewrite lookup_insert. case_decide; [|done]. simplify_eq. by eexists.
  - (* CDevolver *)
    unfold paso, ejecutar.
    destruct (devolver_efecto ll now h) as (_ & _ & _ & [->|Hus]); [done|].
    destruct Hus as (k0 & u0 & ls & q & Hu0 & _ & _ & ->).
    rewrite lookup_insert. case_decide; [|done]. simplify_eq. by eexists.
  - (* CCrearPrestamo *)
    unfold paso, ejecutar. rewrite descartar_heap.
    destruct (crear_prestamo_resultado bl uid pid now h)
      as [bb usuario u0 publicacion pub Hb Hbu Hu0 Hbp Hpub Hpuede Hd Hr|]; [|done].
    simpl. rewrite lookup_insert. case_decide; [|done]. simplify_eq. by eexists.
Qed.

Lemma paso_publicacion_atributos c h k p :
  publicaciones h !! k = Some p →
  ∃ p', publicaciones (paso c h) !! k = Some p' ∧ mismos_atributos_publicacion p p'.
Proof.
  intros Hp.
  assert (Hmismo : ∃ p', publicaciones h !! k = Some p' ∧
                     mismos_atributos_publicacion p p') by (by exists p).
  assert (Hnuevo : ∀ p0, ∃ p',
            <[fresh (dom (publicaciones h)) := p0]> (publicaciones h) !! k = Some p' ∧
            mismos_atributos_publicacion p p').
  { intros p0. exists p. split; [|done]. rewrite lookup_insert_ne; [done|].
    intros <-. by rewrite fresh_publicacion_nueva in Hp. }
  destruct c as [id titulo anio autor isbn|id titulo anio n|id titulo anio d
                |id nombre email|id usuario publicacion dias now| |pl|pl|ul ll|ul ll
                |ul monto|ul monto|ll now|bl pl|bl ul|bl uid pid now];
    try (desplegar_metodos; repeat (case_match; simplify_eq/=); exact Hmismo).
  - desplegar_metodos. apply Hnuevo.
  - desplegar_metodos. apply Hnuevo.
  - desplegar_metodos. apply Hnuevo.
  - (* CPrestamo *)
    unfold paso, ejecutar. rewrite descartar_heap.
    destruct (new_Prestamo id usuario publicacion dias now h) as [h' [e|l]] eqn:E.
    + revert E. unfold new_Prestamo, timedelta_days, datetime_add. desplegar.
      repeat case_match; simpl; by intros [= <-].
    + by apply new_Prestamo_inv in E as (_ & _ & _ & ->).
  - (* CMarcarPrestado *)
    desplegar_metodos. destruct (publicaciones h !! pl) as [p0|] eqn:E; simpl; [|done].
    destruct (pub_disponible p0); simpl; [|done].
    rewrite lookup_insert. case_decide; [|done]. simplify_eq. by eexists.
  - (* CMarcarDevuelto *)
    desplegar_metodos. destruct (publicaciones h !! pl) as [p0|] eqn:E; simpl; [|done].
    destruct (pub_disponible p0); simpl; [done|].
    rewrite lookup_insert. case_decide; [|done]. simplify_eq. by eexists.
  - (* CDevolver *)
    unfold paso, ejecutar.
    destruct (devolver_efecto ll now h) as (_ & _ & [->|Hps] & _); [done|].
    destruct Hps as (k0 & p0 & Hp0 & ->).
    rewrite lookup_insert. case_decide; [|done]. simplify_eq. by eexists.
  - (* CCrearPrestamo *)
    unfold paso, ejecutar. rewrite descartar_heap.
    destruct (crear_prestamo_resultado bl uid pid now h)
      as [bb usuario u0 publicacion pub Hb Hbu Hu0 Hbp Hpub Hpuede Hd Hr|]; [|done].
    simpl. rewrite lookup_insert. case_decide; [|done]. simplify_eq. by eexists.
Qed.

Lemma paso_prestamo_atributos c h k p :
  prestamos h !! k = Some p →
  ∃ p', prestamos (paso c h) !! k = Some p' ∧ mismos_atributos_prestamo p p'.
Proof.
  intros Hp.
  destruct (paso_prestamos c h) as [->|[(p0 & _ & _ & ->)|(l0 & p0 & q & now & Hp0 & Hr0 & ->)]].
  - by exists p.
  - exists p. split; [|done]. rewrite lookup_insert_ne; [done|].
    intros <-. by rewrite fresh_prestamo_nuevo in Hp.
  - rewrite lookup_insert. case_decide as Hl.
    + subst l0. rewrite Hp in Hp0. injection Hp0 as <-. by eexists.
    + by exists p.
Qed.

(** No call destroys an object or changes its read-only attributes: a
    user's id, name and e-mail, a publication's id, title, year and variant
    data, a loan's id, user, publication, borrow and due timestamps. *)
Theorem atributos_inmutables (cs : list Cmd) (h : Heap) :
  (∀ k u, usuarios h !! k = Some u →
     ∃ u', usuarios (correr cs h) !! k = Some u' ∧ mismos_atributos_usuario u u') ∧
  (∀ k p, publicaciones h !! k = Some p →
     ∃ p', publicaciones (correr cs h) !! k = Some p' ∧
       mismos_atributos_publicacion p p') ∧
  (∀ k p, prestamos h !! k = Some p →
     ∃ p', prestamos (correr cs h) !! k = Some p' ∧ mismos_atributos_prestamo p p').
Proof.
  revert h. induction cs as [|c cs IH]; intros h; simpl.
  - split; [|split]; intros k x Hx; by exists x.
  - destruct (IH (paso c h)) as (IHu & IHp & IHl). split; [|split].
    + intros k u Hu. destruct (paso_usuario_atributos c h k u Hu) as (u1 & Hu1 & A1).
      destruct (IHu k u1 Hu1) as (u2 & Hu2 & A2). exists u2. split; [done|].
      unfold mismos_atributos_usuario in *. intuition congruence.
    + intros k p Hp. destruct (paso_publicacion_atributos c h k p Hp) as (p1 & Hp1 & A1).
      destruct (IHp k p1 Hp1) as (p2 & Hp2 & A2). exists p2. split; [done|].
      unfold mismos_atributos_publicacion in *. intuition congruence.
    + intros k p Hp. destruct (paso_prestamo_atributos c h k p Hp) as (p1 & Hp1 & A1).
      destruct (IHl k p1 Hp1) as (p2 & Hp2 & A2). exists p2. split; [done|].
      unfold mismos_atributos_prestamo in *. intuition congruence.
Qed.

Lemma paso_biblioteca_crece c h k b :
  bibliotecas h !! k = Some b →
  ∃ b', bibliotecas (paso c h) !! k = Some b' ∧
    bib_usuarios b `prefix_of` bib_usuarios b' ∧
    bib_publicaciones b `prefix_of` bib_publicaciones b' ∧
    bib_prestamos b `prefix_of` bib_prestamos b'.
Proof.
  intros Hb.
  assert (Hmismo : ∃ b', bibliotecas h !! k = Some b' ∧
    bib_usuarios b `prefix_of` bib_usuarios b' ∧
    bib_publicaciones b `prefix_of` bib_publicaciones b' ∧
    bib_prestamos b `prefix_of` bib_prestamos b') by (by exists b).
  destruct c as [id titulo anio autor isbn|id titulo anio n|id titulo anio d
                |id nombre email|id usuario publicacion dias now| |pl|pl|ul ll|ul ll
                |ul monto|ul monto|ll now|bl pl|bl ul|bl uid pid now];
    try (desplegar_metodos; repeat (case_match; simplify_eq/=); exact Hmismo).
  - (* CPrestamo *)
    unfold paso, ejecutar. rewrite descartar_heap.
    destruct (new_Prestamo id usuario publicacion dias now h) as [h' [e|l]] eqn:E.
    + revert E. unfold new_Prestamo, timedelta_days, datetime_add. desplegar.
      repeat case_match; simpl; by intros [= <-].
    + by apply new_Prestamo_inv in E as (_ & _ & _ & ->).
  - (* CBiblioteca *)
    desplegar_metodos. exists b. split; [|done]. rewrite lookup_insert_ne; [done|].
    intros <-. assert (bibliotecas h !! fresh (dom (bibliotecas h)) = None)
      by (apply not_elem_of_dom, is_fresh). congruence.
  - (* CDevolver *)
    unfold paso, ejecutar. by destruct (devolver_efecto ll now h) as (-> & _).
  - (* CAgregarPublicacion *)
    desplegar_metodos. destruct (bibliotecas h !! bl) as [b0|] eqn:E; simpl; [|done].
    rewrite lookup_insert. case_decide; [|done]. simplify_eq.
    eexists. split; [done|]. simpl. split; [done|]. split; [|done].
    by apply prefix_app_r.
  - (* CAgregarUsuario *)
    desplegar_metodos. destruct (bibliotecas h !! bl) as [b0|] eqn:E; simpl; [|done].
    rewrite lookup_insert. case_decide; [|done]. simplify_eq.
    eexists. split; [done|]. simpl. split; [by apply prefix_app_r|done].
  - (* CCrearPrestamo *)
    unfold paso, ejecutar. rewrite descartar_heap.
    destruct (crear_prestamo_resultado bl uid pid now h)
      as [bb usuario u0 publicacion pub Hbb Hbu Hu0 Hbp Hpub Hpuede Hd Hr|]; [|done].
    simpl. rewrite lookup_insert. case_decide; [|done]. simplify_eq.
    eexists. split; [done|]. simpl. split; [done|]. split; [done|].
    by apply prefix_app_r.
Qed.

Lemma filter_igual_en (P Q : loc → Prop) `{∀ x, Decision (P x)} `{∀ x, Decision (Q x)}
    (ls : list loc) :
  (∀ x, x ∈ ls → (P x ↔ Q x)) → filter P ls = filter Q ls.
Proof.
  induction ls as [|x ls IH]; intros Hpq; [done|].
  rewrite !filter_cons. rewrite IH by (intros y Hy; apply Hpq; by right).
  destruct (decide (P x)) as [Hp|Hp], (decide (Q x)) as [Hq|Hq]; try done.
  - exfalso. apply Hq, Hpq; [by left|done].
  - exfalso. apply Hp, Hpq; [by left|done].
Qed.

Lemma head_filter_prefijo (P : loc → Prop) `{∀ x, Decision (P x)} ls ls' k :
  ls `prefix_of` ls' → head (filter P ls) = Some k → head (filter P ls') = Some k.
Proof.
  intros [ext ->] Hk. rewrite filter_app. by destruct (filter P ls).
Qed.

Lemma paso_buscar_usuario c h self id k :
  bien_formado h → refs_validas h c = true →
  buscar_usuario self id h = (h, inr (Some k)) →
  buscar_usuario self id (paso c h) = (paso c h, inr (Some k)).
Proof.
  intros Hbf Hv Hbu.
  destruct (buscar_usuario_biblioteca _ _ _ _ _ Hbu) as [b Hb].
  destruct (buscar_en_biblioteca h self b id Hbf Hb) as [Hspec _].
  rewrite Hspec in Hbu. injection Hbu as Hhead.
  destruct (paso_biblioteca_crece c h self b Hb) as (b' & Hb' & Hpre & _).
  destruct (buscar_en_biblioteca (paso c h) self b' id
              (paso_bien_formado c h Hv Hbf) Hb') as [-> _].
  f_equal. f_equal.
  apply (head_filter_prefijo _ (bib_usuarios b)); [done|].
  rewrite <- Hhead. f_equal. apply filter_igual_en.
  intros x Hx. destruct (bf_biblioteca_usuarios h Hbf _ _ _ Hb Hx) as [u Hu].
  destruct (paso_usuario_atributos c h x u Hu) as (u' & Hu' & Hid & _).
  unfold usuario_con_id. by rewrite Hu, Hu', Hid.
Qed.

Lemma paso_buscar_publicacion c h self id k :
  bien_formado h → refs_validas h c = true →
  buscar_publicacion self id h = (h, inr (Some k)) →
  buscar_publicacion self id (paso c h) = (paso c h, inr (Some k)).
Proof.
  intros Hbf Hv Hbu.
  assert (Hb : is_Some (bibliotecas h !! self)).
  { revert Hbu. unfold buscar_publicacion. desplegar.
    destruct (bibliotecas h !! self); [by eauto|done]. }
  destruct Hb as [b Hb].
  destruct (buscar_en_biblioteca h self b id Hbf Hb) as [_ Hspec].
  rewrite Hspec in Hbu. injection Hbu as Hhead.
  destruct (paso_biblioteca_crece c h self b Hb) as (b' & Hb' & _ & Hpre & _).
  destruct (buscar_en_biblioteca (paso c h) self b' id
              (paso_bien_formado c h Hv Hbf) Hb') as [_ ->].
  f_equal. f_equal.
  apply (head_filter_prefijo _ (bib_publicaciones b)); [done|].
  rewrite <- Hhead. f_equal. apply filter_igual_en.
  intros x Hx. destruct (bf_biblioteca_publicaciones h Hbf _ _ _ Hb Hx) as [u Hu].
  destruct (paso_publicacion_atributos c h x u Hu) as (u' & Hu' & Hid & _).
  unfold publicacion_con_id. by rewrite Hu, Hu', Hid.
Qed.

Lemma correr_buscar_usuario cs h self id k :
  bien_formado h → programa_valido cs h = true →
  buscar_usuario self id h = (h, inr (Some k)) →
  buscar_usuario self id (correr cs h) = (correr cs h, inr (Some k)).
Proof.
  revert h. induction cs as [|c cs IH]; intros h Hbf Hv Hu; simpl in *; [done|].
  apply andb_true_iff in Hv as [Hc Hcs].
  apply (IH (paso c h) (paso_bien_formado c h Hc Hbf) Hcs).
  by apply paso_buscar_usuario.
Qed.

Lemma correr_buscar_publicacion cs h self id k :
  bien_formado h → programa_valido cs h = true →
  buscar_publicacion self id h = (h, inr (Some k)) →
  buscar_publicacion self id (correr cs h) = (correr cs h, inr (Some k)).
Proof.
  revert h. induction cs as [|c cs IH]; intros h Hbf Hv Hu; simpl in *; [done|].
  apply andb_true_iff in Hv as [Hc Hcs].
  apply (IH (paso c h) (paso_bien_formado c h Hc Hbf) Hcs).
  by apply paso_buscar_publicacion.
Qed.

(** What a lookup in a catalog finds, it finds for ever: later calls,
    registrations with the same id included, do not change the answer.
    This holds of every successful [buscar_usuario] and, independently, of
    every successful [buscar_publicacion]. *)
Theorem busqueda_estable (cs : list Cmd) (h : Heap) (self : loc) :
  alcanzable h →
  programa_valido cs h = true →
  (∀ (idu : Z) (ku : loc),
     buscar_usuario self idu h = (h, inr (Some ku)) →
     buscar_usuario self idu (correr cs h) = (correr cs h, inr (Some ku))) ∧
  (∀ (idp : Z) (kp : loc),
     buscar_publicacion self idp h = (h, inr (Some kp)) →
     buscar_publicacion self idp (correr cs h) = (correr cs h, inr (Some kp))).
Proof.
  intros Hbf%alcanzable_bien_formado Hv. split.
  - intros idu ku. by apply correr_buscar_usuario.
  - intros idp kp. by apply correr_buscar_publicacion.
Qed.

Lemma busqueda_estable_witness :
  buscar_usuario 0%nat 1
    (correr [CUsuario 1 "Otra" "otra@example.com"; CAgregarUsuario 0%nat 2%nat;
             CCrearPrestamo 0%nat 1 1 t0] ejemplo_catalogo) =
  (correr [CUsuario 1 "Otra" "otra@example.com"; CAgregarUsuario 0%nat 2%nat;
           CCrearPrestamo 0%nat 1 1 t0] ejemplo_catalogo, inr (Some 0%nat)) ∧
  buscar_publicacion 0%nat 1
    (correr [CUsuario 1 "Otra" "otra@example.com"; CAgregarUsuario 0%nat 2%nat;
             CCrearPrestamo 0%nat 1 1 t0] ejemplo_catalogo) =
  (correr [CUsuario 1 "Otra" "otra@example.com"; CAgregarUsuario 0%nat 2%nat;
           CCrearPrestamo 0%nat 1 1 t0] ejemplo_catalogo, inr (Some 0%nat)).
Proof.
  destruct (busqueda_estable
              [CUsuario 1 "Otra" "otra@example.com"; CAgregarUsuario 0%nat 2%nat;
               CCrearPrestamo 0%nat 1 1 t0] ejemplo_catalogo 0%nat) as [Hu Hp].
  - exact alcanzable_ejemplo_catalogo.
  - vm_compute; reflexivity.
  - split.
    + apply Hu. vm_compute; reflexivity.
    + apply Hp. vm_compute; reflexivity.
Defined.
